(** * tweeks-sync: a shallow embedding of [tweeks_sync.py]

    The development follows the three parts of the program that carry its
    logic: the record scanner ([parse_scripts_from_text]), the userscript
    metadata parser ([parse_userscript_metadata], with [slugify]) and the
    export reconciler ([export_userscripts]).  Around them it covers the
    copy to the destination ([copy_to_destination]), the saved
    configuration ([load_config], [save_config], [get_destination_dir]),
    the check of the extension ([verify_tweeks_extension]), the reading of
    the database files ([extract_userscripts]) and the dialogue that waits
    for Chrome to close ([ensure_chrome_closed]).  The calls of [git] and
    the command line are not modelled.

    Conventions of the embedding.
    - A Python [str] is a [string]; every [ascii] stands for the code point
      of the same number, so the modelled alphabet is U+0000 .. U+00FF.
      The character classes of [re] and [str] below are the Unicode ones
      restricted to that range.
    - A Python [dict] keeps insertion order: it is an association list with
      unique keys, updated in place by [dict_set].
    - The output directory is a finite map from file names to the text they
      hold; the wall clock is a counter that every call of
      [datetime.now()] advances, rendered by [isoformat].
    - An uncaught Python exception is the outcome [Raise].
    - [json.loads] is modelled on the texts within the limits
      [within_limits]: no escape above U+00FF, no run of more than 4300
      digits, no more than 100 brackets nested.  Beyond them the decoder
      yields a character outside the alphabet, or raises [ValueError] for
      an integer it will not convert, or may raise [RecursionError]; the
      model has none of the three.  The texts that are decoded are taken
      within the limits, as all texts are taken within the alphabet, and
      the theorems that conclude without a condition that a run returns,
      or which fault ends it, state the limits as a hypothesis.  Memory is
      taken as unbounded. *)

From Stdlib Require Import String Ascii ZArith Lia List Bool Sorted.
From stdpp Require Import gmap strings list fin_maps.

#[local] Arguments String.append !_ _ / : simpl nomatch.

(** ** Characters *)

Definition code (c : ascii) : nat := nat_of_ascii c.

Definition in_range (lo hi : nat) (c : ascii) : bool :=
  (lo <=? code c) && (code c <=? hi).

(** The double quote, written by its code. *)
Definition dquote : ascii := "034"%char.
Definition newline : ascii := "010"%char.
Definition carriage_return : ascii := "013"%char.
Definition backslash : ascii := "092"%char.

(** [str.isspace], which is also the class [\s] of [re] on [str] patterns. *)
Definition is_space (c : ascii) : bool :=
  in_range 9 13 c || in_range 28 32 c || (code c =? 133) || (code c =? 160).

(** [str.isalnum]: letters, decimal digits, digits and numeric characters. *)
Definition is_alnum (c : ascii) : bool :=
  in_range 48 57 c || in_range 65 90 c || in_range 97 122 c
  || (code c =? 170) || (code c =? 178) || (code c =? 179) || (code c =? 181)
  || (code c =? 185) || (code c =? 186) || in_range 188 190 c
  || in_range 192 214 c || in_range 216 246 c || in_range 248 255 c.

(** The class [\w] of [re]: alphanumeric or underscore. *)
Definition is_word (c : ascii) : bool := is_alnum c || (c =? "_")%char.

(** One character of [str.lower]. *)
Definition lower_char (c : ascii) : ascii :=
  if in_range 65 90 c || in_range 192 214 c || in_range 216 222 c
  then ascii_of_nat (code c + 32) else c.

Definition is_hyphen (c : ascii) : bool := (c =? "-")%char.

(** ** Strings *)

Fixpoint str_map (f : ascii -> ascii) (s : string) : string :=
  match s with
  | EmptyString => EmptyString
  | String c s' => String (f c) (str_map f s')
  end.

(** [text[n:]] *)
Fixpoint str_drop (n : nat) (s : string) : string :=
  match n, s with
  | S n', String _ s' => str_drop n' s'
  | _, _ => s
  end.

(** [text[:n]] *)
Fixpoint str_take (n : nat) (s : string) : string :=
  match n, s with
  | S n', String c s' => String c (str_take n' s')
  | _, _ => EmptyString
  end.

(** [text[a:b]] for [0 <= a]. *)
Definition str_slice (a b : nat) (s : string) : string :=
  str_take (b - a) (str_drop a s).

(** [s.startswith(p)], returning what follows the prefix. *)
Fixpoint strip_prefix (p s : string) : option string :=
  match p, s with
  | EmptyString, _ => Some s
  | String a p', String b s' => if (a =? b)%char then strip_prefix p' s' else None
  | String _ _, EmptyString => None
  end.

Definition starts_with (p s : string) : bool :=
  match strip_prefix p s with Some _ => true | None => false end.

(** The first offset at or after [off] where [sub] occurs, [s] being the
    text from offset [off] on. *)
Fixpoint find_at (sub s : string) (off : nat) : option nat :=
  if starts_with sub s then Some off
  else match s with
       | EmptyString => None
       | String _ s' => find_at sub s' (S off)
       end.

(** [text.find(sub, idx)] for [0 <= idx]; [None] is Python's [-1]. *)
Definition str_find (sub text : string) (idx : nat) : option nat :=
  if String.length text <? idx then None
  else find_at sub (str_drop idx text) idx.

(** [sub in s] *)
Definition str_contains (sub s : string) : bool :=
  match find_at sub s 0 with Some _ => true | None => false end.

(** [s.lstrip(chars)], [s.rstrip(chars)] and [s.strip(chars)], the set of
    characters given as a class. *)
Fixpoint lstrip (cls : ascii -> bool) (s : string) : string :=
  match s with
  | EmptyString => EmptyString
  | String c s' => if cls c then lstrip cls s' else s
  end.

Fixpoint rstrip (cls : ascii -> bool) (s : string) : string :=
  match s with
  | EmptyString => EmptyString
  | String c s' =>
      match rstrip cls s' with
      | EmptyString => if cls c then EmptyString else String c EmptyString
      | r => String c r
      end
  end.

Definition strip (cls : ascii -> bool) (s : string) : string :=
  rstrip cls (lstrip cls s).

(** The longest prefix of characters of a class, and what follows it. *)
Fixpoint take_while (cls : ascii -> bool) (s : string) : string :=
  match s with
  | EmptyString => EmptyString
  | String c s' => if cls c then String c (take_while cls s') else EmptyString
  end.

(** [s.split(sep)] for a one-character separator. *)
Fixpoint split_on (sep : ascii) (s : string) : list string :=
  match s with
  | EmptyString => [EmptyString]
  | String c s' =>
      if (c =? sep)%char then EmptyString :: split_on sep s'
      else match split_on sep s' with
           | l :: ls => String c l :: ls
           | [] => [String c EmptyString]
           end
  end.

(** Texts of examples are written with an apostrophe where the text has a
    double quote. *)
Definition dq (s : string) : string :=
  str_map (fun c => if (c =? "'")%char then dquote else c) s.

(** ** Regular-expression substitutions used by [slugify] *)

(** [re.sub] of a one-character class: every character of the class is one
    match, replaced by [repl]. *)
Fixpoint re_sub_class (cls : ascii -> bool) (repl s : string) : string :=
  match s with
  | EmptyString => EmptyString
  | String c s' =>
      if cls c then repl +:+ re_sub_class cls repl s'
      else String c (re_sub_class cls repl s')
  end.

(** [re.sub] of [cls+]: matches are the maximal runs of the class, found
    left to right; [in_run] says that the previous character belongs to the
    match being replaced. *)
Fixpoint re_sub_runs (cls : ascii -> bool) (repl : string) (in_run : bool)
    (s : string) : string :=
  match s with
  | EmptyString => EmptyString
  | String c s' =>
      if cls c then
        if in_run then re_sub_runs cls repl true s'
        else repl +:+ re_sub_runs cls repl true s'
      else String c (re_sub_runs cls repl false s')
  end.

(** ** [slugify] *)

(** The class [[^\w\s-]]. *)
Definition slug_removed (c : ascii) : bool :=
  negb (is_word c || is_space c || is_hyphen c).

(** The class [[-\s]]. *)
Definition slug_separator (c : ascii) : bool := is_hyphen c || is_space c.

Definition lower (text : string) : string := str_map lower_char text.

Definition slugify (text : string) : string :=
  let text := lower text in
  let text := re_sub_class slug_removed "" text in
  let text := re_sub_runs slug_separator "-" false text in
  strip is_hyphen text.

(** The slug as the specification words it, on the list of characters:
    lowercase; keep only word characters, whitespace and hyphens; turn every
    separator into a hyphen and squeeze adjacent hyphens into one; trim the
    hyphens at both ends. *)
Fixpoint drop_hyphens (l : list ascii) : list ascii :=
  match l with
  | c :: l' => if is_hyphen c then drop_hyphens l' else l
  | [] => []
  end.

Fixpoint squeeze_hyphens (l : list ascii) : list ascii :=
  match l with
  | a :: l' =>
      match l' with
      | b :: _ => if is_hyphen a && is_hyphen b then squeeze_hyphens l'
                  else a :: squeeze_hyphens l'
      | [] => [a]
      end
  | [] => []
  end.

Definition slug_kept (c : ascii) : bool := is_word c || is_space c || is_hyphen c.

Definition separator_to_hyphen (c : ascii) : ascii :=
  if slug_separator c then "-"%char else c.

Definition slug_spec (text : string) : string :=
  let chars := map lower_char (list_ascii_of_string text) in
  let chars := List.filter slug_kept chars in
  let chars := squeeze_hyphens (map separator_to_hyphen chars) in
  string_of_list_ascii (rev (drop_hyphens (rev (drop_hyphens chars)))).

(** ** Dictionaries *)

Fixpoint dict_get {V : Type} (k : string) (d : list (string * V)) : option V :=
  match d with
  | [] => None
  | (k', v) :: d' => if String.eqb k' k then Some v else dict_get k d'
  end.

(** [d[k] = v]: an existing key keeps its place, a new one goes last. *)
Fixpoint dict_set {V : Type} (k : string) (v : V) (d : list (string * V))
    : list (string * V) :=
  match d with
  | [] => [(k, v)]
  | (k', v') :: d' =>
      if String.eqb k' k then (k', v) :: d' else (k', v') :: dict_set k v d'
  end.

(** ** [parse_userscript_metadata] *)

Definition begin_marker : string := "==UserScript==".
Definition end_marker : string := "==/UserScript==".

(** The pattern [//\s*LIT] matched at the head of [s]; the result is what
    follows the match.  The greedy [\s*] never gives a character back: the
    literal starts with [=], which is no whitespace. *)
Definition match_marker (lit s : string) : option string :=
  match s with
  | String "/" (String "/" s') => strip_prefix lit (lstrip is_space s')
  | _ => None
  end.

(** The lazy group [(.*?)] (with [re.DOTALL]) followed by [//\s*LIT]: the
    shortest text after which the pattern matches. *)
Fixpoint lazy_group_until (lit s : string) : option string :=
  match match_marker lit s with
  | Some _ => Some EmptyString
  | None =>
      match s with
      | EmptyString => None
      | String c s' => String c <$> lazy_group_until lit s'
      end
  end.

(** [re.search(r'//\s*==UserScript==(.*?)//\s*==/UserScript==', script,
    re.DOTALL)]: the start offsets are tried from left to right, and the
    result is group 1 of the first one that matches. *)
Fixpoint search_header (script : string) : option string :=
  match match_marker begin_marker script ≫= lazy_group_until end_marker with
  | Some header => Some header
  | None =>
      match script with
      | EmptyString => None
      | String _ s' => search_header s'
      end
  end.

(** [re.match] of the pattern [@(\w+)\s+(REST)], where REST is a greedy run
    of any characters but the newline: the groups (key, value).  [\w+] and
    [\s+] are greedy and their classes are disjoint. *)
Definition match_meta_line (line : string) : option (string * string) :=
  match line with
  | String "@" rest =>
      let key := take_while is_word rest in
      let rest := str_drop (String.length key) rest in
      match key, rest with
      | String _ _, String c _ =>
          if is_space c
          then Some (key, take_while (fun c => negb (c =? newline)%char)
                            (lstrip is_space rest))
          else None
      | _, _ => None
      end
  | _ => None
  end.

(** What one line of the header contributes. *)
Definition line_entry (line : string) : option (string * string) :=
  let line := strip is_space line in
  if starts_with "//" line
  then match_meta_line (strip is_space (str_drop 2 line))
  else None.

(** A metadata value: one string, or the list a repeated key collects. *)
Inductive meta_value : Type :=
  | MStr (s : string)
  | MList (l : list string).

Definition metadata_dict : Type := list (string * meta_value).

Definition add_meta (key value : string) (metadata : metadata_dict)
    : metadata_dict :=
  match dict_get key metadata with
  | Some (MList l) => dict_set key (MList (l ++ [value])) metadata
  | Some (MStr v) => dict_set key (MList [v; value]) metadata
  | None => dict_set key (MStr value) metadata
  end.

Definition add_line (metadata : metadata_dict) (line : string) : metadata_dict :=
  match line_entry line with
  | Some (key, value) => add_meta key value metadata
  | None => metadata
  end.

Definition parse_userscript_metadata (script : string) : metadata_dict :=
  match search_header script with
  | None => []
  | Some header => fold_left add_line (split_on newline header) []
  end.






(** ** JSON values, [json.loads] and [json.dump]

    The [json] module is the standard library's, not the program's; this is
    the decoder's grammar and the encoder's layout on the modelled alphabet.
    A number is kept as the literal that denotes it and is written back as
    that literal; the notation in which Python writes a number it has read
    is not modelled.  An escape that denotes a code point above U+00FF
    denotes no character of the alphabet: the model refuses the text, which
    the decoder accepts.  The model converts an integer literal of any
    length and descends to any depth, where the decoder raises
    [ValueError] above 4300 digits and [RecursionError] at the recursion
    limit, neither of them a [json.JSONDecodeError].  So the two agree on
    the texts [within_limits], defined below, and the model is used on
    those. *)

#[warnings="-register-all"]
Inductive json : Type :=
  | JNull
  | JBool (b : bool)
  | JNum (literal : string)
  | JStr (s : string)
  | JArr (items : list json)
  | JObj (members : list (string * json)).

Definition is_json_ws (c : ascii) : bool :=
  (c =? " ")%char || (c =? "009")%char || (c =? newline)%char
  || (c =? carriage_return)%char.

Definition skip_ws (s : string) : string := lstrip is_json_ws s.

Definition is_digit (c : ascii) : bool := in_range 48 57 c.

Definition hex_value (c : ascii) : option nat :=
  if in_range 48 57 c then Some (code c - 48)
  else if in_range 97 102 c then Some (code c - 87)
  else if in_range 65 70 c then Some (code c - 55)
  else None.

Definition hex4 (h1 h2 h3 h4 : ascii) : option nat :=
  a ← hex_value h1; b ← hex_value h2; c ← hex_value h3; d ← hex_value h4;
  Some (((a * 16 + b) * 16 + c) * 16 + d).

(** The character a one-letter escape stands for. *)
Definition unescape (e : ascii) : option ascii :=
  if (e =? dquote)%char then Some dquote
  else if (e =? backslash)%char then Some backslash
  else if (e =? "/")%char then Some "/"%char
  else if (e =? "b")%char then Some "008"%char
  else if (e =? "f")%char then Some "012"%char
  else if (e =? "n")%char then Some newline
  else if (e =? "r")%char then Some carriage_return
  else if (e =? "t")%char then Some "009"%char
  else None.

Definition cons_char (c : ascii) (r : option (string * string))
    : option (string * string) :=
  (fun p : string * string => (String c (fst p), snd p)) <$> r.

(** The body of a string literal, from after its opening quote: the decoded
    string and what follows the closing quote (strict mode). *)
Fixpoint scanstring (s : string) : option (string * string) :=
  match s with
  | EmptyString => None
  | String c s' =>
      if (c =? dquote)%char then Some (EmptyString, s')
      else if (c =? backslash)%char then
        match s' with
        | EmptyString => None
        | String e s'' =>
            if (e =? "u")%char then
              match s'' with
              | String h1 (String h2 (String h3 (String h4 rest))) =>
                  match hex4 h1 h2 h3 h4 with
                  | Some n =>
                      if n <? 256 then cons_char (ascii_of_nat n) (scanstring rest)
                      else None
                  | None => None
                  end
              | _ => None
              end
            else
              match unescape e with
              | Some ch => cons_char ch (scanstring s'')
              | None => None
              end
        end
      else if code c <? 32 then None
      else cons_char c (scanstring s')
  end.

(** One or more digits. *)
Definition digits1 (s : string) : option (string * string) :=
  match take_while is_digit s with
  | EmptyString => None
  | ds => Some (ds, str_drop (String.length ds) s)
  end.

(** The number pattern of the decoder: a sign, an integer part, an optional
    fraction and an optional exponent; each part is given with the text it
    leaves. *)
Definition number_sign (s : string) : string * string :=
  match s with
  | String c s' => if (c =? "-")%char then ("-", s') else (EmptyString, s)
  | EmptyString => (EmptyString, s)
  end.

Definition number_int (s : string) : option (string * string) :=
  match s with
  | String d s' =>
      if (d =? "0")%char then Some ("0", s')
      else if in_range 49 57 d then
        let ds := take_while is_digit s' in
        Some (String d ds, str_drop (String.length ds) s')
      else None
  | EmptyString => None
  end.

Definition number_frac (s : string) : string * string :=
  match s with
  | String c s' =>
      if (c =? ".")%char then
        match digits1 s' with
        | Some (ds, r) => (String c ds, r)
        | None => (EmptyString, s)
        end
      else (EmptyString, s)
  | EmptyString => (EmptyString, s)
  end.

Definition number_exp (s : string) : string * string :=
  match s with
  | String e s' =>
      if (e =? "e")%char || (e =? "E")%char then
        let sg :=
          match s' with
          | String c t =>
              if (c =? "+")%char || (c =? "-")%char
              then (String c EmptyString, t) else (EmptyString, s')
          | EmptyString => (EmptyString, s')
          end in
        match digits1 (snd sg) with
        | Some (ds, r) => (String e (fst sg +:+ ds), r)
        | None => (EmptyString, s)
        end
      else (EmptyString, s)
  | EmptyString => (EmptyString, s)
  end.

Definition match_number (s : string) : option (string * string) :=
  let sign := number_sign s in
  int_part ← number_int (snd sign);
  let frac := number_frac (snd int_part) in
  let expo := number_exp (snd frac) in
  Some (fst sign +:+ fst int_part +:+ fst frac +:+ fst expo, snd expo).

Definition match_literal (s : string) : option (json * string) :=
  match strip_prefix "null" s with
  | Some r => Some (JNull, r)
  | None =>
  match strip_prefix "true" s with
  | Some r => Some (JBool true, r)
  | None =>
  match strip_prefix "false" s with
  | Some r => Some (JBool false, r)
  | None =>
  match match_number s with
  | Some (lit, r) => Some (JNum lit, r)
  | None =>
  match strip_prefix "NaN" s with
  | Some r => Some (JNum "NaN", r)
  | None =>
  match strip_prefix "Infinity" s with
  | Some r => Some (JNum "Infinity", r)
  | None =>
  match strip_prefix "-Infinity" s with
  | Some r => Some (JNum "-Infinity", r)
  | None => None
  end end end end end end end.

(** The recursive descent of the decoder.  [scan_once] reads one value;
    [object_members] continues an object from after the opening quote of a
    key, [array_items] an array from the start of an item.  A later member
    with the key of an earlier one replaces its value. *)
Fixpoint scan_once (fuel : nat) (s : string) : option (json * string) :=
  match fuel with
  | 0 => None
  | S fuel' =>
      match s with
      | EmptyString => None
      | String c s' =>
          if (c =? dquote)%char then
            (fun p : string * string => (JStr (fst p), snd p)) <$> scanstring s'
          else if (c =? "{")%char then
            match skip_ws s' with
            | String c1 s1 =>
                if (c1 =? dquote)%char then object_members fuel' s1 []
                else if (c1 =? "}")%char then Some (JObj [], s1)
                else None
            | EmptyString => None
            end
          else if (c =? "[")%char then
            match skip_ws s' with
            | String c1 s1 =>
                if (c1 =? "]")%char then Some (JArr [], s1)
                else array_items fuel' (String c1 s1) []
            | EmptyString => None
            end
          else match_literal s
      end
  end
with object_members (fuel : nat) (s : string) (pairs : list (string * json))
    : option (json * string) :=
  match fuel with
  | 0 => None
  | S fuel' =>
      match scanstring s with
      | None => None
      | Some (key, s1) =>
          match skip_ws s1 with
          | String c s2 =>
              if (c =? ":")%char then
                match scan_once fuel' (skip_ws s2) with
                | None => None
                | Some (value, s3) =>
                    let pairs := dict_set key value pairs in
                    match skip_ws s3 with
                    | String c1 s4 =>
                        if (c1 =? "}")%char then Some (JObj pairs, s4)
                        else if (c1 =? ",")%char then
                          match skip_ws s4 with
                          | String c2 s5 =>
                              if (c2 =? dquote)%char
                              then object_members fuel' s5 pairs
                              else None
                          | EmptyString => None
                          end
                        else None
                    | EmptyString => None
                    end
                end
              else None
          | EmptyString => None
          end
      end
  end
with array_items (fuel : nat) (s : string) (values : list json)
    : option (json * string) :=
  match fuel with
  | 0 => None
  | S fuel' =>
      match scan_once fuel' s with
      | None => None
      | Some (value, s1) =>
          let values := values ++ [value] in
          match skip_ws s1 with
          | String c s2 =>
              if (c =? "]")%char then Some (JArr values, s2)
              else if (c =? ",")%char then array_items fuel' (skip_ws s2) values
              else None
          | EmptyString => None
          end
      end
  end.

(** [json.loads(s)] for a text [within_limits]; [None] is
    [json.JSONDecodeError].  Every call of the descent follows at least one
    consumed character within two steps, so the fuel is never what ends it
    ([json_loads_fuel]). *)
Definition json_loads (s : string) : option json :=
  match scan_once (2 * String.length s + 2) (skip_ws s) with
  | Some (v, rest) =>
      match skip_ws rest with
      | EmptyString => Some v
      | String _ _ => None
      end
  | None => None
  end.

(** No escape of [s] denotes a code point above U+00FF: wherever a
    backslash and the letter u are followed by four hexadecimal digits,
    their value is below 256. *)
Definition escape_in_alphabet (s : string) : bool :=
  match s with
  | String c (String u (String h1 (String h2 (String h3 (String h4 _))))) =>
      if (c =? backslash)%char && (u =? "u")%char then
        match hex4 h1 h2 h3 h4 with
        | Some n => n <? 256
        | None => true
        end
      else true
  | _ => true
  end.

Fixpoint escapes_in_alphabet (s : string) : bool :=
  match s with
  | EmptyString => true
  | String _ s' => escape_in_alphabet s && escapes_in_alphabet s'
  end.

(** The longest run of decimal digits in [s], [run] digits having been
    read just before it.  The decoder converts an integer literal with
    [int]; above [sys.int_max_str_digits] digits, 4300 unless it is set,
    [int] raises [ValueError]. *)
Fixpoint digit_run (s : string) (run : nat) : nat :=
  match s with
  | EmptyString => run
  | String c s' =>
      if is_digit c then digit_run s' (S run)
      else Nat.max run (digit_run s' 0)
  end.

Definition int_max_str_digits : nat := 4300.

(** The deepest nesting of brackets and braces in [s] as a reading from
    the left sees it, what is between double quotes left aside; [depth]
    is the nesting at the start of [s].  The descent of the decoder calls
    itself once for each level. *)
Fixpoint nesting (s : string) (depth : nat) (in_string escape_next : bool)
    : nat :=
  match s with
  | EmptyString => depth
  | String c s' =>
      if escape_next then nesting s' depth in_string false
      else if in_string then
        if (c =? backslash)%char then nesting s' depth true true
        else if (c =? dquote)%char then nesting s' depth false false
        else nesting s' depth true false
      else if (c =? dquote)%char then nesting s' depth true false
      else if (c =? "{")%char || (c =? "[")%char then
        Nat.max (S depth) (nesting s' (S depth) false false)
      else if (c =? "}")%char || (c =? "]")%char then
        Nat.max depth (nesting s' (depth - 1) false false)
      else nesting s' depth false false
  end.

(** A nesting that leaves the recursion limit of the interpreter, 1000
    frames unless it is set, out of reach. *)
Definition nesting_allowed : nat := 100.

(** The texts on which the model follows [json.loads]. *)
Definition within_limits (s : string) : bool :=
  escapes_in_alphabet s
  && (digit_run s 0 <=? int_max_str_digits)
  && (nesting s 0 false false <=? nesting_allowed).

Definition hex_digit (n : nat) : ascii :=
  if n <? 10 then ascii_of_nat (48 + n) else ascii_of_nat (87 + n).

(** One character of a string literal as the encoder writes it
    ([ensure_ascii] is on). *)
Definition escape_char (c : ascii) : string :=
  if (c =? dquote)%char then String backslash (String dquote EmptyString)
  else if (c =? backslash)%char then String backslash (String backslash EmptyString)
  else if (c =? newline)%char then String backslash "n"
  else if (c =? carriage_return)%char then String backslash "r"
  else if (c =? "009")%char then String backslash "t"
  else if (c =? "008")%char then String backslash "b"
  else if (c =? "012")%char then String backslash "f"
  else if in_range 32 126 c then String c EmptyString
  else String backslash
         (String "u" (String "0" (String "0"
            (String (hex_digit (code c / 16))
               (String (hex_digit (code c mod 16)) EmptyString))))).

Fixpoint escape_string (s : string) : string :=
  match s with
  | EmptyString => EmptyString
  | String c s' => escape_char c +:+ escape_string s'
  end.

Definition encode_string (s : string) : string :=
  String dquote (escape_string s) +:+ String dquote EmptyString.

Fixpoint spaces (n : nat) : string :=
  match n with
  | 0 => EmptyString
  | S n' => String " " (spaces n')
  end.

Definition newline_indent (level : nat) : string :=
  String newline (spaces (2 * level)).

(** [json.dumps(v, indent=2)] at nesting depth [level]. *)
Fixpoint json_dump (level : nat) (v : json) : string :=
  match v with
  | JNull => "null"
  | JBool true => "true"
  | JBool false => "false"
  | JNum literal => literal
  | JStr s => encode_string s
  | JArr [] => "[]"
  | JArr items =>
      "[" +:+ newline_indent (S level)
      +:+ String.concat ("," +:+ newline_indent (S level))
            (map (json_dump (S level)) items)
      +:+ newline_indent level +:+ "]"
  | JObj [] => "{}"
  | JObj members =>
      "{" +:+ newline_indent (S level)
      +:+ String.concat ("," +:+ newline_indent (S level))
            (map (fun kv : string * json =>
                    encode_string (fst kv) +:+ ": " +:+ json_dump (S level) (snd kv))
               members)
      +:+ newline_indent level +:+ "}"
  end.

Definition json_dumps (v : json) : string := json_dump 0 v.

(** ** The record scanner: [parse_scripts_from_text] *)

(** The candidate start: an opening brace followed by a double quote. *)
Definition record_open : string := String "{" (String dquote EmptyString).

Definition lookahead : nat := 5000.

(** The inner [for] loop over [enumerate(text[start:], start)]: [rest] is
    the text from offset [i] on.  The result is the value given to [end]
    at the [break]; [None] when the loop runs off the text, [end] staying
    [start]. *)
Fixpoint brace_scan (rest : string) (i : nat) (brace_count : Z)
    (in_string escape_next : bool) : option nat :=
  match rest with
  | EmptyString => None
  | String c rest' =>
      if escape_next then brace_scan rest' (S i) brace_count in_string false
      else if (c =? backslash)%char then
        brace_scan rest' (S i) brace_count in_string true
      else if (c =? dquote)%char then
        brace_scan rest' (S i) brace_count (negb in_string) false
      else if in_string then brace_scan rest' (S i) brace_count in_string false
      else if (c =? "{")%char then
        brace_scan rest' (S i) (brace_count + 1)%Z in_string false
      else if (c =? "}")%char then
        let brace_count := (brace_count - 1)%Z in
        if (brace_count =? 0)%Z then Some (S i)
        else brace_scan rest' (S i) brace_count in_string false
      else brace_scan rest' (S i) brace_count in_string false
  end.

Definition record_end (text : string) (start : nat) : nat :=
  match brace_scan (str_drop start text) start 0%Z false false with
  | Some e => e
  | None => start
  end.

(** The scripts of one decoded record: the members whose value is a string
    that holds the sentinel. *)
Definition harvest_member (found : list (string * string))
    (member : string * json) : list (string * string) :=
  match snd member with
  | JStr script =>
      if str_contains begin_marker script
      then dict_set (fst member) script found
      else found
  | _ => found
  end.

Definition harvest (data : json) (found : list (string * string))
    : list (string * string) :=
  match data with
  | JObj members => fold_left harvest_member members found
  | _ => found
  end.

(** One turn of the [while True] loop from search index [idx]: [None] is
    the [break]; otherwise the candidate start, the next search index and
    the mapping found so far. *)
Definition scan_iteration (text : string) (idx : nat)
    (found : list (string * string))
    : option (nat * nat * list (string * string)) :=
  match str_find record_open text idx with
  | None => None
  | Some start =>
      if negb (str_contains begin_marker
                 (str_slice start (start + lookahead) text))
      then Some (start, start + 1, found)
      else
        let end_ := record_end text start in
        if start <? end_ then
          let json_str := str_slice start end_ text in
          let found :=
            match json_loads json_str with
            | Some data => harvest data found
            | None => found
            end in
          Some (start, end_, found)
        else Some (start, start + 1, found)
  end.

(** The loop, with the turns it may take bounded by [fuel]; beside the
    mapping it returns the log of its turns, each a candidate start and the
    search index the turn leaves. *)
Fixpoint scan_loop (fuel : nat) (text : string) (idx : nat)
    (found : list (string * string))
    : option (list (string * string) * list (nat * nat)) :=
  match fuel with
  | 0 => None
  | S fuel' =>
      match scan_iteration text idx found with
      | None => Some (found, [])
      | Some (start, idx', found') =>
          (fun r : list (string * string) * list (nat * nat) =>
             (fst r, (start, idx') :: snd r))
            <$> scan_loop fuel' text idx' found'
      end
  end.

Definition scan_fuel (text : string) : nat := S (String.length text).

Definition parse_scripts_from_text (text : string)
    : option (list (string * string)) :=
  fst <$> scan_loop (scan_fuel text) text 0 [].

(** ** Effects: the output directory, the clock and exceptions *)

Inductive exn : Type :=
  | AttributeError
  | KeyError
  | TypeError
  | FileNotFoundError
  | RuntimeError.

Inductive outcome (A : Type) : Type :=
  | Ok (a : A)
  | Raise (e : exn).

Arguments Ok {A} a.
Arguments Raise {A} e.

#[global] Instance outcome_ret : MRet outcome := fun A a => Ok a.
#[global] Instance outcome_bind : MBind outcome := fun A B f m =>
  match m with
  | Ok a => f a
  | Raise e => Raise e
  end.

(** The files of the output directory, by name, and the clock. *)
Record world : Type := World {
  files : gmap string string;
  clock : nat
}.

(** A computation with effects: it may fail, and it changes the world
    either way. *)
Definition M (A : Type) : Type := world -> outcome A * world.

#[global] Instance M_ret : MRet M := fun A a w => (Ok a, w).
#[global] Instance M_bind : MBind M := fun A B f m w =>
  match m w with
  | (Ok a, w') => f a w'
  | (Raise e, w') => (Raise e, w')
  end.

Definition lift {A : Type} (r : outcome A) : M A := fun w => (r, w).

(** Text files are opened with the default [newline=None]: reading turns
    every line ending into a line feed; writing on the platform of the tool
    leaves the text as it is. *)
Fixpoint universal_newlines (s : string) : string :=
  match s with
  | EmptyString => EmptyString
  | String c s' =>
      if (c =? carriage_return)%char then
        match s' with
        | String d s'' =>
            if (d =? newline)%char then String newline (universal_newlines s'')
            else String newline (universal_newlines s')
        | EmptyString => String newline EmptyString
        end
      else String c (universal_newlines s')
  end.

Definition path_exists (name : string) : M bool := fun w =>
  (Ok (bool_decide (is_Some (files w !! name))), w).

Definition read_text (name : string) : M string := fun w =>
  match files w !! name with
  | Some content => (Ok (universal_newlines content), w)
  | None => (Raise FileNotFoundError, w)
  end.

Definition write_text (name content : string) : M unit := fun w =>
  (Ok tt, World (<[name := content]> (files w)) (clock w)).

(** The file [name], when the directory has it, reads as a text within
    the limits of the decoder's model. *)
Definition file_within_limits (fs : gmap string string) (name : string) : bool :=
  match fs !! name with
  | Some content => within_limits (universal_newlines content)
  | None => true
  end.

(** A left fold of a computation over a list: the [for] loops. *)
Fixpoint foldM {A B : Type} (f : B -> A -> M B) (l : list A) (acc : B) : M B :=
  match l with
  | [] => mret acc
  | x :: l' => acc' ← f acc x; foldM f l' acc'
  end.

Fixpoint fold_outcome {A B : Type} (f : B -> A -> outcome B) (l : list A)
    (acc : B) : outcome B :=
  match l with
  | [] => Ok acc
  | x :: l' => acc' ← f acc x; fold_outcome f l' acc'
  end.

Fixpoint map_outcome {A B : Type} (f : A -> outcome B) (l : list A)
    : outcome (list B) :=
  match l with
  | [] => Ok []
  | x :: l' => y ← f x; ys ← map_outcome f l'; Ok (y :: ys)
  end.

(** ** Python operations on decoded JSON values *)

(** [obj.get(key, default)] *)
Definition py_get (obj : json) (key : string) (default : json) : outcome json :=
  match obj with
  | JObj members =>
      Ok match dict_get key members with Some v => v | None => default end
  | _ => Raise AttributeError
  end.

(** [obj[key]] for a [str] key. *)
Definition py_getitem (obj : json) (key : string) : outcome json :=
  match obj with
  | JObj members =>
      match dict_get key members with
      | Some v => Ok v
      | None => Raise KeyError
      end
  | _ => Raise TypeError
  end.

(** [obj[key] = value] for a [str] key. *)
Definition py_setitem (obj : json) (key : string) (value : json) : outcome json :=
  match obj with
  | JObj members => Ok (JObj (dict_set key value members))
  | _ => Raise TypeError
  end.

(** The items a [for] over the value visits. *)
Definition py_iter (obj : json) : outcome (list json) :=
  match obj with
  | JArr items => Ok items
  | JObj members => Ok (map (fun kv : string * json => JStr (fst kv)) members)
  | JStr s => Ok (map (fun c => JStr (String c EmptyString)) (list_ascii_of_string s))
  | _ => Raise TypeError
  end.

(** [obj.append(value)] *)
Definition py_append (obj value : json) : outcome json :=
  match obj with
  | JArr items => Ok (JArr (items ++ [value]))
  | _ => Raise AttributeError
  end.

(** Lists and dicts cannot be members of a set. *)
Definition py_hashable (v : json) : outcome unit :=
  match v with
  | JArr _ | JObj _ => Raise TypeError
  | _ => Ok tt
  end.

(** [v == uuid] for a [str] [uuid]: only an equal [str] is equal to it. *)
Definition is_uuid (uuid : string) (v : json) : bool :=
  match v with
  | JStr s => String.eqb s uuid
  | _ => false
  end.

(** ** The export reconciler: [export_userscripts] *)

Definition manifest_name : string := "manifest.json".

Definition meta_json (v : meta_value) : json :=
  match v with
  | MStr s => JStr s
  | MList l => JArr (map JStr l)
  end.

Definition metadata_json (metadata : metadata_dict) : json :=
  JObj (map (fun kv : string * meta_value => (fst kv, meta_json (snd kv))) metadata).

(** The dict appended to [exported]. *)
Definition exported_entry (uuid name filename : string)
    (metadata : metadata_dict) (synced_at : string) : json :=
  JObj [("uuid", JStr uuid); ("name", JStr name); ("filename", JStr filename);
        ("metadata", metadata_json metadata); ("synced_at", JStr synced_at)].

(** [metadata.get('name', uuid)] *)
Definition script_name (metadata : metadata_dict) (uuid : string) : meta_value :=
  match dict_get "name" metadata with
  | Some v => v
  | None => MStr uuid
  end.

(** [slugify(name)]: a list has no [lower]. *)
Definition slugify_name (name : meta_value) : outcome (string * string) :=
  match name with
  | MStr s => Ok (s, slugify s)
  | MList _ => Raise AttributeError
  end.

(** The file a script is exported to, when its name is a string. *)
Definition script_filename (uuid script : string) : outcome string :=
  p ← slugify_name (script_name (parse_userscript_metadata script) uuid);
  Ok (snd p +:+ ".user.js").

(** The element [s['uuid']] of the set of ids. *)
Definition row_uuid (s : json) : outcome json :=
  u ← py_getitem s "uuid"; _ ← py_hashable u; Ok u.

(** [{s['uuid'] for s in manifest.get('scripts', [])}] *)
Definition existing_uuids (manifest : json) : outcome (list json) :=
  scripts ← py_get manifest "scripts" (JArr []);
  items ← py_iter scripts;
  map_outcome row_uuid items.

(** [s if s['uuid'] != exp['uuid'] else exp] *)
Definition replace_row (uuid : string) (exp s : json) : outcome json :=
  u ← py_getitem s "uuid"; Ok (if is_uuid uuid u then exp else s).

(** One turn of [for exp in exported]. *)
Definition merge_entry (existing : list json) (manifest exp : json)
    : outcome json :=
  exp_uuid ← py_getitem exp "uuid";
  match exp_uuid with
  | JStr uuid =>
      if existsb (is_uuid uuid) existing then
        scripts ← py_getitem manifest "scripts";
        items ← py_iter scripts;
        replaced ← map_outcome (replace_row uuid exp) items;
        py_setitem manifest "scripts" (JArr replaced)
      else
        scripts ← py_getitem manifest "scripts";
        scripts' ← py_append scripts exp;
        py_setitem manifest "scripts" scripts'
  | _ => Raise TypeError
  end.

Section Reconciler.

(** [datetime.isoformat] of the clock's reading. *)
Variable isoformat : nat -> string.

(** [datetime.now().isoformat()] *)
Definition now_isoformat : M string := fun w =>
  (Ok (isoformat (clock w)), World (files w) (S (clock w))).

(** The body of [for uuid, script in scripts.items()]. *)
Definition export_script (acc : list json * nat * nat)
    (item : string * string) : M (list json * nat * nat) :=
  let '(exported, added, updated) := acc in
  let '(uuid, script) := item in
  let metadata := parse_userscript_metadata script in
  p ← lift (slugify_name (script_name metadata uuid));
  let '(name, slug) := p in
  let filename := slug +:+ ".user.js" in
  present ← path_exists filename;
  let is_new := negb present in
  content_changed ←
    (if is_new then mret false
     else existing_content ← read_text filename;
          mret (negb (String.eqb existing_content script)));
  counts ←
    (if is_new || content_changed then
       _ ← write_text filename script;
       mret (if is_new then (added + 1, updated) else (added, updated + 1))
     else mret (added, updated));
  synced_at ← now_isoformat;
  mret (exported ++ [exported_entry uuid name filename metadata synced_at],
        fst counts, snd counts).

(** The manifest update under [if include_manifest and has_changes]. *)
Definition update_manifest (exported : list json) : M unit :=
  created ← now_isoformat;
  let fresh := JObj [("scripts", JArr []); ("last_updated", JStr created)] in
  present ← path_exists manifest_name;
  manifest ←
    (if present : bool then
       content ← read_text manifest_name;
       mret match json_loads content with
            | Some loaded => loaded
            | None => fresh
            end
     else mret fresh);
  existing ← lift (existing_uuids manifest);
  manifest ← lift (fold_outcome (merge_entry existing) exported manifest);
  last_updated ← now_isoformat;
  manifest ← lift (py_setitem manifest "last_updated" (JStr last_updated));
  write_text manifest_name (json_dumps manifest).

(** [export_userscripts(scripts, output_dir, include_manifest)]: the
    result is [(exported, added, updated, removed)]. *)
Definition export_userscripts (scripts : list (string * string))
    (include_manifest : bool) : M (list json * nat * nat * nat) :=
  r ← foldM export_script scripts ([], 0, 0);
  let '(exported, added, updated) := r in
  let removed := 0 in
  let has_changes := (0 <? added) || (0 <? updated) || (0 <? removed) in
  _ ← (if include_manifest && has_changes then update_manifest exported
       else mret tt);
  mret (exported, added, updated, removed).

End Reconciler.

(** A clock for the examples. *)
Definition tick_format (n : nat) : string :=
  "T" +:+ String (ascii_of_nat (48 + n)) EmptyString.

Definition empty_world : world := World ∅ 0.

(** ** The reconciler's steps in closed form

    What one turn of the export loop and the manifest update do to the
    world, as plain expressions; the properties below prove that the
    monadic code computes them. *)

Definition export_script_result (isoformat : nat -> string)
    (acc : list json * nat * nat) (item : string * string) (w : world)
    : outcome (list json * nat * nat) * world :=
  let '(exported, added, updated) := acc in
  let '(uuid, script) := item in
  let metadata := parse_userscript_metadata script in
  match slugify_name (script_name metadata uuid) with
  | Raise e => (Raise e, w)
  | Ok (name, slug) =>
      let filename := slug +:+ ".user.js" in
      let exported' :=
        exported ++ [exported_entry uuid name filename metadata
                       (isoformat (clock w))] in
      match files w !! filename with
      | None =>
          (Ok (exported', added + 1, updated),
           World (<[filename := script]> (files w)) (S (clock w)))
      | Some content =>
          if String.eqb (universal_newlines content) script
          then (Ok (exported', added, updated), World (files w) (S (clock w)))
          else (Ok (exported', added, updated + 1),
                World (<[filename := script]> (files w)) (S (clock w)))
      end
  end.

(** The manifest the update starts from. *)
Definition loaded_manifest (created : string) (fs : gmap string string) : json :=
  let fresh := JObj [("scripts", JArr []); ("last_updated", JStr created)] in
  match fs !! manifest_name with
  | Some content =>
      match json_loads (universal_newlines content) with
      | Some loaded => loaded
      | None => fresh
      end
  | None => fresh
  end.

(** The manifest after the merge of the exported entries. *)
Definition merged_manifest (exported : list json) (manifest : json)
    : outcome json :=
  existing ← existing_uuids manifest;
  fold_outcome (merge_entry existing) exported manifest.

Definition update_manifest_result (isoformat : nat -> string)
    (exported : list json) (w : world) : outcome unit * world :=
  let manifest := loaded_manifest (isoformat (clock w)) (files w) in
  match merged_manifest exported manifest with
  | Raise e => (Raise e, World (files w) (S (clock w)))
  | Ok merged =>
      match py_setitem merged "last_updated" (JStr (isoformat (S (clock w)))) with
      | Raise e => (Raise e, World (files w) (S (S (clock w))))
      | Ok final =>
          (Ok tt, World (<[manifest_name := json_dumps final]> (files w))
                    (S (S (clock w))))
      end
  end.

(** Every file of [w] is a file of [w']. *)
Definition files_kept (w w' : world) : Prop :=
  forall name, is_Some (files w !! name) -> is_Some (files w' !! name).

(** ** Data of the examples *)

(** The script of the specification's end-to-end scenario. *)
Definition foo_bar_script : string :=
  "// ==UserScript==" +:+ String newline "// @name Foo Bar"
  +:+ String newline "// ==/UserScript==" +:+ String newline "console.log(1)".

(** A second script that declares the same name. *)
Definition foo_bar_script' : string :=
  "// ==UserScript==" +:+ String newline "// @name Foo Bar"
  +:+ String newline "// ==/UserScript==" +:+ String newline "console.log(2)".

Definition foo_bar_entry (synced_at : string) : json :=
  exported_entry "id1" "Foo Bar" "foo-bar.user.js" [("name", MStr "Foo Bar")]
    synced_at.

(** The log of a scan from search index [idx]: every turn finds its
    candidate at or after the index it starts from and leaves a strictly
    larger index. *)
Fixpoint steps_advance (idx : nat) (log : list (nat * nat)) : Prop :=
  match log with
  | [] => True
  | (start, idx') :: log' => idx <= start /\ start < idx' /\ steps_advance idx' log'
  end.

(** A candidate at [start] that the scanner passes over without a result:
    it lacks the sentinel within the lookahead, or its braces never close,
    or they close at or before [limit] and the delimited text, which is
    within the limits of the decoder's model, does not decode. *)
Definition candidate_skipped (text : string) (start limit : nat) : bool :=
  negb (str_contains begin_marker (str_slice start (start + lookahead) text))
  || let end_ := record_end text start in
     negb (start <? end_)
     || ((end_ <=? limit)
         && within_limits (str_slice start end_ text)
         && match json_loads (str_slice start end_ text) with
            | None => true
            | Some _ => false
            end).

(** Every candidate of [text] that starts in [lo, hi) is passed over. *)
Definition fragment_skipped (text : string) (lo hi limit : nat) : bool :=
  forallb
    (fun start =>
       negb (starts_with record_open (str_drop start text))
       || candidate_skipped text start limit)
    (seq lo (hi - lo)).

(** The counts a run reports, when it returns. *)
Definition run_counts (run : outcome (list json * nat * nat * nat) * world)
    : option (nat * nat * nat) :=
  match fst run with
  | Ok (_, added, updated, removed) => Some (added, updated, removed)
  | Raise _ => None
  end.

(** The script is on disk under its file name, as a reader of the file
    sees it. *)
Definition exported_now (fs : gmap string string) (item : string * string)
    : Prop :=
  exists name content,
    script_filename (fst item) (snd item) = Ok name
    /\ fs !! name = Some content
    /\ universal_newlines content = snd item.

(** ** The manifest merge in closed form *)

(** The entry the loop appends for a script when the clock reads [t]. *)
Definition entry_at (isoformat : nat -> string) (t : nat)
    (item : string * string) : outcome json :=
  let metadata := parse_userscript_metadata (snd item) in
  p ← slugify_name (script_name metadata (fst item));
  Ok (exported_entry (fst item) (fst p) (snd p +:+ ".user.js") metadata
        (isoformat t)).

(** The entries of a whole input, the clock advancing by one per script. *)
Fixpoint entries_from (isoformat : nat -> string) (t : nat)
    (scripts : list (string * string)) : outcome (list json) :=
  match scripts with
  | [] => Ok []
  | item :: rest =>
      e ← entry_at isoformat t item;
      es ← entries_from isoformat (S t) rest;
      Ok (e :: es)
  end.

(** The row's [uuid] is the string [uuid]. *)
Definition row_has_uuid (uuid : string) (row : json) : bool :=
  match py_getitem row "uuid" with
  | Ok v => is_uuid uuid v
  | Raise _ => false
  end.

(** The rows of the manifest after the merge of one entry: replaced where
    the id is among the ids the manifest had, appended otherwise. *)
Definition merge_rows (existing rows : list json) (uuid : string) (exp : json)
    : list json :=
  if existsb (is_uuid uuid) existing
  then map (fun s => if row_has_uuid uuid s then exp else s) rows
  else rows ++ [exp].

Definition merge_row (existing rows : list json) (exp : json) : list json :=
  match py_getitem exp "uuid" with
  | Ok (JStr uuid) => merge_rows existing rows uuid exp
  | _ => rows
  end.

Definition has_uuid (row : json) : Prop :=
  exists v, py_getitem row "uuid" = Ok v.

Definition has_str_uuid (row : json) : Prop :=
  exists uuid, py_getitem row "uuid" = Ok (JStr uuid).

(** A script with another name, and its entry. *)
Definition baz_script : string :=
  "// ==UserScript==" +:+ String newline "// @name Baz"
  +:+ String newline "// ==/UserScript==" +:+ String newline "console.log(3)".

Definition baz_entry (synced_at : string) : json :=
  exported_entry "id2" "Baz" "baz.user.js" [("name", MStr "Baz")] synced_at.

(** A manifest row written by an earlier run. *)
Definition old_row (uuid : string) : json :=
  JObj [("uuid", JStr uuid); ("name", JStr "Old"); ("synced_at", JStr "T")].

(** An output directory in which [id1] is exported and listed, [id0] is
    listed, and [id2] is unknown. *)
Definition listed_world : world :=
  World {[ "foo-bar.user.js" := foo_bar_script;
           manifest_name :=
             json_dumps (JObj [("scripts", JArr [old_row "id1"; old_row "id0"]);
                               ("last_updated", JStr "T")]) ]} 0.

(** The inner loop once more, returning the text after the closing brace
    instead of its offset. *)
Fixpoint brace_rest (rest : string) (brace_count : Z)
    (in_string escape_next : bool) : option string :=
  match rest with
  | EmptyString => None
  | String c rest' =>
      if escape_next then brace_rest rest' brace_count in_string false
      else if (c =? backslash)%char then brace_rest rest' brace_count in_string true
      else if (c =? dquote)%char then
        brace_rest rest' brace_count (negb in_string) false
      else if in_string then brace_rest rest' brace_count in_string false
      else if (c =? "{")%char then
        brace_rest rest' (brace_count + 1)%Z in_string false
      else if (c =? "}")%char then
        let brace_count := (brace_count - 1)%Z in
        if (brace_count =? 0)%Z then Some rest'
        else brace_rest rest' brace_count in_string false
      else brace_rest rest' brace_count in_string false
  end.

(** A character that changes nothing in the state of the inner loop
    outside a string. *)
Definition plain (c : ascii) : bool :=
  negb ((c =? backslash)%char || (c =? dquote)%char
        || (c =? "{")%char || (c =? "}")%char).

Fixpoint all_plain (s : string) : bool :=
  match s with
  | EmptyString => true
  | String c s' => plain c && all_plain s'
  end.

(** The last character of a text. *)
Fixpoint str_last (s : string) : option ascii :=
  match s with
  | EmptyString => None
  | String c EmptyString => Some c
  | String _ s' => str_last s'
  end.



(** ** Values the encoder writes and the decoder reads back *)

(** A number literal: the decoder's number pattern matches all of it, or
    it is one of the three constants the decoder accepts. *)
Definition number_literal (lit : string) : bool :=
  match match_number lit with
  | Some (_, EmptyString) => true
  | _ => String.eqb lit "NaN" || String.eqb lit "Infinity"
         || String.eqb lit "-Infinity"
  end.

Fixpoint distinct_keys (keys : list string) : bool :=
  match keys with
  | [] => true
  | k :: keys' => negb (existsb (String.eqb k) keys') && distinct_keys keys'
  end.

(** A value as the decoder builds it: the numbers are number literals and
    the keys of an object are distinct, as those of a [dict] are. *)
Fixpoint json_wf (v : json) : bool :=
  match v with
  | JNum literal => number_literal literal
  | JArr items => forallb json_wf items
  | JObj members =>
      distinct_keys (map fst members)
      && forallb (fun kv : string * json => json_wf (snd kv)) members
  | _ => true
  end.

(** What may follow a value in the encoder's output: nothing, a comma or a
    line break. *)
Definition value_end (rest : string) : bool :=
  match rest with
  | EmptyString => true
  | String c _ => (c =? ",")%char || (c =? newline)%char
  end.

(** The text after a run of characters of a class does not go on with one
    more. *)
Definition head_not (cls : ascii -> bool) (rest : string) : bool :=
  match rest with
  | EmptyString => true
  | String c _ => negb (cls c)
  end.

(** A parse result with [rest] put after the text it leaves. *)
Definition followed_by (rest : string) (p : string * string) : string * string :=
  (fst p, snd p +:+ rest).

(** The decoder, given enough fuel, reads the value back from its text at
    any nesting depth, whatever follows the value. *)
Definition reads_back (v : json) : Prop :=
  forall level rest, value_end rest = true ->
    exists fuel0, forall fuel, fuel0 <= fuel ->
      scan_once fuel (json_dump level v +:+ rest) = Some (v, rest).

(** The text of one member of an object at depth [level]. *)
Definition member_text (level : nat) (kv : string * json) : string :=
  encode_string (fst kv) +:+ ": " +:+ json_dump level (snd kv).

Definition separator (level : nat) : string := "," +:+ newline_indent level.

(** Induction on a value, with the property known of the items of an array
    and of the member values of an object. *)
Section JsonInduction.

Variable P : json -> Prop.
Hypothesis P_null : P JNull.
Hypothesis P_bool : forall b, P (JBool b).
Hypothesis P_num : forall literal, P (JNum literal).
Hypothesis P_str : forall s, P (JStr s).
Hypothesis P_arr : forall items, Forall P items -> P (JArr items).
Hypothesis P_obj :
  forall members, Forall (fun kv : string * json => P (snd kv)) members ->
    P (JObj members).

Fixpoint json_induction (v : json) : P v :=
  match v with
  | JNull => P_null
  | JBool b => P_bool b
  | JNum literal => P_num literal
  | JStr s => P_str s
  | JArr items =>
      P_arr items
        ((fix go (l : list json) : Forall P l :=
            match l with
            | [] => @List.Forall_nil _ _
            | x :: l' => @List.Forall_cons _ _ x l' (json_induction x) (go l')
            end) items)
  | JObj members =>
      P_obj members
        ((fix go (l : list (string * json))
            : Forall (fun kv : string * json => P (snd kv)) l :=
            match l with
            | [] => @List.Forall_nil _ _
            | kv :: l' =>
                @List.Forall_cons _ _ kv l' (json_induction (snd kv)) (go l')
            end) members)
  end.

End JsonInduction.


(** ** The shape of a slug *)

Fixpoint str_all (p : ascii -> bool) (s : string) : bool :=
  match s with
  | EmptyString => true
  | String c s' => p c && str_all p s'
  end.

Definition str_head (s : string) : option ascii :=
  match s with
  | EmptyString => None
  | String c _ => Some c
  end.

(** A character a slug is made of: a word character that [str.lower]
    leaves as it is, or a hyphen. *)
Definition slug_char (c : ascii) : bool :=
  (is_word c && (lower_char c =? c)%char) || is_hyphen c.

Fixpoint no_adjacent_hyphens (s : string) : bool :=
  match s with
  | String a ((String b _) as s') =>
      negb (is_hyphen a && is_hyphen b) && no_adjacent_hyphens s'
  | _ => true
  end.

Definition is_hyphen_at (o : option ascii) : bool :=
  match o with
  | Some c => is_hyphen c
  | None => false
  end.

(** Slug characters only, no hyphen at either end, no two hyphens in a
    row. *)
Definition is_slug (s : string) : bool :=
  str_all slug_char s && no_adjacent_hyphens s
  && negb (is_hyphen_at (str_head s)) && negb (is_hyphen_at (str_last s)).


(** ** What the scanner can return *)

(** The candidate at [start] does not have the sentinel within the
    lookahead. *)
Definition candidate_blind (text : string) (start : nat) : bool :=
  negb (str_contains begin_marker (str_slice start (start + lookahead) text)).

(** No candidate start of [text] has the sentinel within the lookahead. *)
Definition all_candidates_blind (text : string) : bool :=
  forallb
    (fun start =>
       negb (starts_with record_open (str_drop start text))
       || candidate_blind text start)
    (seq 0 (String.length text)).

(** A record whose only script text starts with [padding] spaces. *)
Definition padded_record (padding : nat) : string :=
  dq "{'id':'" +:+ spaces padding +:+ dq "// ==UserScript=='}".


(** ** What a run leaves on disk, and how it counts *)

(** The script is on disk under its file name: the file holds its text, or
    a text that reads as it. *)
Definition on_disk (fs : gmap string string) (item : string * string) : Prop :=
  exists name content,
    script_filename (fst item) (snd item) = Ok name
    /\ fs !! name = Some content
    /\ (content = snd item \/ universal_newlines content = snd item).

(** The script has no file yet. *)
Definition is_added (fs : gmap string string) (item : string * string) : bool :=
  match script_filename (fst item) (snd item) with
  | Ok name =>
      match fs !! name with
      | None => true
      | Some _ => false
      end
  | Raise _ => false
  end.

(** The script has a file that reads as another text. *)
Definition is_updated (fs : gmap string string) (item : string * string) : bool :=
  match script_filename (fst item) (snd item) with
  | Ok name =>
      match fs !! name with
      | None => false
      | Some content => negb (String.eqb (universal_newlines content) (snd item))
      end
  | Raise _ => false
  end.

(** A script whose header declares its name twice. *)
Definition twice_named_script : string :=
  "// ==UserScript==" +:+ String newline "// @name One"
  +:+ String newline "// @name Two"
  +:+ String newline "// ==/UserScript==".


(** ** Manifests the reconciler can merge into *)

(** A character of the encoder's output: printable ASCII or a line feed. *)
Definition is_ascii_text (c : ascii) : bool :=
  in_range 32 126 c || (c =? newline)%char.

(** A row the merge can work on: it has a hashable [uuid]. *)
Definition row_ok (row : json) : bool :=
  match row_uuid row with
  | Ok _ => true
  | Raise _ => false
  end.

(** A manifest the merge can work on: an object whose [scripts] is a list
    of such rows. *)
Definition manifest_ok (manifest : json) : bool :=
  match manifest with
  | JObj members =>
      match dict_get "scripts" members with
      | Some (JArr rows) => forallb row_ok rows
      | _ => false
      end
  | _ => false
  end.

(** ** The copy to the destination: [copy_to_destination]

    The output directory and the destination directory are two directories,
    each a finite map from file names to the text of the file. *)

(** [s.endswith(suffix)] *)
Definition ends_with (suffix s : string) : bool :=
  (String.length suffix <=? String.length s)
  && String.eqb (str_drop (String.length s - String.length suffix) s) suffix.

(** The pattern [*.user.js]. *)
Definition is_user_js (name : string) : bool := ends_with ".user.js" name.

(** [output_dir.glob] with the pattern [*.user.js]: the matching files, each with the text
    it holds; the directory lists them in an order of its own. *)
Definition glob_user_js (out : gmap string string) : list (string * string) :=
  List.filter (fun file : string * string => is_user_js (fst file))
    (map_to_list out).

Definition dest_filename (name : string) : string := "tweeks." +:+ name.

(** The body of the loop: [acc] is the destination directory with the
    counts [added], [skipped], [overwritten]. *)
Definition copy_script (acc : gmap string string * nat * nat * nat)
    (script_file : string * string) : gmap string string * nat * nat * nat :=
  let '(dest, added, skipped, overwritten) := acc in
  let '(name, source) := script_file in
  match dest !! dest_filename name with
  | Some dest_content =>
      if String.eqb (universal_newlines source) (universal_newlines dest_content)
      then (dest, added, skipped + 1, overwritten)
      else (<[dest_filename name := source]> dest, added, skipped,
            overwritten + 1)
  | None => (<[dest_filename name := source]> dest, added + 1, skipped,
             overwritten)
  end.

(** [copy_to_destination(output_dir, dest_dir)]: the destination directory
    after the copy and the counts the function prints. *)
Definition copy_to_destination (out dest : gmap string string)
    : gmap string string * nat * nat * nat :=
  fold_left copy_script (glob_user_js out) (dest, 0, 0, 0).

(** An output directory and a destination for the examples. *)
Definition two_scripts_out : gmap string string :=
  {[ "foo-bar.user.js" := foo_bar_script; "baz.user.js" := baz_script;
     manifest_name := "{}" ]}.

Definition stale_dest : gmap string string :=
  {[ "tweeks.foo-bar.user.js" := foo_bar_script'; "notes.txt" := "mine" ]}.


(** ** The configuration file: [load_config], [save_config] and
    [get_destination_dir]

    The world of these functions is the configuration directory, with the
    one file [CONFIG_FILE]. *)

Definition config_name : string := "config.json".

(** [item in obj] for a [str] item: a key of a dict, an element of a list,
    a part of a string. *)
Definition py_in (item : string) (obj : json) : outcome bool :=
  match obj with
  | JObj members =>
      Ok match dict_get item members with Some _ => true | None => false end
  | JArr items => Ok (existsb (is_uuid item) items)
  | JStr s => Ok (str_contains item s)
  | _ => Raise TypeError
  end.

Definition load_config : M json :=
  present ← path_exists config_name;
  if present : bool then
    content ← read_text config_name;
    mret match json_loads content with
         | Some config => config
         | None => JObj []
         end
  else mret (JObj []).

Definition save_config (config : json) : M unit :=
  write_text config_name (json_dumps config).

Section Destination.

(** [Path(s)] and [p.expanduser()], each given by the text of the path:
    [Path s] is [str(Path(s))].  [expanduser] raises [RuntimeError] when
    the home directory the path names cannot be determined, as for a user
    that does not exist: that is [None]. *)
Variable Path : string -> string.
Variable expanduser : string -> option string.

(** [get_destination_dir(dest_flag)]; [response_line] is the line [input]
    returns when the function asks. *)
Definition get_destination_dir (dest_flag : option string)
    (response_line : string) : M (option string) :=
  config ← load_config;
  match dest_flag with
  | Some flag =>
      config ← lift (py_setitem config "destination" (JStr flag));
      _ ← save_config config;
      mret (Some flag)
  | None =>
      known ← lift (py_in "destination" config);
      if known : bool then
        destination ← lift (py_getitem config "destination");
        match destination with
        | JNull => mret None
        | JStr s => mret (Some (Path s))
        | _ => lift (Raise TypeError)
        end
      else
        let response := strip is_space response_line in
        if negb (String.eqb response "") then
          dest ← lift match expanduser (Path response) with
                      | Some dest => Ok dest
                      | None => Raise RuntimeError
                      end;
          config ← lift (py_setitem config "destination" (JStr dest));
          _ ← save_config config;
          mret (Some dest)
        else
          config ← lift (py_setitem config "destination" JNull);
          _ ← save_config config;
          mret None
  end.

End Destination.

(** The configuration [load_config] returns. *)
Definition loaded_config (fs : gmap string string) : json :=
  match fs !! config_name with
  | Some content =>
      match json_loads (universal_newlines content) with
      | Some config => config
      | None => JObj []
      end
  | None => JObj []
  end.

(** [PurePosixPath]: the text of the path a text denotes.  Two leading
    slashes are kept, any other number of them is one; empty components
    and single dots are dropped. *)
Fixpoint join_path (parts : list string) : string :=
  match parts with
  | [] => EmptyString
  | [p] => p
  | p :: parts' => p +:+ "/" +:+ join_path parts'
  end.

Definition path_root (s : string) : string :=
  match s with
  | String "/" (String "/" (String "/" _)) => "/"
  | String "/" (String "/" _) => "//"
  | String "/" _ => "/"
  | _ => EmptyString
  end.

Definition posix_path (s : string) : string :=
  let root := path_root s in
  let parts :=
    List.filter (fun p => negb (String.eqb p "" || String.eqb p "."))
      (split_on "/" s) in
  match root, parts with
  | EmptyString, [] => "."
  | _, _ => root +:+ join_path parts
  end.

(** [expanduser] where the one user has the home directory [home]: a
    path that starts with the name of another user has no home to expand
    to. *)
Definition expanduser_home (home path : string) : option string :=
  match path with
  | String "~" EmptyString => Some home
  | String "~" (String "/" rest) => Some (home +:+ "/" +:+ rest)
  | String "~" _ => None
  | _ => Some path
  end.

(** [get_destination_dir] in closed form. *)
Definition save_destination (w : world) (config destination : json)
    (result : option string) : outcome (option string) * world :=
  match py_setitem config "destination" destination with
  | Ok config' =>
      (Ok result,
       World (<[config_name := json_dumps config']> (files w)) (clock w))
  | Raise e => (Raise e, w)
  end.

Definition get_destination_dir_result (Path : string -> string)
    (expanduser : string -> option string)
    (dest_flag : option string) (response_line : string) (w : world)
    : outcome (option string) * world :=
  let config := loaded_config (files w) in
  match dest_flag with
  | Some flag => save_destination w config (JStr flag) (Some flag)
  | None =>
      match py_in "destination" config with
      | Raise e => (Raise e, w)
      | Ok true =>
          match py_getitem config "destination" with
          | Ok JNull => (Ok None, w)
          | Ok (JStr s) => (Ok (Some (Path s)), w)
          | Ok _ => (Raise TypeError, w)
          | Raise e => (Raise e, w)
          end
      | Ok false =>
          let response := strip is_space response_line in
          if negb (String.eqb response "") then
            match expanduser (Path response) with
            | Some dest => save_destination w config (JStr dest) (Some dest)
            | None => (Raise RuntimeError, w)
            end
          else save_destination w config JNull None
      end
  end.

Definition is_object (v : json) : bool :=
  match v with
  | JObj _ => true
  | _ => false
  end.

(** A configuration directory for the examples. *)
Definition themed_config : world :=
  World {[ config_name := dq "{'theme': 'dark'}" ]} 0.


(** ** [verify_tweeks_extension]

    What the function sees of the profile: the entries of the extension's
    directory, in the order [iterdir] yields them; a directory among them
    is given with the text of its [manifest.json], when it has one. *)
Inductive dir_entry : Type :=
  | PlainFile
  | Directory (manifest : option string).

(** Whether [Tweeks] occurs in [manifest.get] of [name], with the empty
    string as the default. *)
Definition names_tweeks (manifest : json) : outcome bool :=
  name ← py_get manifest "name" (JStr "");
  py_in "Tweeks" name.

(** The loop over the version directories. *)
Fixpoint verify_versions (entries : list dir_entry) : outcome bool :=
  match entries with
  | [] => Ok false
  | Directory (Some content) :: rest =>
      match json_loads (universal_newlines content) with
      | Some manifest =>
          found ← names_tweeks manifest;
          if found : bool then Ok true else verify_versions rest
      | None => verify_versions rest
      end
  | _ :: rest => verify_versions rest
  end.

(** [verify_tweeks_extension(profile_dir)]; [None] when the extension's
    directory does not exist. *)
Definition verify_tweeks_extension (extensions_dir : option (list dir_entry))
    : outcome bool :=
  match extensions_dir with
  | None => Ok false
  | Some entries => verify_versions entries
  end.

(** What one entry contributes when the loop gets to it. *)
Definition entry_verdict (entry : dir_entry) : outcome bool :=
  match entry with
  | Directory (Some content) =>
      match json_loads (universal_newlines content) with
      | Some manifest => names_tweeks manifest
      | None => Ok false
      end
  | _ => Ok false
  end.

(** ** [extract_userscripts]

    What the function sees of the database directory: the text of each
    [*.log] file and the output of [strings] for each [*.ldb] file, in the
    order of [glob]; [None] stands for a file that could not be read. *)

(** [scripts.update(found)] *)
Definition dict_update {V : Type} (scripts found : list (string * V))
    : list (string * V) :=
  fold_left (fun d kv => dict_set (fst kv) (snd kv) d) found scripts.

(** The mapping the scanner returns for a text. *)
Definition scanned (text : string) : list (string * string) :=
  match parse_scripts_from_text text with
  | Some found => found
  | None => []
  end.

Definition read_scripts (scripts : list (string * string)) (file : option string)
    : list (string * string) :=
  match file with
  | Some text => dict_update scripts (scanned text)
  | None => scripts
  end.

Definition extract_userscripts (logs ldbs : list (option string))
    : list (string * string) :=
  match fold_left read_scripts logs [] with
  | [] => fold_left read_scripts ldbs []
  | scripts => scripts
  end.


(** ** The shape of metadata *)

Definition is_space_at (o : option ascii) : bool :=
  match o with
  | Some c => is_space c
  | None => false
  end.

(** A key of the header: one or more word characters. *)
Definition key_ok (key : string) : bool :=
  negb (String.eqb key "") && str_all is_word key.

(** A value of the header: not empty, on one line, with no whitespace at
    either end. *)
Definition value_ok (value : string) : bool :=
  negb (String.eqb value "")
  && negb (is_space_at (str_head value))
  && negb (is_space_at (str_last value))
  && str_all (fun c => negb (c =? newline)%char) value.

(** An entry of the metadata: a key with one value, or with the list of
    two values or more. *)
Definition meta_ok (entry : string * meta_value) : bool :=
  key_ok (fst entry)
  && match snd entry with
     | MStr value => value_ok value
     | MList values => (2 <=? length values) && forallb value_ok values
     end.


(** ** Waiting for Chrome to close ([ensure_chrome_closed]) *)

(** What the two subprocesses answer: whether the n-th run of [pgrep]
    finds Chrome, and whether the n-th run of [osascript] succeeds. *)
Record chrome : Type := {
  pgrep_finds : nat -> bool;
  osascript_ok : nat -> bool
}.

(** The subprocess runs made so far. *)
Record calls : Type := {
  probes : nat;
  quits : nat
}.

Definition is_chrome_running (env : chrome) (s : calls) : bool * calls :=
  (pgrep_finds env (probes s), {| probes := S (probes s); quits := quits s |}).

Definition quit_chrome (env : chrome) (s : calls) : bool * calls :=
  (osascript_ok env (quits s), {| probes := probes s; quits := S (quits s) |}).

(** [input()] raises [EOFError] when the standard input has no line left. *)
Inductive answer : Type :=
  | Returns (b : bool)
  | EOFError.

(** [for _ in range(n): time.sleep(0.5); if not is_chrome_running(): return True] *)
Fixpoint wait_closed (env : chrome) (n : nat) (s : calls) : bool * calls :=
  match n with
  | 0 => (false, s)
  | S n' =>
      let '(running, s1) := is_chrome_running env s in
      if negb running then (true, s1) else wait_closed env n' s1
  end.

(** The [while True] loop; [lines] are the lines the standard input still
    holds, without their line breaks.  The result carries the lines left.
    What the function prints is left out. *)
Fixpoint prompt_loop (env : chrome) (lines : list string) (s : calls)
  : answer * calls * list string :=
  match lines with
  | [] => (EOFError, s, [])
  | line :: rest =>
      let response := lower (strip is_space line) in
      if existsb (String.eqb response) [EmptyString; "y"; "yes"] then
        let '(ok, s1) := quit_chrome env s in
        if ok then
          let '(closed, s2) := wait_closed env 10 s1 in
          (Returns closed, s2, rest)
        else (Returns false, s1, rest)
      else if existsb (String.eqb response) ["n"; "no"] then
        (Returns false, s, rest)
      else if String.eqb response "manual" then
        match rest with
        | [] => (EOFError, s, [])
        | _ :: rest' =>
            let '(running, s1) := is_chrome_running env s in
            if negb running then (Returns true, s1, rest')
            else prompt_loop env rest' s1
        end
      else prompt_loop env rest s
  end.

Definition ensure_chrome_closed (env : chrome) (lines : list string) (s : calls)
  : answer * calls * list string :=
  let '(running, s1) := is_chrome_running env s in
  if negb running then (Returns true, s1, lines) else prompt_loop env lines s1.

(** The result of the latest run of [pgrep]. *)
Definition last_probe (env : chrome) (s : calls) : bool :=
  pgrep_finds env (probes s - 1).

(** What a call that started in [s0] leaves: [pgrep] ran, [osascript] ran
    once at most, the lines left are an end of the lines given, a returned
    value is the opposite of what the latest [pgrep] found, and
    [EOFError] leaves no line. *)
Definition closed_ok (env : chrome) (s0 : calls) (lines : list string)
    (res : answer * calls * list string) : Prop :=
  let '(r, s, rest) := res in
  probes s0 < probes s
  /\ quits s0 <= quits s <= S (quits s0)
  /\ (exists used, lines = used ++ rest)
  /\ match r with
     | Returns b => last_probe env s = negb b
     | EOFError => rest = [] /\ last_probe env s = true
     end.

(** Chrome closes at the [n]-th run of [pgrep] (counted from 0). *)
Definition chrome_closes_at (n : nat) : chrome :=
  {| pgrep_finds := fun k => k <? n; osascript_ok := fun _ => true |}.

(* ===================================================================== *)
(** * Properties *)
(* ===================================================================== *)

Example slugify_example : slugify "My Script! v2.0" = "my-script-v20".
Proof. reflexivity. Qed.

(** ** Strings as lists of characters *)

Abbreviation chars := list_ascii_of_string (only parsing).

Lemma chars_inj (s t : string) : chars s = chars t -> s = t.
Proof.
  intros H. rewrite <- (string_of_list_ascii_of_string s),
    <- (string_of_list_ascii_of_string t). now rewrite H.
Qed.

Lemma chars_app (s t : string) : chars (s +:+ t) = chars s ++ chars t.
Proof. induction s as [|c s IH]; simpl; [reflexivity | now rewrite IH]. Qed.

Lemma chars_str_map f s : chars (str_map f s) = map f (chars s).
Proof. induction s as [|c s IH]; simpl; [reflexivity | now rewrite IH]. Qed.

Lemma chars_re_sub_class_empty cls s :
  chars (re_sub_class cls "" s) = List.filter (fun c => negb (cls c)) (chars s).
Proof.
  induction s as [|c s IH]; simpl; [reflexivity|].
  destruct (cls c); cbn; now rewrite IH.
Qed.

Lemma chars_lstrip_hyphen s : chars (lstrip is_hyphen s) = drop_hyphens (chars s).
Proof.
  induction s as [|c s IH]; simpl; [reflexivity|].
  destruct (is_hyphen c); [exact IH | reflexivity].
Qed.

Lemma drop_hyphens_snoc l c :
  drop_hyphens (l ++ [c]) =
  match drop_hyphens l with
  | [] => if is_hyphen c then [] else [c]
  | r => r ++ [c]
  end.
Proof.
  induction l as [|a l IH]; simpl; [reflexivity|].
  destruct (is_hyphen a); [exact IH | reflexivity].
Qed.

Lemma chars_rstrip_hyphen s :
  chars (rstrip is_hyphen s) = rev (drop_hyphens (rev (chars s))).
Proof.
  induction s as [|c s IH]; simpl; [reflexivity|].
  rewrite drop_hyphens_snoc.
  destruct (rstrip is_hyphen s) as [|b r] eqn:E; simpl in IH.
  - destruct (drop_hyphens (rev (chars s))) as [|x xs] eqn:D.
    + destruct (is_hyphen c); reflexivity.
    + apply (f_equal (@List.length ascii)) in IH. simpl in IH.
      rewrite length_app in IH. simpl in IH. lia.
  - destruct (drop_hyphens (rev (chars s))) as [|x xs] eqn:D.
    + discriminate IH.
    + rewrite rev_app_distr. simpl. now rewrite IH.
Qed.

Lemma drop_hyphens_idem l : drop_hyphens (drop_hyphens l) = drop_hyphens l.
Proof.
  induction l as [|a l IH]; simpl; [reflexivity|].
  destruct (is_hyphen a) eqn:E; [exact IH | simpl; now rewrite E].
Qed.

Lemma squeeze_hyphens_cons_other a l :
  is_hyphen a = false -> squeeze_hyphens (a :: l) = a :: squeeze_hyphens l.
Proof. intros H. destruct l; simpl; now rewrite ?H. Qed.

Lemma drop_hyphens_squeeze_hyphen a l :
  is_hyphen a = true ->
  squeeze_hyphens (a :: l) = a :: drop_hyphens (squeeze_hyphens l).
Proof.
  intros Ha. revert a Ha. induction l as [|b l IH]; intros a Ha.
  - reflexivity.
  - change (squeeze_hyphens (a :: b :: l)) with
      (if is_hyphen a && is_hyphen b then squeeze_hyphens (b :: l)
       else a :: squeeze_hyphens (b :: l)).
    rewrite Ha. simpl andb. destruct (is_hyphen b) eqn:Hb.
    + rewrite (IH b Hb). simpl. rewrite Hb, drop_hyphens_idem.
      unfold is_hyphen in Ha, Hb. apply Ascii.eqb_eq in Ha, Hb. congruence.
    + rewrite (squeeze_hyphens_cons_other b l Hb). simpl. now rewrite Hb.
Qed.

Lemma separator_to_hyphen_is_hyphen c :
  is_hyphen (separator_to_hyphen c) = slug_separator c.
Proof.
  unfold separator_to_hyphen. destruct (slug_separator c) eqn:E; [reflexivity|].
  unfold slug_separator in E. now apply orb_false_elim in E.
Qed.

Lemma chars_re_sub_runs s :
  chars (re_sub_runs slug_separator "-" false s)
    = squeeze_hyphens (map separator_to_hyphen (chars s))
  /\ chars (re_sub_runs slug_separator "-" true s)
    = drop_hyphens (squeeze_hyphens (map separator_to_hyphen (chars s))).
Proof.
  induction s as [|c s [IH1 IH2]]; [split; reflexivity|].
  cbn [re_sub_runs list_ascii_of_string map].
  destruct (slug_separator c) eqn:Hc.
  - assert (Hh : is_hyphen (separator_to_hyphen c) = true)
      by now rewrite separator_to_hyphen_is_hyphen.
    rewrite (drop_hyphens_squeeze_hyphen _ _ Hh).
    cbn [drop_hyphens]. rewrite Hh. cbn [append list_ascii_of_string].
    rewrite IH2, drop_hyphens_idem. split; [|reflexivity].
    unfold separator_to_hyphen. now rewrite Hc.
  - assert (Hh : is_hyphen (separator_to_hyphen c) = false)
      by now rewrite separator_to_hyphen_is_hyphen.
    rewrite (squeeze_hyphens_cons_other _ _ Hh).
    cbn [drop_hyphens list_ascii_of_string]. rewrite Hh, IH1.
    unfold separator_to_hyphen. rewrite Hc. split; reflexivity.
Qed.

(** C8. [slugify] maps the specification's example to [my-script-v20] and,
    on every text, computes what the specification describes: the text in
    lower case, without the characters that are neither word characters,
    whitespace nor hyphens, with every run of whitespace and hyphens turned
    into one hyphen, and without leading and trailing hyphens. *)
Theorem slugify_spec :
  slugify "My Script! v2.0" = "my-script-v20"
  /\ forall text : string, slugify text = slug_spec text.
Proof.
  split; [reflexivity|]. intros text. apply chars_inj.
  unfold slugify, slug_spec, strip, lower.
  rewrite list_ascii_of_string_of_list_ascii.
  rewrite chars_rstrip_hyphen, chars_lstrip_hyphen.
  rewrite (proj1 (chars_re_sub_runs _)), chars_re_sub_class_empty, chars_str_map.
  do 6 f_equal. apply filter_ext. intros c. unfold slug_removed, slug_kept.
  apply negb_involutive.
Qed.

Example parse_userscript_metadata_example :
  parse_userscript_metadata
    ("// ==UserScript==" +:+ String newline "// @name Foo Bar" +:+
     String newline "// @match a" +:+ String newline " //@match   b " +:+
     String newline "// @noframes" +:+
     String newline "// ==/UserScript==" +:+ String newline "console.log(1)")
  = [("name", MStr "Foo Bar"); ("match", MList ["a"; "b"])].
Proof. reflexivity. Qed.

(** ** Dictionaries *)

Lemma dict_get_set {V : Type} (k k' : string) (v : V) (d : list (string * V)) :
  dict_get k' (dict_set k v d) = if String.eqb k k' then Some v else dict_get k' d.
Proof.
  induction d as [|[k0 v0] d IH]; simpl.
  - reflexivity.
  - destruct (String.eqb_spec k0 k) as [->|Hne]; simpl.
    + destruct (String.eqb k k'); reflexivity.
    + rewrite IH. destruct (String.eqb_spec k k') as [<-|Hne'].
      * destruct (String.eqb_spec k0 k); [contradiction | reflexivity].
      * reflexivity.
Qed.

(** ** The header block *)

#[local] Arguments match_marker : simpl never.

Lemma strip_prefix_Some p s r : strip_prefix p s = Some r -> s = p +:+ r.
Proof.
  revert s. induction p as [|a p IH]; intros s H; simpl in H.
  - now inversion H.
  - destruct s as [|b s]; [discriminate|].
    destruct (Ascii.eqb_spec a b) as [->|]; [|discriminate].
    simpl. f_equal. now apply IH.
Qed.












(** ** The entries of the header *)







(** ** JSON on examples *)

Example json_loads_example :
  json_loads (dq "{'a': [1, 2.5e3, true, null], 'b': {'c': 'x\ny'}, 'a': 'z'} ")
  = Some (JObj [("a", JStr "z");
                ("b", JObj [("c", JStr (String "x" (String newline "y")))])]).
Proof. vm_compute. reflexivity. Qed.

Example json_loads_malformed :
  json_loads (dq "{'a': }") = None /\ json_loads (dq "{'a': 1,}") = None
  /\ json_loads (dq "[1 2]") = None /\ json_loads (dq "{'a': 1} x") = None
  /\ json_loads (dq "{'a") = None /\ json_loads "01" = None.
Proof. vm_compute. repeat split. Qed.

(** The limits of the decoder's model: 4300 digits and 100 levels are
    within them, one more is not; a bracket between double quotes does not
    nest; an escape is within the alphabet up to U+00FF. *)
Example within_limits_example :
  within_limits (String.concat EmptyString (repeat "1" 4300)) = true
  /\ within_limits (String.concat EmptyString (repeat "1" 4301)) = false
  /\ within_limits (String.concat EmptyString (repeat "[" 100 ++ repeat "]" 100))
     = true
  /\ within_limits (String.concat EmptyString (repeat "[" 101 ++ repeat "]" 101))
     = false
  /\ within_limits (dq "{'a':'[[[[','b':[1]}") = true
  /\ nesting (dq "{'a':'[[[[','b':[1]}") 0 false false = 2
  /\ within_limits (String backslash "u00e9") = true
  /\ within_limits (String backslash "u2605") = false.
Proof. vm_compute. repeat split. Qed.

Example json_dumps_example :
  json_dumps (JObj [("scripts", JArr [JObj [("uuid", JStr "a")]; JArr []]);
                    ("n", JNum "1")])
  = dq ("{" +:+ String newline "  'scripts': [" +:+ String newline "    {"
        +:+ String newline "      'uuid': 'a'" +:+ String newline "    },"
        +:+ String newline "    []" +:+ String newline "  ],"
        +:+ String newline "  'n': 1" +:+ String newline "}").
Proof. vm_compute. reflexivity. Qed.

(** ** The scanner on examples *)

Example parse_scripts_from_text_example :
  parse_scripts_from_text
    (dq "junk{'x':1}{'id1':'// ==UserScript==\n// @name A\n// ==/UserScript=={}','n':2}{'tr")
  = Some [("id1", "// ==UserScript==" +:+ String newline "// @name A"
                  +:+ String newline "// ==/UserScript=={}")].
Proof. vm_compute. reflexivity. Qed.

(** ** The reconciler's steps *)

Ltac unfold_monad :=
  unfold mbind, mret, M_bind, M_ret, outcome_bind, outcome_ret, lift,
    path_exists, read_text, write_text, now_isoformat in *.

Lemma export_script_eq isoformat acc item w :
  export_script isoformat acc item w = export_script_result isoformat acc item w.
Proof.
  destruct acc as [[exported added] updated], item as [uuid script], w as [fs t].
  unfold export_script, export_script_result. unfold_monad.
  destruct (slugify_name _) as [[name slug]|e]; [|reflexivity].
  simpl.
  destruct (fs !! (slug +:+ ".user.js")) as [content|] eqn:E; simpl;
    rewrite ?E; simpl.
  - destruct (String.eqb (universal_newlines content) script); reflexivity.
  - reflexivity.
Qed.

Lemma update_manifest_eq isoformat exported w :
  update_manifest isoformat exported w
  = update_manifest_result isoformat exported w.
Proof.
  destruct w as [fs t].
  unfold update_manifest, update_manifest_result, loaded_manifest,
    merged_manifest. unfold_monad. simpl.
  destruct (fs !! manifest_name) as [content|] eqn:E; simpl; rewrite ?E; simpl.
  - destruct (existing_uuids _) as [existing|e]; [|reflexivity].
    destruct (fold_outcome _ _ _) as [merged|e]; [|reflexivity].
    destruct (py_setitem _ _ _); reflexivity.
  - destruct (fold_outcome _ _ _) as [merged|e]; [|reflexivity].
    destruct (py_setitem _ _ _); reflexivity.
Qed.
Lemma foldM_cons {A B : Type} (f : B -> A -> M B) x l acc w :
  foldM f (x :: l) acc w
  = match f acc x w with
    | (Ok acc', w') => foldM f l acc' w'
    | (Raise e, w') => (Raise e, w')
    end.
Proof. reflexivity. Qed.

Lemma export_userscripts_eq isoformat scripts include_manifest w :
  export_userscripts isoformat scripts include_manifest w
  = match foldM (export_script isoformat) scripts ([], 0, 0) w with
    | (Raise e, w1) => (Raise e, w1)
    | (Ok (exported, added, updated), w1) =>
        if include_manifest && ((0 <? added) || (0 <? updated))
        then match update_manifest_result isoformat exported w1 with
             | (Ok _, w2) => (Ok (exported, added, updated, 0), w2)
             | (Raise e, w2) => (Raise e, w2)
             end
        else (Ok (exported, added, updated, 0), w1)
    end.
Proof.
  unfold export_userscripts. unfold mbind at 1. unfold M_bind at 1.
  destruct (foldM _ _ _ w) as [[[[exported added] updated]|e] w1]; [|reflexivity].
  rewrite orb_false_r.
  destruct (include_manifest && _).
  - unfold mbind, M_bind. rewrite update_manifest_eq.
    destruct (update_manifest_result _ _ _) as [[[]|e] w2]; reflexivity.
  - reflexivity.
Qed.

(** ** No file is ever deleted *)

Lemma files_kept_refl w : files_kept w w.
Proof. intros name H. exact H. Qed.

Lemma files_kept_trans w1 w2 w3 :
  files_kept w1 w2 -> files_kept w2 w3 -> files_kept w1 w3.
Proof. intros H12 H23 name H. apply H23, H12, H. Qed.

Lemma files_kept_insert fs name content t t' :
  files_kept (World fs t) (World (<[name := content]> fs) t').
Proof.
  intros n H. cbn in *. destruct (decide (name = n)) as [->|Hne].
  - rewrite lookup_insert_eq. eauto.
  - now rewrite lookup_insert_ne.
Qed.

Lemma export_script_kept isoformat acc item w :
  files_kept w (export_script isoformat acc item w).2.
Proof.
  rewrite export_script_eq. unfold export_script_result.
  destruct acc as [[exported added] updated], item as [uuid script], w as [fs t].
  destruct (slugify_name _) as [[name slug]|e]; [|apply files_kept_refl].
  cbn [files clock].
  destruct (fs !! _) as [content|]; [|apply files_kept_insert].
  destruct (String.eqb _ _); [intros n H; exact H | apply files_kept_insert].
Qed.

Lemma export_loop_kept isoformat scripts acc w :
  files_kept w (foldM (export_script isoformat) scripts acc w).2.
Proof.
  revert acc w. induction scripts as [|item scripts IH]; intros acc w.
  - apply files_kept_refl.
  - rewrite foldM_cons. pose proof (export_script_kept isoformat acc item w) as H.
    destruct (export_script isoformat acc item w) as [[acc'|e] w1]; cbn [snd] in H.
    + exact (files_kept_trans _ _ _ H (IH acc' w1)).
    + exact H.
Qed.

Lemma update_manifest_kept isoformat exported w :
  files_kept w (update_manifest_result isoformat exported w).2.
Proof.
  unfold update_manifest_result. destruct w as [fs t]. cbn [files clock].
  destruct (merged_manifest _ _) as [merged|e]; [|intros n H; exact H].
  destruct (py_setitem _ _ _) as [final|e]; [|intros n H; exact H].
  apply files_kept_insert.
Qed.

Lemma export_userscripts_kept isoformat scripts include_manifest w :
  files_kept w (export_userscripts isoformat scripts include_manifest w).2.
Proof.
  rewrite export_userscripts_eq.
  pose proof (export_loop_kept isoformat scripts ([], 0, 0) w) as H.
  destruct (foldM _ _ _ w) as [[[[exported added] updated]|e] w1];
    cbn [snd] in H; [|exact H].
  destruct (include_manifest && _); [|exact H].
  pose proof (update_manifest_kept isoformat exported w1) as H'.
  destruct (update_manifest_result _ _ _) as [[[]|e] w2]; cbn [snd] in *;
    exact (files_kept_trans _ _ _ H H').
Qed.

(** C9. Whatever the input mapping and the output directory, a run that
    returns reports [removed = 0], and every file the directory held
    before the run is still there after it: a script that has left the
    source is never deleted from the output. *)
Theorem removed_always_zero (isoformat : nat -> string)
    (scripts : list (string * string)) (include_manifest : bool) (w w' : world)
    (exported : list json) (added updated removed : nat) :
  export_userscripts isoformat scripts include_manifest w
    = (Ok (exported, added, updated, removed), w') ->
  removed = 0
  /\ forall name, is_Some (files w !! name) -> is_Some (files w' !! name).
Proof.
  intros Hrun. split.
  - rewrite export_userscripts_eq in Hrun.
    destruct (foldM _ _ _ w) as [[[[exported1 added1] updated1]|e] w1];
      [|discriminate].
    destruct (include_manifest && _).
    + destruct (update_manifest_result _ _ _) as [[[]|e] w2]; congruence.
    + congruence.
  - pose proof (export_userscripts_kept isoformat scripts include_manifest w) as H.
    rewrite Hrun in H. exact H.
Qed.

Lemma removed_always_zero_witness :
  0 = 0
  /\ forall name,
      is_Some (files (World {[ "notes.txt" := "kept" ]} 0) !! name) ->
      is_Some (files (export_userscripts tick_format [("id1", foo_bar_script)]
                        true (World {[ "notes.txt" := "kept" ]} 0)).2 !! name).
Proof.
  apply (removed_always_zero tick_format [("id1", foo_bar_script)] true
           (World {[ "notes.txt" := "kept" ]} 0) _ [foo_bar_entry "T0"] 1 0 0).
  vm_compute. reflexivity.
Defined.

(** The end-to-end scenario of the specification. *)
Example export_userscripts_scenario :
  let run := export_userscripts tick_format [("id1", foo_bar_script)] true
               empty_world in
  run.1 = Ok ([foo_bar_entry "T0"], 1, 0, 0)
  /\ files run.2 !! "foo-bar.user.js" = Some foo_bar_script
  /\ (json_loads <$> files run.2 !! manifest_name)
     = Some (Some (JObj [("scripts", JArr [foo_bar_entry "T0"]);
                         ("last_updated", JStr "T2")])).
Proof. vm_compute. repeat split. Qed.

(** ** A manifest that is missing or does not decode *)

Lemma loaded_manifest_missing created fs :
  fs !! manifest_name = None ->
  loaded_manifest created fs
  = JObj [("scripts", JArr []); ("last_updated", JStr created)].
Proof. unfold loaded_manifest. now intros ->. Qed.

Lemma loaded_manifest_undecodable created fs content :
  fs !! manifest_name = Some content ->
  json_loads (universal_newlines content) = None ->
  loaded_manifest created fs
  = JObj [("scripts", JArr []); ("last_updated", JStr created)].
Proof. unfold loaded_manifest. now intros -> ->. Qed.

(** C3 (the code departs from the claim). A manifest that decodes but is
    no manifest is not treated as empty: with the object without members
    in [manifest.json] the run stops on [KeyError], with the empty list on
    [AttributeError]; the script file is written before the fault and the
    manifest is left as it was. *)
Theorem manifest_of_wrong_shape_faults :
  let run content :=
    export_userscripts tick_format [("id1", foo_bar_script)] true
      (World {[ manifest_name := content ]} 0) in
  (run "{}").1 = Raise KeyError
  /\ (run "[]").1 = Raise AttributeError
  /\ files (run "{}").2 !! manifest_name = Some "{}"
  /\ files (run "{}").2 !! "foo-bar.user.js" = Some foo_bar_script.
Proof. vm_compute. repeat split. Qed.

(** ** The scanner always terminates *)

Lemma length_append (s t : string) :
  String.length (s +:+ t) = String.length s + String.length t.
Proof. induction s as [|c s IH]; simpl; [reflexivity | now rewrite IH]. Qed.

Lemma length_str_drop n s : String.length (str_drop n s) = String.length s - n.
Proof.
  revert s. induction n as [|n IH]; intros [|c s]; simpl; try reflexivity.
  apply IH.
Qed.

Lemma starts_with_length sub s :
  starts_with sub s = true -> String.length sub <= String.length s.
Proof.
  unfold starts_with. destruct (strip_prefix sub s) as [r|] eqn:E; [|discriminate].
  intros _. apply strip_prefix_Some in E. subst s. rewrite length_append. lia.
Qed.

Lemma find_at_bounds sub s off p :
  find_at sub s off = Some p ->
  off <= p /\ p + String.length sub <= off + String.length s.
Proof.
  revert off. induction s as [|c s IH]; intros off; simpl.
  - destruct (starts_with sub "") eqn:E; [|discriminate].
    intros [= <-]. apply starts_with_length in E. simpl in E. lia.
  - destruct (starts_with sub (String c s)) eqn:E.
    + intros [= <-]. apply starts_with_length in E. simpl in E. lia.
    + intros H. apply IH in H. lia.
Qed.

Lemma str_find_bounds sub text idx p :
  str_find sub text idx = Some p ->
  idx <= p /\ p + String.length sub <= String.length text.
Proof.
  unfold str_find. destruct (String.length text <? idx) eqn:E; [discriminate|].
  apply Nat.ltb_ge in E. intros H. apply find_at_bounds in H.
  rewrite length_str_drop in H. lia.
Qed.

Lemma brace_scan_bounds rest i brace_count in_string escape_next e :
  brace_scan rest i brace_count in_string escape_next = Some e ->
  i < e /\ e <= i + String.length rest.
Proof.
  revert i brace_count in_string escape_next.
  induction rest as [|c rest IH]; intros i brace_count in_string escape_next;
    simpl; [discriminate|].
  repeat match goal with
         | |- context [if ?b then _ else _] => destruct b
         end;
    try (intros [= <-]; lia); intros H; apply IH in H; lia.
Qed.

Lemma record_end_bounds text start :
  start <= String.length text -> record_end text start <= String.length text.
Proof.
  intros Hs. unfold record_end.
  destruct (brace_scan _ _ _ _ _) as [e|] eqn:E; [|exact Hs].
  apply brace_scan_bounds in E. rewrite length_str_drop in E. lia.
Qed.

(** One turn of the loop: the candidate lies at or after the search index,
    and the index the turn leaves lies strictly after the candidate, in
    each of its four cases. *)
Lemma scan_iteration_advances text idx found start idx' found' :
  scan_iteration text idx found = Some (start, idx', found') ->
  idx <= start /\ start < idx' /\ idx' <= String.length text.
Proof.
  unfold scan_iteration.
  destruct (str_find record_open text idx) as [s|] eqn:Hf; [|discriminate].
  apply str_find_bounds in Hf. cbn [record_open String.length] in Hf.
  destruct (negb _).
  - intros [= <- <- _]. lia.
  - destruct (s <? record_end text s) eqn:He.
    + intros [= <- <- _]. apply Nat.ltb_lt in He.
      pose proof (record_end_bounds text s). lia.
    + intros [= <- <- _]. lia.
Qed.

Lemma scan_loop_terminates text fuel idx found :
  idx <= String.length text -> String.length text < fuel + idx ->
  exists found' log,
    scan_loop fuel text idx found = Some (found', log)
    /\ steps_advance idx log.
Proof.
  revert idx found. induction fuel as [|fuel IH]; intros idx found Hi Hf.
  - lia.
  - cbn [scan_loop].
    destruct (scan_iteration text idx found) as [[[start idx'] found1]|] eqn:E.
    + apply scan_iteration_advances in E as (H1 & H2 & H3).
      destruct (IH idx' found1) as (found' & log & -> & Hlog); [lia | lia |].
      exists found', ((start, idx') :: log). cbn. auto.
    + exists found, []. split; [reflexivity | exact I].
Qed.

(** More fuel changes nothing. *)
Lemma scan_loop_fuel_mono text fuel fuel' idx found r :
  scan_loop fuel text idx found = Some r -> fuel <= fuel' ->
  scan_loop fuel' text idx found = Some r.
Proof.
  revert fuel' idx found r. induction fuel as [|fuel IH];
    intros fuel' idx found r H Hle; [discriminate|].
  destruct fuel' as [|fuel']; [lia|]. cbn [scan_loop] in *.
  destruct (scan_iteration text idx found) as [[[start idx'] found1]|];
    [|exact H].
  destruct (scan_loop fuel text idx' found1) as [r1|] eqn:E; [|discriminate].
  rewrite (IH fuel' _ _ _ E); [exact H | lia].
Qed.

Lemma steps_advance_starts idx log :
  steps_advance idx log ->
  Forall (fun start => idx <= start) (map fst log)
  /\ StronglySorted lt (map fst log).
Proof.
  revert idx. induction log as [|[start idx'] log IH]; intros idx H; cbn.
  - split; constructor.
  - destruct H as (H1 & H2 & H3). destruct (IH _ H3) as [Hall Hsorted].
    split.
    + constructor; [exact H1|].
      eapply Forall_impl; [exact Hall|]. cbn. intros; lia.
    + constructor; [exact Hsorted|].
      eapply Forall_impl; [exact Hall|]. cbn. intros; lia.
Qed.

Lemma StronglySorted_lt_NoDup (l : list nat) : StronglySorted lt l -> NoDup l.
Proof.
  induction 1 as [|a l Hs IH Hall]; constructor; [|exact IH].
  intros Hin. rewrite Forall_forall in Hall.
  specialize (Hall a Hin). lia.
Qed.

(** C4. On every text the scanner terminates: within the fuel [scan_fuel]
    (and with any larger one) the loop ends with a mapping.  Each turn
    leaves a search index strictly beyond its candidate, which itself lies
    at or after the index the turn started from; so the candidate starts
    increase strictly and none is visited twice.  [scan_iteration_advances]
    covers the four kinds of turn alike. *)
Theorem scanner_terminates (text : string) :
  exists found log,
    parse_scripts_from_text text = Some found
    /\ (forall fuel, scan_fuel text <= fuel ->
          scan_loop fuel text 0 [] = Some (found, log))
    /\ steps_advance 0 log
    /\ StronglySorted lt (map fst log)
    /\ NoDup (map fst log).
Proof.
  destruct (scan_loop_terminates text (scan_fuel text) 0 [])
    as (found & log & Hrun & Hlog); [lia | unfold scan_fuel; lia |].
  exists found, log. unfold parse_scripts_from_text. rewrite Hrun.
  pose proof (steps_advance_starts _ _ Hlog) as [_ Hsorted].
  repeat split; try assumption.
  - intros fuel Hle. exact (scan_loop_fuel_mono _ _ _ _ _ _ Hrun Hle).
  - now apply StronglySorted_lt_NoDup.
Qed.

(** ** The scanner next to malformed fragments *)

Lemma str_drop_append (s t : string) : str_drop (String.length s) (s +:+ t) = t.
Proof. induction s as [|c s IH]; [reflexivity | exact IH]. Qed.

Lemma str_take_append (s t : string) : str_take (String.length s) (s +:+ t) = s.
Proof. induction s as [|c s IH]; simpl; [now destruct t | now rewrite IH]. Qed.

Lemma str_drop_drop n m s : str_drop n (str_drop m s) = str_drop (m + n) s.
Proof.
  revert s. induction m as [|m IH]; intros s; [reflexivity|].
  destruct s as [|c s]; simpl; [now destruct n | apply IH].
Qed.

Lemma find_at_starts sub s off p :
  find_at sub s off = Some p -> starts_with sub (str_drop (p - off) s) = true.
Proof.
  revert off. induction s as [|c s IH]; intros off; simpl.
  - destruct (starts_with sub "") eqn:E; [|discriminate].
    intros [= <-]. rewrite Nat.sub_diag. exact E.
  - destruct (starts_with sub (String c s)) eqn:E.
    + intros [= <-]. rewrite Nat.sub_diag. exact E.
    + intros H. pose proof (find_at_bounds _ _ _ _ H) as [Hle _].
      apply IH in H. replace (p - off) with (S (p - S off)) by lia. exact H.
Qed.

Lemma find_at_first sub s off q :
  starts_with sub (str_drop q s) = true -> q <= String.length s ->
  exists p, find_at sub s off = Some p /\ p <= off + q.
Proof.
  revert off q. induction s as [|c s IH]; intros off q Hq Hlen; simpl.
  - destruct q; simpl in Hq; [|simpl in Hlen; lia].
    rewrite Hq. exists off. split; [reflexivity | lia].
  - destruct (starts_with sub (String c s)) eqn:E.
    + exists off. split; [reflexivity | lia].
    + destruct q as [|q]; [simpl in Hq; congruence|].
      simpl in Hq, Hlen. destruct (IH (S off) q Hq) as (p & Hp & Hle); [lia|].
      exists p. split; [exact Hp | lia].
Qed.

Lemma str_find_starts sub text idx p :
  str_find sub text idx = Some p -> starts_with sub (str_drop p text) = true.
Proof.
  unfold str_find. destruct (String.length text <? idx); [discriminate|].
  intros H. pose proof (find_at_bounds _ _ _ _ H) as [Hle _].
  apply find_at_starts in H. rewrite str_drop_drop in H.
  now replace (idx + (p - idx)) with p in H by lia.
Qed.

Lemma str_find_first sub text idx q :
  starts_with sub (str_drop q text) = true ->
  idx <= q -> q <= String.length text ->
  exists p, str_find sub text idx = Some p /\ p <= q.
Proof.
  intros Hq Hi Hlen. unfold str_find.
  destruct (String.length text <? idx) eqn:E; [apply Nat.ltb_lt in E; lia|].
  destruct (find_at_first sub (str_drop idx text) idx (q - idx))
    as (p & Hp & Hle).
  - rewrite str_drop_drop. now replace (idx + (q - idx)) with q by lia.
  - rewrite length_str_drop. lia.
  - exists p. split; [exact Hp | lia].
Qed.

Lemma strip_prefix_append p s r t :
  strip_prefix p s = Some r -> strip_prefix p (s +:+ t) = Some (r +:+ t).
Proof.
  revert s. induction p as [|a p IH]; intros s H; simpl in *.
  - now injection H as ->.
  - destruct s as [|b s]; [discriminate|]. simpl.
    destruct (a =? b)%char; [now apply IH | discriminate].
Qed.

Lemma fragment_skipped_at text lo hi limit start :
  fragment_skipped text lo hi limit = true ->
  lo <= start -> start < hi ->
  starts_with record_open (str_drop start text) = true ->
  candidate_skipped text start limit = true.
Proof.
  unfold fragment_skipped. rewrite forallb_forall. intros Hall Hlo Hhi Hs.
  specialize (Hall start). rewrite Hs in Hall. apply Hall.
  apply in_seq. lia.
Qed.

(** A candidate that is passed over leaves the mapping as it is. *)
Lemma scan_iteration_skipped text idx found start limit :
  str_find record_open text idx = Some start ->
  candidate_skipped text start limit = true ->
  exists idx',
    scan_iteration text idx found = Some (start, idx', found)
    /\ (idx' = start + 1 \/ idx' <= limit).
Proof.
  intros Hf Hs. unfold scan_iteration. rewrite Hf.
  unfold candidate_skipped in Hs.
  destruct (negb (str_contains _ _)); [eauto|].
  cbn [orb] in Hs. destruct (start <? record_end text start); [|eauto].
  cbn [negb orb] in Hs. apply andb_true_iff in Hs as [Hle Hj].
  apply andb_true_iff in Hle as [Hle _]. apply Nat.leb_le in Hle.
  destruct (json_loads _); [discriminate|]. eauto.
Qed.

(** ** The decoder never runs out of fuel *)

Lemma length_lstrip cls s : String.length (lstrip cls s) <= String.length s.
Proof.
  induction s as [|c s IH]; cbn [lstrip]; [lia|].
  destruct (cls c); cbn [String.length]; lia.
Qed.

Lemma length_skip_ws s : String.length (skip_ws s) <= String.length s.
Proof. apply length_lstrip. Qed.

Lemma scanstring_length s str r :
  scanstring s = Some (str, r) -> String.length r < String.length s.
Proof.
  remember (String.length s) as n eqn:Hn. revert s str r Hn.
  induction n as [n IH] using lt_wf_ind. intros s str r -> H.
  destruct s as [|c s]; [discriminate|]. cbn [scanstring] in H.
  assert (Hrec : forall ch t, String.length t < String.length (String c s) ->
            cons_char ch (scanstring t) = Some (str, r) ->
            String.length r < String.length t).
  { intros ch t Ht Hc. unfold cons_char in Hc.
    destruct (scanstring t) as [[str' r']|] eqn:E; [|discriminate].
    injection Hc as _ <-. exact (IH _ Ht t str' r' eq_refl E). }
  cbn [String.length] in *.
  destruct (c =? dquote)%char; [injection H as _ <-; lia|].
  destruct (c =? backslash)%char.
  - destruct s as [|e s]; [discriminate|]. cbn [String.length] in *.
    destruct (e =? "u")%char.
    + destruct s as [|h1 [|h2 [|h3 [|h4 rest]]]]; try discriminate.
      destruct (hex4 h1 h2 h3 h4) as [n|]; [|discriminate].
      destruct (n <? 256); [|discriminate].
      cbn [String.length] in *. apply Hrec in H; lia.
    + destruct (unescape e); [|discriminate]. apply Hrec in H; lia.
  - destruct (code c <? 32); [discriminate|]. apply Hrec in H; lia.
Qed.

Lemma digits1_length s ds r :
  digits1 s = Some (ds, r) -> String.length r <= String.length s.
Proof.
  unfold digits1. destruct (take_while is_digit s) as [|d ds']; [discriminate|].
  intros [= _ <-].
  change (String.length (str_drop (String.length (String d ds')) s)
          <= String.length s).
  rewrite length_str_drop. lia.
Qed.

Lemma match_number_length s lit r :
  match_number s = Some (lit, r) -> String.length r < String.length s.
Proof.
  unfold match_number.
  assert (Hsign : String.length (snd (number_sign s)) <= String.length s).
  { unfold number_sign. destruct s as [|c s]; [cbn; lia|].
    destruct (c =? "-")%char; cbn; lia. }
  revert Hsign. generalize (snd (number_sign s)). intros s1 Hsign.
  destruct (number_int s1) as [[int_lit s2]|] eqn:Hint; [|discriminate].
  cbn [mbind option_bind fst snd].
  assert (Hi : String.length s2 < String.length s1).
  { unfold number_int in Hint. destruct s1 as [|d s1]; [discriminate|].
    destruct (d =? "0")%char; [injection Hint as _ <-; cbn; lia|].
    destruct (in_range 49 57 d); [|discriminate].
    injection Hint as _ <-. rewrite length_str_drop. cbn. lia. }
  assert (Hf : String.length (snd (number_frac s2)) <= String.length s2).
  { unfold number_frac. destruct s2 as [|c s2]; [cbn; lia|].
    destruct (c =? ".")%char; [|cbn; lia].
    destruct (digits1 s2) as [[ds r']|] eqn:Hd; [|cbn; lia].
    apply digits1_length in Hd. cbn. lia. }
  assert (He : forall s4, String.length (snd (number_exp s4)) <= String.length s4).
  { intros s4. unfold number_exp. destruct s4 as [|e s4]; [cbn; lia|].
    destruct ((e =? "e")%char || (e =? "E")%char); [|cbn; lia].
    match goal with
    | |- context [digits1 (snd ?sg)] =>
        assert (Hsg : String.length (snd sg) <= String.length s4)
    end.
    { destruct s4 as [|c t]; [cbn; lia|].
      destruct ((c =? "+")%char || (c =? "-")%char); cbn; lia. }
    match goal with
    | |- context [digits1 ?x] => destruct (digits1 x) as [[ds r']|] eqn:Hd
    end; [|cbn; lia].
    apply digits1_length in Hd. cbn [snd String.length]. lia. }
  intros [= _ <-]. specialize (He (snd (number_frac s2))). lia.
Qed.

Lemma strip_prefix_length p s r :
  strip_prefix p s = Some r -> String.length s = String.length p + String.length r.
Proof. intros H. apply strip_prefix_Some in H as ->. apply length_append. Qed.

Lemma match_literal_length s v r :
  match_literal s = Some (v, r) -> String.length r < String.length s.
Proof.
  unfold match_literal.
  repeat match goal with
         | |- context [strip_prefix ?p s] =>
             let E := fresh "E" in
             destruct (strip_prefix p s) eqn:E;
             [apply strip_prefix_length in E; cbn in E; intros [= _ <-]; lia|]
         | |- context [match_number s] =>
             let E := fresh "E" in
             destruct (match_number s) as [[lit r']|] eqn:E;
             [apply match_number_length in E; intros [= _ <-]; lia|]
         end.
  discriminate.
Qed.

(** Every value the descent reads takes at least one character. *)
Lemma decoder_consumes fuel :
  (forall s v r, scan_once fuel s = Some (v, r) ->
     String.length r < String.length s)
  /\ (forall s pairs v r, object_members fuel s pairs = Some (v, r) ->
        String.length r < String.length s)
  /\ (forall s values v r, array_items fuel s values = Some (v, r) ->
        String.length r < String.length s).
Proof.
  induction fuel as [|fuel (IHv & IHo & IHa)]; [repeat split; discriminate|].
  repeat split.
  - intros s v r H. cbn [scan_once] in H.
    destruct s as [|c s']; [discriminate|]. cbn [String.length].
    destruct (c =? dquote)%char.
    { destruct (scanstring s') as [[str r']|] eqn:E; [|discriminate].
      injection H as _ <-. apply scanstring_length in E. cbn [snd]. lia. }
    destruct (c =? "{")%char.
    { pose proof (length_skip_ws s') as Hw.
      destruct (skip_ws s') as [|c1 s1]; [discriminate|].
      cbn [String.length] in Hw.
      destruct (c1 =? dquote)%char; [apply IHo in H; lia|].
      destruct (c1 =? "}")%char; [injection H as _ <-; lia | discriminate]. }
    destruct (c =? "[")%char.
    { pose proof (length_skip_ws s') as Hw.
      destruct (skip_ws s') as [|c1 s1]; [discriminate|].
      destruct (c1 =? "]")%char; [injection H as _ <-; cbn in Hw; lia|].
      apply IHa in H. lia. }
    apply match_literal_length in H. cbn [String.length] in H. lia.
  - intros s pairs v r H. cbn [object_members] in H.
    destruct (scanstring s) as [[key s1]|] eqn:Ek; [|discriminate].
    apply scanstring_length in Ek.
    pose proof (length_skip_ws s1) as Hw1.
    destruct (skip_ws s1) as [|c s2]; [discriminate|]. cbn [String.length] in Hw1.
    destruct (c =? ":")%char; [|discriminate].
    pose proof (length_skip_ws s2) as Hw2.
    destruct (scan_once fuel (skip_ws s2)) as [[value s3]|] eqn:Ev; [|discriminate].
    apply IHv in Ev.
    pose proof (length_skip_ws s3) as Hw3.
    destruct (skip_ws s3) as [|c1 s4]; [discriminate|]. cbn [String.length] in Hw3.
    destruct (c1 =? "}")%char; [injection H as _ <-; lia|].
    destruct (c1 =? ",")%char; [|discriminate].
    pose proof (length_skip_ws s4) as Hw4.
    destruct (skip_ws s4) as [|c2 s5]; [discriminate|]. cbn [String.length] in Hw4.
    destruct (c2 =? dquote)%char; [|discriminate].
    apply IHo in H. lia.
  - intros s values v r H. cbn [array_items] in H.
    destruct (scan_once fuel s) as [[value s1]|] eqn:Ev; [|discriminate].
    apply IHv in Ev.
    pose proof (length_skip_ws s1) as Hw1.
    destruct (skip_ws s1) as [|c s2]; [discriminate|]. cbn [String.length] in Hw1.
    destruct (c =? "]")%char; [injection H as _ <-; lia|].
    destruct (c =? ",")%char; [|discriminate].
    pose proof (length_skip_ws s2) as Hw2.
    apply IHa in H. lia.
Qed.

(** With two units of fuel for each character of the text, and one more,
    the descent gives what it gives with any larger fuel: fuel is never
    what makes it fail. *)
Lemma decoder_fuel fuel :
  forall fuel',
    (forall s, 2 * String.length s + 1 <= fuel ->
       2 * String.length s + 1 <= fuel' ->
       scan_once fuel s = scan_once fuel' s)
    /\ (forall s pairs, 2 * String.length s + 2 <= fuel ->
          2 * String.length s + 2 <= fuel' ->
          object_members fuel s pairs = object_members fuel' s pairs)
    /\ (forall s values, 2 * String.length s + 2 <= fuel ->
          2 * String.length s + 2 <= fuel' ->
          array_items fuel s values = array_items fuel' s values).
Proof.
  induction fuel as [|fuel IH]; intros fuel'.
  { repeat split; intros; lia. }
  destruct fuel' as [|fuel']; [repeat split; intros; lia|].
  destruct (IH fuel') as (IHv & IHo & IHa). clear IH.
  repeat split.
  - intros s Hf Hf'. cbn [scan_once].
    destruct s as [|c s']; [reflexivity|]. cbn [String.length] in Hf, Hf'.
    destruct (c =? dquote)%char; [reflexivity|].
    destruct (c =? "{")%char.
    { pose proof (length_skip_ws s') as Hw.
      destruct (skip_ws s') as [|c1 s1]; [reflexivity|].
      cbn [String.length] in Hw.
      destruct (c1 =? dquote)%char; [apply IHo; lia | reflexivity]. }
    destruct (c =? "[")%char; [|reflexivity].
    pose proof (length_skip_ws s') as Hw.
    destruct (skip_ws s') as [|c1 s1]; [reflexivity|].
    destruct (c1 =? "]")%char; [reflexivity|].
    apply IHa; lia.
  - intros s pairs Hf Hf'. cbn [object_members].
    destruct (scanstring s) as [[key s1]|] eqn:Ek; [|reflexivity].
    apply scanstring_length in Ek.
    pose proof (length_skip_ws s1) as Hw1.
    destruct (skip_ws s1) as [|c s2]; [reflexivity|]. cbn [String.length] in Hw1.
    destruct (c =? ":")%char; [|reflexivity].
    pose proof (length_skip_ws s2) as Hw2.
    rewrite <- (IHv (skip_ws s2)) by lia.
    destruct (scan_once fuel (skip_ws s2)) as [[value s3]|] eqn:Ev; [|reflexivity].
    apply (proj1 (decoder_consumes fuel)) in Ev.
    pose proof (length_skip_ws s3) as Hw3.
    destruct (skip_ws s3) as [|c1 s4]; [reflexivity|]. cbn [String.length] in Hw3.
    destruct (c1 =? "}")%char; [reflexivity|].
    destruct (c1 =? ",")%char; [|reflexivity].
    pose proof (length_skip_ws s4) as Hw4.
    destruct (skip_ws s4) as [|c2 s5]; [reflexivity|]. cbn [String.length] in Hw4.
    destruct (c2 =? dquote)%char; [|reflexivity].
    apply IHo; lia.
  - intros s values Hf Hf'. cbn [array_items].
    rewrite <- (IHv s) by lia.
    destruct (scan_once fuel s) as [[value s1]|] eqn:Ev; [|reflexivity].
    apply (proj1 (decoder_consumes fuel)) in Ev.
    pose proof (length_skip_ws s1) as Hw1.
    destruct (skip_ws s1) as [|c s2]; [reflexivity|]. cbn [String.length] in Hw1.
    destruct (c =? "]")%char; [reflexivity|].
    destruct (c =? ",")%char; [|reflexivity].
    pose proof (length_skip_ws s2) as Hw2.
    apply IHa; lia.
Qed.

(** The fuel of [json_loads] is enough: more fuel decodes the same. *)
Lemma json_loads_fuel s fuel :
  2 * String.length s + 2 <= fuel ->
  scan_once fuel (skip_ws s) = scan_once (2 * String.length s + 2) (skip_ws s).
Proof.
  intros Hf. pose proof (length_skip_ws s) as Hw.
  apply (proj1 (decoder_fuel fuel (2 * String.length s + 2))); lia.
Qed.

(** ** The brace scan on well-formed JSON *)

Lemma brace_rest_length s k ins esc r :
  brace_rest s k ins esc = Some r -> String.length r < String.length s.
Proof.
  revert k ins esc. induction s as [|c s IH]; intros k ins esc; simpl;
    [discriminate|].
  repeat match goal with
         | |- context [if ?b then _ else _] => destruct b
         end;
    try (intros [= <-]; lia); intros H; apply IH in H; lia.
Qed.

Lemma brace_scan_rest s i k ins esc :
  brace_scan s i k ins esc
  = (fun r => i + (String.length s - String.length r)) <$> brace_rest s k ins esc.
Proof.
  revert i k ins esc. induction s as [|c s IH]; intros i k ins esc;
    [reflexivity|].
  assert (Hstep : forall k' ins' esc',
            brace_scan s (S i) k' ins' esc'
            = (fun r => i + (String.length (String c s) - String.length r))
                <$> brace_rest s k' ins' esc').
  { intros k' ins' esc'. rewrite IH.
    destruct (brace_rest s k' ins' esc') as [r|] eqn:E; [|reflexivity].
    apply brace_rest_length in E. cbn. f_equal. lia. }
  cbn [brace_scan brace_rest].
  repeat match goal with
         | |- context [if ?b then _ else _] => destruct b
         end;
    try apply Hstep.
  cbn. f_equal. lia.
Qed.

Lemma brace_rest_append s k ins esc r t :
  brace_rest s k ins esc = Some r ->
  brace_rest (s +:+ t) k ins esc = Some (r +:+ t).
Proof.
  revert k ins esc. induction s as [|c s IH]; intros k ins esc; simpl;
    [discriminate|].
  repeat match goal with
         | |- context [if ?b then _ else _] => destruct b
         end;
    try (intros [= <-]; reflexivity); apply IH.
Qed.

Lemma brace_rest_suffix s k ins esc r :
  brace_rest s k ins esc = Some r -> exists p, s = p +:+ r.
Proof.
  revert k ins esc. induction s as [|c s IH]; intros k ins esc; simpl;
    [discriminate|].
  assert (Hstep : forall k' ins' esc',
            brace_rest s k' ins' esc' = Some r -> exists p, String c s = p +:+ r).
  { intros k' ins' esc' H. destruct (IH _ _ _ H) as [p ->].
    now exists (String c p). }
  repeat match goal with
         | |- context [if ?b then _ else _] => destruct b
         end;
    try apply Hstep.
  intros [= <-]. now exists (String c EmptyString).
Qed.

Lemma brace_rest_plain c s k :
  plain c = true ->
  brace_rest (String c s) k false false = brace_rest s k false false.
Proof.
  unfold plain. intros H. apply negb_true_iff in H.
  apply orb_false_elim in H as [H H4]. apply orb_false_elim in H as [H H3].
  apply orb_false_elim in H as [H1 H2]. cbn [brace_rest].
  now rewrite H1, H2, H3, H4.
Qed.

Lemma brace_rest_all_plain p s k :
  all_plain p = true ->
  brace_rest (p +:+ s) k false false = brace_rest s k false false.
Proof.
  induction p as [|c p IH]; [reflexivity|]. cbn [all_plain append].
  intros H. apply andb_true_iff in H as [Hc Hp].
  now rewrite (brace_rest_plain _ _ _ Hc), IH.
Qed.

Lemma brace_rest_strip_prefix lit s r k :
  strip_prefix lit s = Some r -> all_plain lit = true ->
  brace_rest s k false false = brace_rest r k false false.
Proof.
  intros H Hp. apply strip_prefix_Some in H. subst s.
  now apply brace_rest_all_plain.
Qed.

Lemma brace_rest_lstrip cls s k :
  (forall c, cls c = true -> plain c = true) ->
  brace_rest s k false false = brace_rest (lstrip cls s) k false false.
Proof.
  intros Hcls. induction s as [|c s IH]; [reflexivity|]. cbn [lstrip].
  destruct (cls c) eqn:E; [|reflexivity].
  now rewrite (brace_rest_plain _ _ _ (Hcls c E)).
Qed.

Lemma is_json_ws_plain c : is_json_ws c = true -> plain c = true.
Proof.
  destruct c as [[] [] [] [] [] [] [] []]; vm_compute; congruence.
Qed.

Lemma is_digit_plain c : is_digit c = true -> plain c = true.
Proof.
  destruct c as [[] [] [] [] [] [] [] []]; vm_compute; congruence.
Qed.

Lemma brace_rest_skip_ws s k :
  brace_rest s k false false = brace_rest (skip_ws s) k false false.
Proof. apply brace_rest_lstrip, is_json_ws_plain. Qed.

Lemma brace_rest_take_while cls s k :
  (forall c, cls c = true -> plain c = true) ->
  brace_rest s k false false
  = brace_rest (str_drop (String.length (take_while cls s)) s) k false false.
Proof.
  intros Hcls. induction s as [|c s IH]; [reflexivity|]. cbn [take_while].
  destruct (cls c) eqn:E; [|reflexivity].
  cbn [String.length str_drop]. now rewrite (brace_rest_plain _ _ _ (Hcls c E)).
Qed.

Lemma brace_rest_digits1 s ds r k :
  digits1 s = Some (ds, r) ->
  brace_rest s k false false = brace_rest r k false false.
Proof.
  unfold digits1.
  pose proof (brace_rest_take_while is_digit s k is_digit_plain) as H.
  destruct (take_while is_digit s) as [|d ds']; [discriminate|].
  intros [= <- <-]. exact H.
Qed.

Lemma brace_rest_number s lit r k :
  match_number s = Some (lit, r) ->
  brace_rest s k false false = brace_rest r k false false.
Proof.
  unfold match_number.
  assert (Hsign : brace_rest s k false false
                  = brace_rest (snd (number_sign s)) k false false).
  { unfold number_sign. destruct s as [|c s]; [reflexivity|].
    destruct (Ascii.eqb_spec c "-") as [->|]; [|reflexivity].
    now apply brace_rest_plain. }
  rewrite Hsign. generalize (snd (number_sign s)). clear Hsign. intros s1.
  destruct (number_int s1) as [[int_lit s2]|] eqn:Hint; [|discriminate].
  cbn [mbind option_bind fst snd].
  assert (Hi : brace_rest s1 k false false = brace_rest s2 k false false).
  { unfold number_int in Hint. destruct s1 as [|d s1]; [discriminate|].
    destruct (Ascii.eqb_spec d "0") as [->|].
    - injection Hint as _ <-. now apply brace_rest_plain.
    - destruct (in_range 49 57 d) eqn:Hd; [|discriminate].
      injection Hint as _ <-.
      rewrite brace_rest_plain.
      + apply brace_rest_take_while, is_digit_plain.
      + apply is_digit_plain. unfold is_digit, in_range in *.
        apply andb_true_iff in Hd as [H1 H2]. apply Nat.leb_le in H1.
        rewrite H2, andb_true_r. apply Nat.leb_le. lia. }
  assert (Hf : brace_rest s2 k false false
               = brace_rest (snd (number_frac s2)) k false false).
  { unfold number_frac. destruct s2 as [|c s2]; [reflexivity|].
    destruct (Ascii.eqb_spec c ".") as [->|]; [|reflexivity].
    destruct (digits1 s2) as [[ds r']|] eqn:Hd; [|reflexivity].
    cbn [snd]. rewrite brace_rest_plain by reflexivity.
    exact (brace_rest_digits1 _ _ _ _ Hd). }
  assert (He : forall s4, brace_rest s4 k false false
               = brace_rest (snd (number_exp s4)) k false false).
  { intros s4. unfold number_exp. destruct s4 as [|e s4]; [reflexivity|].
    destruct ((e =? "e")%char || (e =? "E")%char) eqn:Hee; [|reflexivity].
    assert (Hpe : plain e = true).
    { apply orb_true_iff in Hee as [H|H]; apply Ascii.eqb_eq in H; now subst e. }
    set (sg := match s4 with
               | String c t =>
                   if (c =? "+")%char || (c =? "-")%char
                   then (String c EmptyString, t) else (EmptyString, s4)
               | EmptyString => (EmptyString, s4)
               end).
    assert (Hsg : brace_rest s4 k false false = brace_rest (snd sg) k false false).
    { subst sg. destruct s4 as [|c t]; [reflexivity|].
      destruct ((c =? "+")%char || (c =? "-")%char) eqn:Hc; [|reflexivity].
      cbn [snd]. apply brace_rest_plain.
      apply orb_true_iff in Hc as [H|H]; apply Ascii.eqb_eq in H; now subst c. }
    destruct (digits1 (snd sg)) as [[ds r']|] eqn:Hd; [|reflexivity].
    cbn [snd]. rewrite (brace_rest_plain _ _ _ Hpe), Hsg.
    exact (brace_rest_digits1 _ _ _ _ Hd). }
  intros [= _ <-]. now rewrite Hi, Hf, <- He.
Qed.

Lemma brace_rest_literal s v r k :
  match_literal s = Some (v, r) ->
  brace_rest s k false false = brace_rest r k false false.
Proof.
  unfold match_literal.
  repeat match goal with
         | |- context [strip_prefix ?lit s] =>
             let E := fresh "E" in
             destruct (strip_prefix lit s) eqn:E;
             [intros [= _ <-];
              exact (brace_rest_strip_prefix _ _ _ _ E eq_refl)|]
         | |- context [match_number s] =>
             let E := fresh "E" in
             destruct (match_number s) as [[lit r']|] eqn:E;
             [intros [= _ <-]; exact (brace_rest_number _ _ _ _ E)|]
         end.
  discriminate.
Qed.

Lemma hex_value_in_string h : is_Some (hex_value h) ->
  (h =? backslash)%char = false /\ (h =? dquote)%char = false.
Proof.
  destruct h as [[] [] [] [] [] [] [] []]; vm_compute; intros [n H];
    try discriminate H; split; reflexivity.
Qed.

(** Inside a string literal the scan follows the decoder: from after the
    opening quote it leaves the string where the decoder does. *)
Lemma brace_rest_scanstring s str r k :
  scanstring s = Some (str, r) ->
  brace_rest s k true false = brace_rest r k false false.
Proof.
  remember (String.length s) as n eqn:Hn. revert s str r Hn.
  induction n as [n IH] using lt_wf_ind. intros s str r Hn.
  destruct s as [|c s]; [discriminate|]. cbn [scanstring brace_rest].
  destruct (c =? dquote)%char eqn:Hq.
  { intros [= _ <-]. apply Ascii.eqb_eq in Hq. subst c. reflexivity. }
  destruct (c =? backslash)%char eqn:Hb.
  - destruct s as [|e s]; [discriminate|]. cbn [brace_rest].
    destruct (e =? "u")%char.
    + destruct s as [|h1 [|h2 [|h3 [|h4 s]]]]; try discriminate.
      unfold hex4.
      destruct (hex_value h1) eqn:H1; [|discriminate].
      destruct (hex_value h2) eqn:H2; [|discriminate].
      destruct (hex_value h3) eqn:H3; [|discriminate].
      destruct (hex_value h4) eqn:H4; [|discriminate].
      cbn [mbind option_bind].
      match goal with |- context [?a <? 256] => destruct (a <? 256) end;
        [|discriminate].
      unfold cons_char. destruct (scanstring s) as [[str0 r0]|] eqn:Hs;
        [|discriminate].
      intros [= _ <-]. cbn [brace_rest].
      destruct (hex_value_in_string h1) as [-> ->]; [eauto|].
      destruct (hex_value_in_string h2) as [-> ->]; [eauto|].
      destruct (hex_value_in_string h3) as [-> ->]; [eauto|].
      destruct (hex_value_in_string h4) as [-> ->]; [eauto|].
      apply (IH (String.length s)) with (str := str0); [|reflexivity|exact Hs].
      subst n. cbn. lia.
    + destruct (unescape e); [|discriminate].
      unfold cons_char. destruct (scanstring s) as [[str0 r0]|] eqn:Hs;
        [|discriminate].
      intros [= _ <-].
      apply (IH (String.length s)) with (str := str0); [|reflexivity|exact Hs].
      subst n. cbn. lia.
  - destruct (code c <? 32); [discriminate|].
    unfold cons_char. destruct (scanstring s) as [[str0 r0]|] eqn:Hs;
      [|discriminate].
    intros [= _ <-].
    apply (IH (String.length s)) with (str := str0); [|reflexivity|exact Hs].
    subst n. cbn. lia.
Qed.

Lemma brace_rest_open_quote s k :
  brace_rest (String dquote s) k false false = brace_rest s k true false.
Proof. reflexivity. Qed.

Lemma brace_rest_open_brace s k :
  brace_rest (String "{" s) k false false = brace_rest s (k + 1) false false.
Proof. reflexivity. Qed.

Lemma brace_rest_close_brace s k :
  brace_rest (String "}" s) (k + 1) false false
  = if (k =? 0)%Z then Some s else brace_rest s k false false.
Proof. cbn. now replace (k + 1 - 1)%Z with k by lia. Qed.

Lemma brace_rest_ws_char c s s' k :
  skip_ws s = String c s' ->
  brace_rest s k false false = brace_rest (String c s') k false false.
Proof. intros <-. apply brace_rest_skip_ws. Qed.

(** The scan follows the decoder through a value: at a depth of one or
    more it passes over the value; an object met at depth zero ends the
    scan right behind its closing brace. *)
Lemma brace_rest_decoder fuel :
  (forall s v r, scan_once fuel s = Some (v, r) ->
     (forall k, (1 <= k)%Z ->
        brace_rest s k false false = brace_rest r k false false)
     /\ (starts_with "{" s = true -> brace_rest s 0 false false = Some r))
  /\ (forall s pairs v r, object_members fuel s pairs = Some (v, r) ->
      forall k, (0 <= k)%Z ->
        brace_rest s (k + 1) true false
        = if (k =? 0)%Z then Some r else brace_rest r k false false)
  /\ (forall s values v r, array_items fuel s values = Some (v, r) ->
      forall k, (1 <= k)%Z ->
        brace_rest s k false false = brace_rest r k false false).
Proof.
  induction fuel as [|fuel (IHv & IHo & IHa)]; [repeat split; discriminate|].
  assert (Hobj : forall s pairs v r,
            object_members fuel s pairs = Some (v, r) ->
            forall k, (1 <= k)%Z ->
              brace_rest s (k + 1) true false = brace_rest r k false false).
  { intros s pairs v r H k Hk. rewrite (IHo _ _ _ _ H k) by lia.
    destruct (Z.eqb_spec k 0); [lia | reflexivity]. }
  split; [|split].
  - intros s v r. cbn [scan_once]. destruct s as [|c s']; [discriminate|].
    destruct (Ascii.eqb_spec c dquote) as [->|Hq].
    { destruct (scanstring s') as [[str r0]|] eqn:Hs; [|discriminate].
      cbn [fmap option_fmap option_map fst snd]. intros [= _ <-].
      split; [|discriminate].
      intros k _. rewrite brace_rest_open_quote.
      exact (brace_rest_scanstring _ _ _ _ Hs). }
    destruct (Ascii.eqb_spec c "{") as [->|Hb].
    { destruct (skip_ws s') as [|c1 s1] eqn:Hws; [discriminate|].
      destruct (Ascii.eqb_spec c1 dquote) as [->|Hq1].
      - intros H. split.
        + intros k Hk. rewrite brace_rest_open_brace,
            (brace_rest_ws_char _ _ _ _ Hws), brace_rest_open_quote.
          exact (Hobj _ _ _ _ H k Hk).
        + intros _. change 0%Z with (0 + 1 - 1)%Z at 1.
          rewrite brace_rest_open_brace. replace (0 + 1 - 1 + 1)%Z with (0 + 1)%Z by lia.
          rewrite (brace_rest_ws_char _ _ _ _ Hws), brace_rest_open_quote.
          now rewrite (IHo _ _ _ _ H 0%Z).
      - destruct (Ascii.eqb_spec c1 "}") as [->|]; [|discriminate].
        intros [= _ <-]. split.
        + intros k Hk. rewrite brace_rest_open_brace,
            (brace_rest_ws_char _ _ _ _ Hws), brace_rest_close_brace.
          destruct (Z.eqb_spec k 0); [lia | reflexivity].
        + intros _. change (brace_rest (String "{" s') 0 false false)
            with (brace_rest s' (0 + 1) false false).
          now rewrite (brace_rest_ws_char _ _ _ _ Hws), brace_rest_close_brace. }
    destruct (Ascii.eqb_spec c "[") as [->|Hk].
    { destruct (skip_ws s') as [|c1 s1] eqn:Hws; [discriminate|].
      intros H. split; [|discriminate]. intros k Hk.
      rewrite brace_rest_plain by reflexivity.
      rewrite (brace_rest_ws_char _ _ _ _ Hws).
      destruct (Ascii.eqb_spec c1 "]") as [->|].
      - injection H as _ <-. now apply brace_rest_plain.
      - exact (IHa _ _ _ _ H k Hk). }
    intros H. split.
    + intros k _. exact (brace_rest_literal _ _ _ _ H).
    + unfold starts_with. cbn [strip_prefix].
      destruct (Ascii.eqb_spec "{" c); [congruence | discriminate].
  - intros s pairs v r. cbn [object_members].
    destruct (scanstring s) as [[key s1]|] eqn:Hs; [|discriminate].
    destruct (skip_ws s1) as [|c s2] eqn:Hws1; [discriminate|].
    destruct (Ascii.eqb_spec c ":") as [->|]; [|discriminate].
    destruct (scan_once fuel (skip_ws s2)) as [[value s3]|] eqn:Hv; [|discriminate].
    destruct (skip_ws s3) as [|c1 s4] eqn:Hws3; [discriminate|].
    intros H k Hk.
    rewrite (brace_rest_scanstring _ _ _ _ Hs),
      (brace_rest_ws_char _ _ _ _ Hws1), brace_rest_plain by reflexivity.
    rewrite brace_rest_skip_ws, (proj1 (IHv _ _ _ Hv)) by lia.
    rewrite (brace_rest_ws_char _ _ _ _ Hws3).
    destruct (Ascii.eqb_spec c1 "}") as [->|].
    { injection H as _ <-. apply brace_rest_close_brace. }
    destruct (Ascii.eqb_spec c1 ",") as [->|]; [|discriminate].
    destruct (skip_ws s4) as [|c2 s5] eqn:Hws4; [discriminate|].
    destruct (Ascii.eqb_spec c2 dquote) as [->|]; [|discriminate].
    rewrite brace_rest_plain by reflexivity.
    rewrite (brace_rest_ws_char _ _ _ _ Hws4), brace_rest_open_quote.
    exact (IHo _ _ _ _ H k Hk).
  - intros s values v r. cbn [array_items].
    destruct (scan_once fuel s) as [[value s1]|] eqn:Hv; [|discriminate].
    destruct (skip_ws s1) as [|c s2] eqn:Hws; [discriminate|].
    intros H k Hk.
    rewrite (proj1 (IHv _ _ _ Hv)), (brace_rest_ws_char _ _ _ _ Hws) by lia.
    destruct (Ascii.eqb_spec c "]") as [->|].
    { injection H as _ <-. now apply brace_rest_plain. }
    destruct (Ascii.eqb_spec c ",") as [->|]; [|discriminate].
    rewrite brace_rest_plain by reflexivity. rewrite brace_rest_skip_ws.
    exact (IHa _ _ _ _ H k Hk).
Qed.

Lemma str_last_append p c s : str_last (p +:+ String c s) = str_last (String c s).
Proof.
  induction p as [|a p IH]; [reflexivity|]. cbn [append].
  change (str_last (String a (p +:+ String c s)))
    with (match p +:+ String c s with
          | EmptyString => Some a
          | String _ _ => str_last (p +:+ String c s)
          end).
  rewrite IH. now destruct p.
Qed.

Lemma skip_ws_empty_last s c :
  skip_ws s = EmptyString -> str_last s = Some c -> is_json_ws c = true.
Proof.
  induction s as [|a s IH]; [discriminate|]. unfold skip_ws. cbn [lstrip].
  destruct (is_json_ws a) eqn:Ha; [|discriminate].
  intros Hs. destruct s as [|b s]; [now intros [= <-]|].
  intros Hl. now apply IH.
Qed.

(** The braces of a record that decodes close where the record ends,
    whatever follows it. *)
Lemma record_closes_at_end record data after i :
  json_loads record = Some data ->
  starts_with "{" record = true ->
  str_last record = Some "}"%char ->
  brace_scan (record +:+ after) i 0 false false
  = Some (i + String.length record).
Proof.
  unfold json_loads. intros Hj Ho Hl.
  assert (Hws : skip_ws record = record).
  { destruct record as [|c r]; [discriminate|]. unfold starts_with in Ho.
    cbn [strip_prefix] in Ho. destruct (Ascii.eqb_spec "{" c) as [<-|]; [|discriminate].
    reflexivity. }
  rewrite Hws in Hj.
  destruct (scan_once _ record) as [[v rest]|] eqn:Hs; [|discriminate].
  destruct (skip_ws rest) eqn:Hr; [|discriminate].
  pose proof (proj2 (proj1 (brace_rest_decoder _) _ _ _ Hs) Ho) as Hb.
  assert (rest = EmptyString) as ->.
  { destruct rest as [|c rest']; [reflexivity|]. exfalso.
    destruct (brace_rest_suffix _ _ _ _ _ Hb) as [p Hp].
    rewrite Hp, str_last_append in Hl.
    apply (skip_ws_empty_last _ _ Hr) in Hl. discriminate. }
  rewrite brace_scan_rest, (brace_rest_append _ _ _ _ _ after Hb).
  cbn. rewrite length_append. f_equal. lia.
Qed.

Lemma scanner_terminates_loop text :
  exists found log, scan_loop (scan_fuel text) text 0 [] = Some (found, log).
Proof.
  destruct (scan_loop_terminates text (scan_fuel text) 0 [])
    as (found & log & Hrun & _); [lia | unfold scan_fuel; lia |].
  eauto.
Qed.

Section Fragments.

Variables (before record after : string) (data : json).

Let text : string := before +:+ record +:+ after.
Let lo : nat := String.length before.
Let hi : nat := String.length before + String.length record.

Hypothesis record_opens : starts_with record_open record = true.
Hypothesis record_sentinel :
  str_contains begin_marker (str_slice lo (lo + lookahead) text) = true.
Hypothesis record_ends : str_last record = Some "}"%char.
Hypothesis record_decodes : json_loads record = Some data.
Hypothesis before_skipped : fragment_skipped text 0 lo lo = true.
Hypothesis after_skipped :
  fragment_skipped text hi (String.length text) (String.length text) = true.

Lemma text_length : String.length text = hi + String.length after.
Proof. unfold text, hi. rewrite !length_append. lia. Qed.

Lemma record_at_lo : str_drop lo text = record +:+ after.
Proof. apply str_drop_append. Qed.

Lemma record_closes : record_end text lo = hi.
Proof.
  unfold record_end. rewrite record_at_lo.
  rewrite (record_closes_at_end record data after lo record_decodes);
    [reflexivity | | exact record_ends].
  unfold starts_with in *.
  destruct (strip_prefix record_open record) as [r|] eqn:E; [|discriminate].
  apply strip_prefix_Some in E. rewrite E. reflexivity.
Qed.

Lemma record_nonempty : 2 <= String.length record.
Proof. exact (starts_with_length _ _ record_opens). Qed.

Lemma candidate_at_lo : starts_with record_open (str_drop lo text) = true.
Proof.
  rewrite record_at_lo. unfold starts_with in *.
  destruct (strip_prefix record_open record) as [r|] eqn:E; [|discriminate].
  now rewrite (strip_prefix_append _ _ _ after E).
Qed.

(** After the record, the mapping no longer changes. *)
Lemma scan_loop_after fuel idx found r log :
  hi <= idx ->
  scan_loop fuel text idx found = Some (r, log) -> r = found.
Proof.
  revert idx found r log. induction fuel as [|fuel IH];
    intros idx found r log Hi H; [discriminate|].
  cbn [scan_loop] in H.
  destruct (str_find record_open text idx) as [start|] eqn:Hf.
  - pose proof (str_find_bounds _ _ _ _ Hf) as [Hle Hlen].
    cbn [record_open String.length] in Hlen.
    destruct (scan_iteration_skipped text idx found start (String.length text) Hf)
      as (idx' & Hit & Hidx').
    { apply (fragment_skipped_at _ _ _ _ _ after_skipped); [lia | lia |].
      exact (str_find_starts _ _ _ _ Hf). }
    rewrite Hit in H.
    pose proof (scan_iteration_advances _ _ _ _ _ _ Hit) as (_ & Hlt & _).
    destruct (scan_loop fuel text idx' found) as [[r1 log1]|] eqn:E;
      [|discriminate].
    injection H as <- _. apply (IH idx' found r1 log1); [lia | exact E].
  - unfold scan_iteration in H. rewrite Hf in H. now injection H as <- _.
Qed.

(** Before the record, the loop reaches it with the mapping still empty. *)
Lemma scan_loop_before fuel idx r log :
  idx <= lo ->
  scan_loop fuel text idx [] = Some (r, log) -> r = harvest data [].
Proof.
  revert idx r log. induction fuel as [|fuel IH];
    intros idx r log Hi H; [discriminate|].
  cbn [scan_loop] in H.
  destruct (str_find_first record_open text idx lo candidate_at_lo Hi)
    as (start & Hf & Hstart); [rewrite text_length; unfold hi; lia|].
  destruct (decide (start = lo)) as [->|Hne].
  - unfold scan_iteration in H. rewrite Hf, record_sentinel, record_closes in H.
    cbn [negb] in H.
    assert (Hlt : (lo <? hi) = true)
      by (apply Nat.ltb_lt; pose proof record_nonempty; unfold hi, lo; lia).
    rewrite Hlt in H.
    assert (Hslice : str_slice lo hi text = record).
    { unfold str_slice. rewrite record_at_lo.
      replace (hi - lo) with (String.length record) by (unfold hi, lo; lia).
      apply str_take_append. }
    rewrite Hslice, record_decodes in H.
    destruct (scan_loop fuel text hi (harvest data [])) as [[r1 log1]|] eqn:E;
      [|discriminate].
    injection H as <- _. exact (scan_loop_after _ _ _ _ _ (Nat.le_refl _) E).
  - destruct (scan_iteration_skipped text idx [] start lo Hf) as (idx' & Hit & Hidx').
    { apply (fragment_skipped_at _ _ _ _ _ before_skipped); [lia | lia |].
      exact (str_find_starts _ _ _ _ Hf). }
    rewrite Hit in H.
    destruct (scan_loop fuel text idx' []) as [[r1 log1]|] eqn:E; [|discriminate].
    injection H as <- _. apply (IH idx' r1 log1); [lia | exact E].
Qed.

Lemma scanner_between_fragments :
  parse_scripts_from_text text = Some (harvest data []).
Proof.
  destruct (scanner_terminates_loop text) as (found & log & Hrun).
  unfold parse_scripts_from_text. rewrite Hrun. cbn. f_equal.
  exact (scan_loop_before _ _ _ _ (Nat.le_0_l _) Hrun).
Qed.

End Fragments.

(** C5, as amended. A well-formed record -- a text from [{] to [}] that
    is within the limits of the decoder's model and decodes, starts a
    candidate and holds the sentinel within the lookahead -- between two
    fragments whose candidates are all passed over (no sentinel in the
    lookahead, braces that never close, or braces that close inside the
    fragment around a text within the same limits that does not decode)
    is returned exactly: the scanner ends normally with the members of the
    record whose values are strings holding the sentinel.  The limits keep
    every text the run hands to [json.loads] among those on which the
    decoder ends as the model does: with a value, or with
    [json.JSONDecodeError]. *)
Theorem scanner_skips_fragments (before record after : string) (data : json) :
  let text := before +:+ record +:+ after in
  let lo := String.length before in
  let hi := lo + String.length record in
  starts_with record_open record = true ->
  str_last record = Some "}"%char ->
  within_limits record = true ->
  json_loads record = Some data ->
  str_contains begin_marker (str_slice lo (lo + lookahead) text) = true ->
  fragment_skipped text 0 lo lo = true ->
  fragment_skipped text hi (String.length text) (String.length text) = true ->
  parse_scripts_from_text text = Some (harvest data []).
Proof.
  intros text lo hi H1 H2 _ H3 H4 H5 H6.
  exact (scanner_between_fragments before record after data H1 H4 H2 H3 H5 H6).
Qed.

Lemma scanner_skips_fragments_witness :
  parse_scripts_from_text
    (dq "{'x': }{'a':'trunc" +:+ dq "{'u':'==UserScript== function(){}'}"
     +:+ dq "{'tr")
  = Some (harvest (JObj [("u", JStr "==UserScript== function(){}")]) []).
Proof.
  apply (scanner_skips_fragments (dq "{'x': }{'a':'trunc")
           (dq "{'u':'==UserScript== function(){}'}") (dq "{'tr")
           (JObj [("u", JStr "==UserScript== function(){}")]));
    vm_compute; reflexivity.
Defined.

(** C5, as stated, fails: a fragment cut inside a string value shifts the
    scanner's view of what is quoted, the braces it opened close inside
    the well-formed record that follows, the text up to there does not
    decode, and the search resumes behind the record's start.  The record
    alone is found; after the fragment it is lost. *)
Lemma scanner_loses_record_after_fragment :
  let fragment := dq "{'k':'v" in
  let record := dq "{'u':'// ==UserScript== }'}" in
  json_loads record = Some (JObj [("u", JStr "// ==UserScript== }")])
  /\ parse_scripts_from_text record = Some [("u", "// ==UserScript== }")]
  /\ parse_scripts_from_text (fragment +:+ record) = Some []
  /\ scan_loop (scan_fuel (fragment +:+ record)) (fragment +:+ record) 0 []
     = Some ([], [(0, 32)]).
Proof. vm_compute. repeat split. Qed.

(** ** What a run does to the files *)

Lemma user_js_not_manifest slug : slug +:+ ".user.js" <> manifest_name.
Proof.
  intros H. assert (Hlen : String.length slug = 5).
  { apply (f_equal String.length) in H. rewrite length_append in H.
    cbn in H. lia. }
  destruct slug as [|c1 [|c2 [|c3 [|c4 [|c5 [|c6 slug]]]]]]; try discriminate Hlen.
  cbn in H. discriminate H.
Qed.

Lemma script_filename_Ok uuid script name slug :
  slugify_name (script_name (parse_userscript_metadata script) uuid)
    = Ok (name, slug) ->
  script_filename uuid script = Ok (slug +:+ ".user.js").
Proof. unfold script_filename. now intros ->. Qed.

Lemma script_filename_not_manifest uuid script name :
  script_filename uuid script = Ok name -> name <> manifest_name.
Proof.
  unfold script_filename. destruct (slugify_name _) as [[n slug]|e]; [|discriminate].
  cbn. intros [= <-]. apply user_js_not_manifest.
Qed.

(** One turn of the loop leaves every file as it is, except that it may
    write the script to its own file. *)
Lemma export_script_files isoformat acc uuid script w name :
  let w' := (export_script isoformat acc (uuid, script) w).2 in
  files w' !! name = files w !! name
  \/ (script_filename uuid script = Ok name /\ files w' !! name = Some script).
Proof.
  rewrite export_script_eq. unfold export_script_result.
  destruct acc as [[exported added] updated].
  destruct (slugify_name _) as [[n slug]|e] eqn:Hs; [|now left].
  apply script_filename_Ok in Hs.
  assert (Hw : forall t,
    files (World (<[slug +:+ ".user.js" := script]> (files w)) t) !! name
      = files w !! name
    \/ (script_filename uuid script = Ok name
        /\ files (World (<[slug +:+ ".user.js" := script]> (files w)) t) !! name
           = Some script)).
  { intros t. cbn [files]. destruct (decide (slug +:+ ".user.js" = name)) as [<-|Hne].
    - right. split; [exact Hs | apply lookup_insert_eq].
    - left. now apply lookup_insert_ne. }
  destruct (files w !! (slug +:+ ".user.js")) as [content|]; [|apply Hw].
  destruct (String.eqb _ _); [now left | apply Hw].
Qed.

Lemma export_loop_files isoformat scripts acc w name :
  let w' := (foldM (export_script isoformat) scripts acc w).2 in
  files w' !! name = files w !! name
  \/ exists uuid script,
       In (uuid, script) scripts
       /\ script_filename uuid script = Ok name
       /\ files w' !! name = Some script.
Proof.
  revert acc w. induction scripts as [|[uuid script] scripts IH]; intros acc w.
  - now left.
  - cbn zeta. rewrite foldM_cons.
    pose proof (export_script_files isoformat acc uuid script w name) as H1.
    destruct (export_script isoformat acc (uuid, script) w) as [[acc'|e] w1];
      cbn [snd] in H1.
    + destruct (IH acc' w1) as [H2|(u & s & Hin & Hf & H2)].
      * destruct H1 as [H1|[Hf H1]].
        -- left. congruence.
        -- right. exists uuid, script. rewrite H2. cbn. auto.
      * right. exists u, s. cbn. auto.
    + cbn [snd]. destruct H1 as [H1|[Hf H1]]; [now left|].
      right. exists uuid, script. cbn. auto.
Qed.

Lemma update_manifest_files isoformat exported w name :
  name <> manifest_name ->
  files (update_manifest_result isoformat exported w).2 !! name = files w !! name.
Proof.
  intros Hne. unfold update_manifest_result.
  destruct (merged_manifest _ _) as [merged|e]; [|reflexivity].
  destruct (py_setitem _ _ _) as [final|e]; [|reflexivity].
  cbn [snd files]. now apply lookup_insert_ne.
Qed.

Lemma export_userscripts_files isoformat scripts include_manifest w name :
  name <> manifest_name ->
  let w' := (export_userscripts isoformat scripts include_manifest w).2 in
  files w' !! name = files w !! name
  \/ exists uuid script,
       In (uuid, script) scripts
       /\ script_filename uuid script = Ok name
       /\ files w' !! name = Some script.
Proof.
  intros Hne. cbn zeta. rewrite export_userscripts_eq.
  pose proof (export_loop_files isoformat scripts ([], 0, 0) w name) as H.
  cbn zeta in H.
  destruct (foldM _ _ _ w) as [[[[exported added] updated]|e] w1];
    cbn [snd] in H |- *; [|exact H].
  destruct (include_manifest && _); [|exact H].
  pose proof (update_manifest_files isoformat exported w1 name Hne) as H'.
  destruct (update_manifest_result _ _ _) as [[[]|e] w2]; cbn [snd] in *;
    rewrite H'; exact H.
Qed.

(** C2, as amended. After any run, whether it returns or stops on a
    fault, every file that was in the output directory is still there; and
    a file other than the manifest holds what it held, unless a script of
    the new input is exported to that file name, in which case it may hold
    that script's text instead.  Nothing is deleted. *)
Theorem exported_files_kept (isoformat : nat -> string)
    (scripts : list (string * string)) (include_manifest : bool) (w : world)
    (name content : string) :
  files w !! name = Some content ->
  let w' := (export_userscripts isoformat scripts include_manifest w).2 in
  is_Some (files w' !! name)
  /\ (name <> manifest_name ->
      files w' !! name = Some content
      \/ exists uuid script,
           In (uuid, script) scripts
           /\ script_filename uuid script = Ok name
           /\ files w' !! name = Some script).
Proof.
  intros Hfile w'. split.
  - apply export_userscripts_kept. rewrite Hfile. eauto.
  - intros Hne. rewrite <- Hfile.
    exact (export_userscripts_files isoformat scripts include_manifest w name Hne).
Qed.

Lemma exported_files_kept_witness :
  let w := World {[ "foo-bar.user.js" := foo_bar_script ]} 0 in
  let w' := (export_userscripts tick_format [("id2", foo_bar_script')] true w).2 in
  is_Some (files w' !! "foo-bar.user.js")
  /\ ("foo-bar.user.js" <> manifest_name ->
      files w' !! "foo-bar.user.js" = Some foo_bar_script
      \/ exists uuid script,
           In (uuid, script) [("id2", foo_bar_script')]
           /\ script_filename uuid script = Ok "foo-bar.user.js"
           /\ files w' !! "foo-bar.user.js" = Some script).
Proof.
  apply (exported_files_kept tick_format [("id2", foo_bar_script')] true
           (World {[ "foo-bar.user.js" := foo_bar_script ]} 0)
           "foo-bar.user.js" foo_bar_script).
  vm_compute. reflexivity.
Defined.

(** C2, as stated, fails: the file written for [id1] is overwritten by a
    run whose input does not hold [id1] at all, because [id2] declares the
    same name and so is exported to the same file. *)
Lemma other_id_overwrites_exported_file :
  let w1 := (export_userscripts tick_format [("id1", foo_bar_script)] true
               empty_world).2 in
  let w2 := (export_userscripts tick_format [("id2", foo_bar_script')] true
               w1).2 in
  files w1 !! "foo-bar.user.js" = Some foo_bar_script
  /\ dict_get "id1" [("id2", foo_bar_script')] = None
  /\ files w2 !! "foo-bar.user.js" = Some foo_bar_script'
  /\ foo_bar_script' <> foo_bar_script.
Proof. vm_compute. repeat split. discriminate. Qed.

(** ** A second run on the same input *)

Lemma script_filename_inv uuid script name :
  script_filename uuid script = Ok name ->
  exists n slug,
    slugify_name (script_name (parse_userscript_metadata script) uuid)
      = Ok (n, slug)
    /\ name = slug +:+ ".user.js".
Proof.
  unfold script_filename. destruct (slugify_name _) as [[n slug]|e]; [|discriminate].
  cbn. intros [= <-]. eauto.
Qed.

Lemma export_script_unchanged isoformat exported added updated uuid script w :
  exported_now (files w) (uuid, script) ->
  exists entry,
    export_script isoformat (exported, added, updated) (uuid, script) w
    = (Ok (exported ++ [entry], added, updated), World (files w) (S (clock w))).
Proof.
  intros (name & content & Hf & Hc & Hu). cbn [fst snd] in *.
  apply script_filename_inv in Hf as (n & slug & Hs & ->).
  rewrite export_script_eq. unfold export_script_result.
  rewrite Hs, Hc, Hu, String.eqb_refl. eauto.
Qed.

Lemma export_loop_unchanged isoformat scripts exported added updated w :
  Forall (exported_now (files w)) scripts ->
  exists exported',
    foldM (export_script isoformat) scripts (exported, added, updated) w
    = (Ok (exported', added, updated),
       World (files w) (clock w + length scripts)).
Proof.
  revert exported w. induction scripts as [|[uuid script] scripts IH];
    intros exported w Hall.
  - exists exported. cbn. destruct w. cbn. now rewrite Nat.add_0_r.
  - apply Forall_cons in Hall as [Hx Hall].
    destruct (export_script_unchanged isoformat exported added updated _ _ _ Hx)
      as (entry & Hstep).
    rewrite foldM_cons, Hstep.
    destruct (IH (exported ++ [entry]) (World (files w) (S (clock w))) Hall)
      as (exported' & Hloop).
    exists exported'. rewrite Hloop. cbn [files clock length].
    do 2 f_equal. lia.
Qed.

Lemma export_script_now isoformat acc acc' uuid script w w' :
  export_script isoformat acc (uuid, script) w = (Ok acc', w') ->
  universal_newlines script = script ->
  exported_now (files w') (uuid, script).
Proof.
  rewrite export_script_eq. unfold export_script_result.
  destruct acc as [[exported added] updated].
  destruct (slugify_name _) as [[n slug]|e] eqn:Hs; [|discriminate].
  apply script_filename_Ok in Hs. intros H Hu.
  assert (Hw : forall t, exported_now
            (files (World (<[slug +:+ ".user.js" := script]> (files w)) t))
            (uuid, script)).
  { intros t. exists (slug +:+ ".user.js"), script. cbn.
    now rewrite lookup_insert_eq. }
  destruct (files w !! (slug +:+ ".user.js")) as [content|] eqn:Hc.
  - destruct (String.eqb_spec (universal_newlines content) script) as [He|He];
      injection H as _ <-; [|apply Hw].
    exists (slug +:+ ".user.js"), content. cbn. auto.
  - injection H as _ <-. apply Hw.
Qed.

Lemma export_script_still_now isoformat acc uuid script w item :
  exported_now (files w) item ->
  (script_filename (fst item) (snd item) = script_filename uuid script ->
   snd item = script) ->
  universal_newlines script = script ->
  exported_now (files (export_script isoformat acc (uuid, script) w).2) item.
Proof.
  intros (name & content & Hf & Hc & Hu) Hsame Hcr.
  destruct (export_script_files isoformat acc uuid script w name) as [H|[Hf' H]].
  - exists name, content. rewrite H. auto.
  - exists name, script. rewrite H. repeat split; [exact Hf|].
    rewrite Hcr. symmetry. apply Hsame. congruence.
Qed.

Lemma export_loop_still_now isoformat scripts acc w item :
  exported_now (files w) item ->
  (forall uuid script, In (uuid, script) scripts ->
     script_filename (fst item) (snd item) = script_filename uuid script ->
     snd item = script) ->
  (forall uuid script, In (uuid, script) scripts ->
     universal_newlines script = script) ->
  exported_now (files (foldM (export_script isoformat) scripts acc w).2) item.
Proof.
  revert acc w. induction scripts as [|[uuid script] scripts IH];
    intros acc w Hnow Hsame Hcr.
  - exact Hnow.
  - rewrite foldM_cons.
    pose proof (export_script_still_now isoformat acc uuid script w item Hnow
                  (Hsame uuid script (or_introl eq_refl))
                  (Hcr uuid script (or_introl eq_refl))) as H1.
    destruct (export_script isoformat acc (uuid, script) w) as [[acc'|e] w1];
      cbn [snd] in H1; [|exact H1].
    apply IH; [exact H1 | |]; intros u s Hin; [apply Hsame | apply Hcr with u];
      now right.
Qed.

Lemma export_loop_now isoformat scripts acc acc' w w' :
  foldM (export_script isoformat) scripts acc w = (Ok acc', w') ->
  (forall u1 s1 u2 s2, In (u1, s1) scripts -> In (u2, s2) scripts ->
     script_filename u1 s1 = script_filename u2 s2 -> s1 = s2) ->
  (forall uuid script, In (uuid, script) scripts ->
     universal_newlines script = script) ->
  Forall (exported_now (files w')) scripts.
Proof.
  revert acc w. induction scripts as [|[uuid script] scripts IH];
    intros acc w Hrun Hsame Hcr.
  - constructor.
  - rewrite foldM_cons in Hrun.
    destruct (export_script isoformat acc (uuid, script) w) as [[acc1|e] w1] eqn:E;
      [|discriminate].
    constructor.
    + pose proof (export_loop_still_now isoformat scripts acc1 w1 (uuid, script))
        as H. rewrite Hrun in H. apply H.
      * exact (export_script_now _ _ _ _ _ _ _ E (Hcr _ _ (or_introl eq_refl))).
      * intros u s Hin. apply (Hsame uuid script u s); [now left | now right].
      * intros u s Hin. apply (Hcr u s). now right.
    + apply (IH acc1 w1 Hrun).
      * intros u1 s1 u2 s2 H1 H2. apply (Hsame u1 s1 u2 s2); now right.
      * intros u s Hin. apply (Hcr u s). now right.
Qed.

Lemma update_manifest_still_now isoformat exported w item :
  exported_now (files w) item ->
  exported_now (files (update_manifest_result isoformat exported w).2) item.
Proof.
  intros (name & content & Hf & Hc & Hu). exists name, content.
  rewrite update_manifest_files; [auto|].
  exact (script_filename_not_manifest _ _ _ Hf).
Qed.

(** C1, as amended. Let the texts of the input hold no carriage return,
    and let scripts that are exported to the same file name have the same
    text.  Then, after a run that returns, a second run on the same input
    returns too, reports [added = 0] and [updated = 0], and leaves every
    file of the output directory, the manifest among them, exactly as the
    first run left it. *)
Theorem second_run_changes_nothing (isoformat : nat -> string)
    (scripts : list (string * string)) (include_manifest : bool)
    (w w1 : world) (result : list json * nat * nat * nat) :
  (forall uuid script, In (uuid, script) scripts ->
     universal_newlines script = script) ->
  (forall u1 s1 u2 s2, In (u1, s1) scripts -> In (u2, s2) scripts ->
     script_filename u1 s1 = script_filename u2 s2 -> s1 = s2) ->
  export_userscripts isoformat scripts include_manifest w = (Ok result, w1) ->
  exists exported,
    export_userscripts isoformat scripts include_manifest w1
    = (Ok (exported, 0, 0, 0), World (files w1) (clock w1 + length scripts)).
Proof.
  intros Hcr Hsame Hrun.
  assert (Hnow : Forall (exported_now (files w1)) scripts).
  { rewrite export_userscripts_eq in Hrun.
    destruct (foldM _ _ _ w) as [[[[exported added] updated]|e] wl] eqn:Hloop;
      [|discriminate].
    pose proof (export_loop_now _ _ _ _ _ _ Hloop Hsame Hcr) as Hl.
    destruct (include_manifest && _).
    - pose proof (fun item => update_manifest_still_now isoformat exported wl item)
        as Hm.
      destruct (update_manifest_result _ _ _) as [[[]|e] w2]; [|discriminate].
      injection Hrun as _ <-. cbn [snd] in Hm.
      eapply Forall_impl; [exact Hl | exact Hm].
    - now injection Hrun as _ <-. }
  destruct (export_loop_unchanged isoformat scripts [] 0 0 w1 Hnow)
    as (exported & Hloop).
  exists exported. rewrite export_userscripts_eq, Hloop.
  cbn. now rewrite andb_false_r.
Qed.

Lemma second_run_changes_nothing_witness :
  exists exported,
    export_userscripts tick_format [("id1", foo_bar_script)] true
      (export_userscripts tick_format [("id1", foo_bar_script)] true
         empty_world).2
    = (Ok (exported, 0, 0, 0),
       World (files (export_userscripts tick_format [("id1", foo_bar_script)]
                       true empty_world).2)
         (clock (export_userscripts tick_format [("id1", foo_bar_script)]
                   true empty_world).2 + length [("id1", foo_bar_script)])).
Proof.
  apply (second_run_changes_nothing tick_format [("id1", foo_bar_script)] true
           empty_world _ ([foo_bar_entry "T0"], 1, 0, 0)).
  - intros uuid script [[= <- <-]|[]]. vm_compute. reflexivity.
  - intros u1 s1 u2 s2 [[= <- <-]|[]] [[= <- <-]|[]] _. reflexivity.
  - vm_compute. reflexivity.
Defined.

(** C1, as stated, fails: two ids whose scripts declare the same name are
    exported to one file, each run writes the first text and then the
    second over it, and the second run reports two updates. *)
Lemma colliding_names_update_again :
  let scripts := [("id1", foo_bar_script); ("id2", foo_bar_script')] in
  let run1 := export_userscripts tick_format scripts true empty_world in
  let run2 := export_userscripts tick_format scripts true run1.2 in
  run_counts run1 = Some (1, 1, 0)
  /\ run_counts run2 = Some (0, 2, 0)
  /\ script_filename "id1" foo_bar_script = Ok "foo-bar.user.js"
  /\ script_filename "id2" foo_bar_script' = Ok "foo-bar.user.js".
Proof. vm_compute. repeat split. Qed.

(** A text with a carriage return is written as it is and read back with a
    line feed in its place, so every run finds the file changed. *)
Example carriage_return_updates_again :
  let script := foo_bar_script +:+ String carriage_return (String newline "x") in
  let run1 := export_userscripts tick_format [("id1", script)] false empty_world in
  let run2 := export_userscripts tick_format [("id1", script)] false run1.2 in
  run_counts run1 = Some (1, 0, 0) /\ run_counts run2 = Some (0, 1, 0).
Proof. vm_compute. split; reflexivity. Qed.

(** ** The manifest merge *)

Lemma dict_get_set_eq {V : Type} (k : string) (v : V) d :
  dict_get k (dict_set k v d) = Some v.
Proof. now rewrite dict_get_set, String.eqb_refl. Qed.

Lemma dict_set_set {V : Type} (k : string) (v1 v2 : V) d :
  dict_set k v2 (dict_set k v1 d) = dict_set k v2 d.
Proof.
  induction d as [|[k0 v0] d IH]; simpl.
  - now rewrite String.eqb_refl.
  - destruct (String.eqb k0 k) eqn:E; simpl; rewrite E; [reflexivity|].
    now rewrite IH.
Qed.

Lemma dict_set_same {V : Type} (k : string) (v : V) d :
  dict_get k d = Some v -> dict_set k v d = d.
Proof.
  induction d as [|[k0 v0] d IH]; simpl; [discriminate|].
  destruct (String.eqb k0 k); [now intros [= ->] | intros H; now rewrite IH].
Qed.

Lemma map_outcome_replace uuid exp rows :
  Forall has_uuid rows ->
  map_outcome (replace_row uuid exp) rows
  = Ok (map (fun s => if row_has_uuid uuid s then exp else s) rows).
Proof.
  induction 1 as [|row rows [v Hv] _ IH]; [reflexivity|].
  cbn [map_outcome map]. rewrite IH. unfold row_has_uuid, replace_row.
  rewrite Hv. reflexivity.
Qed.

Lemma merge_entry_eq existing members rows exp uuid :
  py_getitem exp "uuid" = Ok (JStr uuid) ->
  dict_get "scripts" members = Some (JArr rows) ->
  Forall has_uuid rows ->
  merge_entry existing (JObj members) exp
  = Ok (JObj (dict_set "scripts" (JArr (merge_rows existing rows uuid exp))
                members)).
Proof.
  intros Hu Hs Hrows. unfold merge_entry, merge_rows. rewrite Hu.
  cbn [mbind outcome_bind py_getitem]. rewrite Hs.
  destruct (existsb (is_uuid uuid) existing);
    cbn [mbind outcome_bind py_iter py_append py_setitem].
  - rewrite (map_outcome_replace _ _ _ Hrows). reflexivity.
  - reflexivity.
Qed.

Lemma merge_rows_has_uuid existing rows uuid exp :
  has_uuid exp -> Forall has_uuid rows ->
  Forall has_uuid (merge_rows existing rows uuid exp).
Proof.
  intros He Hrows. unfold merge_rows. destruct (existsb _ _).
  - apply Forall_map. eapply Forall_impl; [exact Hrows|].
    intros s Hs. cbn. now destruct (row_has_uuid uuid s).
  - apply Forall_app. split; [exact Hrows | now constructor].
Qed.

Lemma merge_fold_eq existing exported members rows :
  Forall has_str_uuid exported ->
  dict_get "scripts" members = Some (JArr rows) ->
  Forall has_uuid rows ->
  fold_outcome (merge_entry existing) exported (JObj members)
  = Ok (JObj (dict_set "scripts"
                (JArr (fold_left (merge_row existing) exported rows)) members)).
Proof.
  intros Hex. revert members rows.
  induction Hex as [|exp exported [uuid Hu] _ IH]; intros members rows Hs Hrows.
  - cbn. now rewrite (dict_set_same _ _ _ Hs).
  - cbn [fold_outcome fold_left].
    assert (Hmr : merge_row existing rows exp = merge_rows existing rows uuid exp)
      by (unfold merge_row; now rewrite Hu).
    rewrite Hmr, (merge_entry_eq _ _ _ _ _ Hu Hs Hrows).
    cbn [mbind outcome_bind].
    rewrite (IH _ (merge_rows existing rows uuid exp)).
    + now rewrite dict_set_set.
    + apply dict_get_set_eq.
    + apply merge_rows_has_uuid; [now exists (JStr uuid) | exact Hrows].
Qed.

Lemma map_outcome_uuids rows existing :
  map_outcome row_uuid rows = Ok existing ->
  Forall2 (fun s u => py_getitem s "uuid" = Ok u) rows existing.
Proof.
  revert existing. induction rows as [|row rows IH]; intros existing H.
  - cbn in H. injection H as <-. constructor.
  - cbn [map_outcome] in H.
    destruct (row_uuid row) as [u|e] eqn:Hu; cbn [mbind outcome_bind] in H;
      [|discriminate].
    destruct (map_outcome row_uuid rows) as [us|e] eqn:Hus;
      cbn [mbind outcome_bind] in H; [|discriminate].
    injection H as <-. constructor; [|now apply IH].
    unfold row_uuid in Hu.
    destruct (py_getitem row "uuid") as [v|]; cbn in Hu; [|discriminate].
    destruct (py_hashable v); cbn in Hu; [|discriminate]. congruence.
Qed.

Lemma existing_has_uuid rows existing uuid :
  Forall2 (fun s u => py_getitem s "uuid" = Ok u) rows existing ->
  existsb (is_uuid uuid) existing = existsb (row_has_uuid uuid) rows
  /\ Forall has_uuid rows.
Proof.
  induction 1 as [|row u rows existing Hu _ [IH1 IH2]]; [split; [reflexivity|constructor]|].
  split.
  - cbn [existsb]. unfold row_has_uuid at 1. now rewrite Hu, IH1.
  - constructor; [now exists u | exact IH2].
Qed.

Lemma merge_entry_shape existing members exp merged :
  merge_entry existing (JObj members) exp = Ok merged ->
  exists scripts, dict_get "scripts" members = Some scripts
    /\ (existsb (fun _ => true) existing = false -> exists rows, scripts = JArr rows).
Proof.
  unfold merge_entry. unfold mbind, outcome_bind. cbn [py_getitem].
  destruct (py_getitem exp "uuid") as [[| | |uuid| |]|]; try discriminate.
  destruct (dict_get "scripts" members) as [scripts|];
    [|destruct (existsb _ _); discriminate].
  intros H. exists scripts. split; [reflexivity|]. intros Hex.
  assert (He : existsb (is_uuid uuid) existing = false).
  { destruct existing; [reflexivity | discriminate Hex]. }
  rewrite He in H. destruct scripts; try discriminate H. eauto.
Qed.

(** A manifest into which an entry merges holds a list of rows that all
    have an id. *)
Lemma merged_manifest_shape exp exported manifest merged :
  merged_manifest (exp :: exported) manifest = Ok merged ->
  exists members rows existing,
    manifest = JObj members
    /\ dict_get "scripts" members = Some (JArr rows)
    /\ existing_uuids manifest = Ok existing
    /\ Forall2 (fun s u => py_getitem s "uuid" = Ok u) rows existing.
Proof.
  unfold merged_manifest. unfold mbind at 1, outcome_bind at 1.
  destruct (existing_uuids manifest) as [existing|e] eqn:He; [|discriminate].
  cbn [fold_outcome]. unfold mbind at 1, outcome_bind at 1.
  destruct (merge_entry existing manifest exp) as [m1|e] eqn:Hm; [|discriminate].
  intros _. unfold existing_uuids in He. unfold mbind, outcome_bind in He.
  destruct manifest as [| | | | |members]; try discriminate He.
  apply merge_entry_shape in Hm as (scripts & Hs & Hrows).
  cbn [py_get] in He. rewrite Hs in He.
  assert (Harr : exists rows, scripts = JArr rows).
  { destruct scripts as [| | |s|rows|ms]; try discriminate He; [|eauto|].
    - cbn [py_iter] in He. apply Hrows.
      destruct (list_ascii_of_string s); cbn in He; [|discriminate].
      now injection He as <-.
    - cbn [py_iter] in He. apply Hrows.
      destruct ms; cbn in He; [|discriminate]. now injection He as <-. }
  destruct Harr as [rows ->]. cbn [py_iter] in He.
  exists members, rows, existing.
  split; [reflexivity|]. split; [exact Hs|]. split; [reflexivity|].
  now apply map_outcome_uuids.
Qed.
(** ** The rows of the merged manifest *)








(** ** The entries a run exports *)

Lemma export_script_entry isoformat exported added updated item w acc' w' :
  export_script isoformat (exported, added, updated) item w = (Ok acc', w') ->
  exists entry added' updated',
    entry_at isoformat (clock w) item = Ok entry
    /\ acc' = (exported ++ [entry], added', updated')
    /\ clock w' = S (clock w).
Proof.
  rewrite export_script_eq. unfold export_script_result, entry_at.
  destruct item as [uuid script]. cbn [fst snd].
  destruct (slugify_name _) as [[n slug]|e]; [|discriminate].
  cbn [mbind outcome_bind fst snd].
  destruct (files w !! _) as [content|];
    [destruct (String.eqb _ _)|]; intros [= <- <-]; eauto 6.
Qed.

Lemma export_loop_entries isoformat scripts exported added updated w acc' w' :
  foldM (export_script isoformat) scripts (exported, added, updated) w
    = (Ok acc', w') ->
  exists entries added' updated',
    entries_from isoformat (clock w) scripts = Ok entries
    /\ acc' = (exported ++ entries, added', updated')
    /\ clock w' = clock w + length scripts.
Proof.
  revert exported added updated w.
  induction scripts as [|item scripts IH]; intros exported added updated w H.
  - cbn in H. injection H as <- <-. exists [], added, updated.
    now rewrite app_nil_r, Nat.add_0_r.
  - rewrite foldM_cons in H.
    destruct (export_script isoformat (exported, added, updated) item w)
      as [[acc1|e] w1] eqn:E; [|discriminate].
    apply export_script_entry in E as (entry & a1 & u1 & He & -> & Hc).
    apply IH in H as (entries & a2 & u2 & Hes & -> & Hc').
    exists (entry :: entries), a2, u2. cbn [entries_from]. rewrite He.
    cbn [mbind outcome_bind]. rewrite <- Hc, Hes. cbn [mbind outcome_bind].
    repeat split; [now rewrite <- app_assoc | cbn [length]; lia].
Qed.


Lemma entry_at_uuid isoformat t item entry :
  entry_at isoformat t item = Ok entry ->
  py_getitem entry "uuid" = Ok (JStr (fst item)).
Proof.
  unfold entry_at. destruct (slugify_name _); [|discriminate].
  now intros [= <-].
Qed.


Lemma export_loop_manifest isoformat scripts acc w :
  files (foldM (export_script isoformat) scripts acc w).2 !! manifest_name
  = files w !! manifest_name.
Proof.
  destruct (export_loop_files isoformat scripts acc w manifest_name)
    as [H|(u & s & _ & Hf & _)]; [exact H|].
  now apply script_filename_not_manifest in Hf.
Qed.

(** The manifest file after a run that returns. *)
Lemma export_userscripts_manifest isoformat scripts include_manifest w w'
    exported added updated removed :
  export_userscripts isoformat scripts include_manifest w
    = (Ok (exported, added, updated, removed), w') ->
  entries_from isoformat (clock w) scripts = Ok exported
  /\ if include_manifest && ((0 <? added) || (0 <? updated))
     then exists merged final,
         merged_manifest exported
           (loaded_manifest (isoformat (clock w + length scripts)) (files w))
           = Ok merged
         /\ py_setitem merged "last_updated"
              (JStr (isoformat (S (clock w + length scripts)))) = Ok final
         /\ files w' !! manifest_name = Some (json_dumps final)
     else files w' !! manifest_name = files w !! manifest_name.
Proof.
  rewrite export_userscripts_eq.
  pose proof (export_loop_manifest isoformat scripts ([], 0, 0) w) as Hm.
  destruct (foldM _ _ _ w) as [[[[exported1 added1] updated1]|e] w1] eqn:Hloop;
    [|discriminate].
  apply export_loop_entries in Hloop as (entries & a & u & Hes & [= -> -> ->] & Hc).
  cbn [snd] in Hm. cbn [app].
  destruct (include_manifest && _) eqn:Hbranch.
  - unfold update_manifest_result.
    assert (Hl : loaded_manifest (isoformat (clock w1)) (files w1)
               = loaded_manifest (isoformat (clock w + length scripts)) (files w)).
    { unfold loaded_manifest. now rewrite Hm, Hc. }
    rewrite Hl. destruct (merged_manifest _ _) as [merged|e] eqn:Hmg; [|discriminate].
    rewrite Hc. destruct (py_setitem _ _ _) as [final|e] eqn:Hfin; [|discriminate].
    intros [= <- <- <- <- <-]. rewrite Hbranch. split; [exact Hes|].
    exists merged, final. cbn [files]. rewrite lookup_insert_eq. auto.
  - intros [= <- <- <- <- <-]. rewrite Hbranch. auto.
Qed.
(** ** A manifest that is missing or does not decode is replaced *)

Lemma entries_from_str_uuid isoformat t scripts entries :
  entries_from isoformat t scripts = Ok entries -> Forall has_str_uuid entries.
Proof.
  revert t entries. induction scripts as [|x scripts IH]; intros t entries H.
  - injection H as <-. constructor.
  - cbn [entries_from] in H.
    destruct (entry_at isoformat t x) as [e|] eqn:He; [|discriminate].
    cbn [mbind outcome_bind] in H.
    destruct (entries_from isoformat (S t) scripts) as [es|] eqn:Hes; [|discriminate].
    injection H as <-. constructor; [|exact (IH _ _ Hes)].
    exists (fst x). exact (entry_at_uuid _ _ _ _ He).
Qed.

Lemma merge_fold_fresh exported rows :
  Forall has_str_uuid exported ->
  fold_left (merge_row []) exported rows = rows ++ exported.
Proof.
  intros H. revert rows.
  induction H as [|e es [u Hu] _ IH]; intros rows; cbn [fold_left].
  - now rewrite app_nil_r.
  - rewrite IH. unfold merge_row. rewrite Hu. unfold merge_rows.
    cbn [existsb]. now rewrite <- app_assoc.
Qed.

(** The part of C3 that holds.  When [manifest.json] is missing, or holds a
    text within the limits of the decoder's model that does not decode, a
    run that adds or updates a script starts from the empty manifest and
    writes a fresh one: the rows are the entries of this run, and no fault
    comes from the manifest. *)
Lemma undecodable_manifest_replaced (isoformat : nat -> string)
    (scripts : list (string * string)) (w w1 : world)
    (exported : list json) (added updated : nat) :
  foldM (export_script isoformat) scripts ([], 0, 0) w
    = (Ok (exported, added, updated), w1) ->
  0 < added + updated ->
  match files w !! manifest_name with
  | Some content =>
      within_limits (universal_newlines content) = true
      /\ json_loads (universal_newlines content) = None
  | None => True
  end ->
  export_userscripts isoformat scripts true w
  = (Ok (exported, added, updated, 0),
     World (<[manifest_name :=
                json_dumps (JObj [("scripts", JArr exported);
                                  ("last_updated",
                                   JStr (isoformat (S (clock w1))))])]>
              (files w1))
       (S (S (clock w1)))).
Proof.
  intros Hloop Hchg Hman. rewrite export_userscripts_eq, Hloop.
  assert (Hc : true && ((0 <? added) || (0 <? updated)) = true).
  { destruct added; [destruct updated; [lia|]|]; reflexivity. }
  rewrite Hc. clear Hc.
  pose proof (export_loop_manifest isoformat scripts ([], 0, 0) w) as Hm.
  rewrite Hloop in Hm. cbn [snd] in Hm.
  destruct (export_loop_entries _ _ _ _ _ _ _ _ Hloop)
    as (entries & added' & updated' & Hent & Hacc & _).
  injection Hacc as -> _ _. cbn [app] in *.
  apply entries_from_str_uuid in Hent.
  unfold update_manifest_result.
  assert (Hfresh : loaded_manifest (isoformat (clock w1)) (files w1)
                   = JObj [("scripts", JArr []);
                           ("last_updated", JStr (isoformat (clock w1)))]).
  { unfold loaded_manifest. rewrite Hm.
    destruct (files w !! manifest_name) as [content|]; [|reflexivity].
    destruct Hman as [_ ->]. reflexivity. }
  rewrite Hfresh. unfold merged_manifest.
  assert (He : existing_uuids
                 (JObj [("scripts", JArr []);
                        ("last_updated", JStr (isoformat (clock w1)))])
               = Ok []) by reflexivity.
  rewrite He. cbn [mbind outcome_bind].
  rewrite (merge_fold_eq [] entries _ []); [|exact Hent|reflexivity|constructor].
  rewrite (merge_fold_fresh _ _ Hent). reflexivity.
Qed.

Example undecodable_manifest_example :
  let run := export_userscripts tick_format [("id1", foo_bar_script)] true
               (World {[ manifest_name := "{oops" ]} 0) in
  run.1 = Ok ([foo_bar_entry "T0"], 1, 0, 0)
  /\ (json_loads <$> files run.2 !! manifest_name)
     = Some (Some (JObj [("scripts", JArr [foo_bar_entry "T0"]);
                         ("last_updated", JStr "T2")])).
Proof. vm_compute. repeat split. Qed.

Lemma dict_get_set_ne {V : Type} (k k' : string) (v : V) d :
  k <> k' -> dict_get k' (dict_set k v d) = dict_get k' d.
Proof. intros H. rewrite dict_get_set. now apply String.eqb_neq in H as ->. Qed.

Lemma export_userscripts_nil isoformat include_manifest w :
  export_userscripts isoformat [] include_manifest w = (Ok ([], 0, 0, 0), w).
Proof. rewrite export_userscripts_eq. cbn. now rewrite andb_false_r. Qed.



(** The unchanged script of this run gets a fresh row all the same. *)
Example unchanged_row_rewritten :
  let run := export_userscripts tick_format
               [("id1", foo_bar_script); ("id2", baz_script)] true listed_world in
  run_counts run = Some (1, 0, 0)
  /\ files run.2 !! "foo-bar.user.js" = files listed_world !! "foo-bar.user.js"
  /\ (json_loads <$> files run.2 !! manifest_name)
     = Some (Some (JObj [("scripts",
                          JArr [foo_bar_entry "T0"; old_row "id0"; baz_entry "T1"]);
                         ("last_updated", JStr "T3")])).
Proof. vm_compute. repeat split. Qed.

(** C6. Let the manifest on disk decode to an object whose [scripts] list
    is [[A; B]], rows with the distinct ids [a] and [b], and let the input
    hold exactly [a] and a third id [c], in either order.  If the run
    returns having added or updated something, it exported an entry [A']
    for [a] and an entry [C] for [c], and the manifest it writes is the
    loaded object with [scripts] set to [[A'; B; C]] -- [A'] in the place
    of [A], [B] untouched, [C] appended -- and [last_updated] refreshed. *)
Theorem manifest_merge_in_place (isoformat : nat -> string) (w w' : world)
    (a b c sa sc content : string) (A B : json)
    (members : list (string * json)) (scripts : list (string * string))
    (exported : list json) (added updated removed : nat) :
  a <> b -> c <> a -> c <> b ->
  files w !! manifest_name = Some content ->
  json_loads (universal_newlines content) = Some (JObj members) ->
  dict_get "scripts" members = Some (JArr [A; B]) ->
  py_getitem A "uuid" = Ok (JStr a) ->
  py_getitem B "uuid" = Ok (JStr b) ->
  scripts = [(a, sa); (c, sc)] \/ scripts = [(c, sc); (a, sa)] ->
  export_userscripts isoformat scripts true w
    = (Ok (exported, added, updated, removed), w') ->
  0 < added + updated ->
  exists A' C,
    (exported = [A'; C] \/ exported = [C; A'])
    /\ py_getitem A' "uuid" = Ok (JStr a)
    /\ py_getitem C "uuid" = Ok (JStr c)
    /\ files w' !! manifest_name
       = Some (json_dumps
                 (JObj (dict_set "last_updated" (JStr (isoformat (clock w + 3)))
                          (dict_set "scripts" (JArr [A'; B; C]) members)))).
Proof.
  intros Hab Hca Hcb Hfile Hjson Hs HA HB Hscripts Hrun Hpos.
  pose proof (export_userscripts_manifest _ _ _ _ _ _ _ _ _ Hrun) as [Hes Hbranch].
  assert (Hg : (0 <? added) || (0 <? updated) = true).
  { destruct added; [destruct updated; [lia | reflexivity] | reflexivity]. }
  rewrite Hg in Hbranch. cbn [andb] in Hbranch.
  destruct Hbranch as (merged & final & Hmg & Hfin & Hw').
  assert (Hl : forall t, loaded_manifest t (files w) = JObj members).
  { intros t. unfold loaded_manifest. now rewrite Hfile, Hjson. }
  rewrite Hl in Hmg.
  assert (Hexisting : existing_uuids (JObj members) = Ok [JStr a; JStr b]).
  { unfold existing_uuids. cbn [py_get mbind outcome_bind]. rewrite Hs.
    cbn [py_iter map_outcome mbind outcome_bind]. unfold row_uuid.
    rewrite HA, HB. reflexivity. }
  assert (Hrows : Forall has_uuid [A; B]).
  { repeat constructor; [now exists (JStr a) | now exists (JStr b)]. }
  unfold merged_manifest in Hmg. rewrite Hexisting in Hmg.
  cbn [mbind outcome_bind] in Hmg.
  assert (Hlen : length scripts = 2) by (destruct Hscripts as [->| ->]; reflexivity).
  assert (Hba : String.eqb b a = false) by (apply String.eqb_neq; congruence).
  assert (Hac : String.eqb a c = false) by (apply String.eqb_neq; congruence).
  assert (Hbc : String.eqb b c = false) by (apply String.eqb_neq; congruence).
  assert (Hca' : String.eqb c a = false) by now apply String.eqb_neq.
  assert (Hentries : exists A' C,
            (exported = [A'; C] \/ exported = [C; A'])
            /\ py_getitem A' "uuid" = Ok (JStr a)
            /\ py_getitem C "uuid" = Ok (JStr c)).
  { destruct Hscripts as [-> | ->]; cbn [entries_from] in Hes;
      destruct (entry_at isoformat (clock w) _) as [e1|] eqn:H1; try discriminate;
      destruct (entry_at isoformat (S (clock w)) _) as [e2|] eqn:H2;
      try discriminate; injection Hes as <-;
      apply entry_at_uuid in H1, H2; cbn [fst] in H1, H2.
    - exists e1, e2. auto.
    - exists e2, e1. auto. }
  destruct Hentries as (A' & C & Hexp & HA' & HC).
  exists A', C. repeat split; try assumption.
  assert (Hstr : Forall has_str_uuid exported).
  { destruct Hexp as [-> | ->]; repeat constructor;
      [now exists a | now exists c | now exists c | now exists a]. }
  rewrite (merge_fold_eq _ _ _ _ Hstr Hs Hrows) in Hmg. injection Hmg as <-.
  cbn [py_setitem] in Hfin. injection Hfin as <-.
  rewrite Hw', Hlen. do 5 f_equal.
  { rewrite <- Nat.add_succ_r. reflexivity. }
  f_equal. f_equal.
  destruct Hexp as [-> | ->]; cbn [fold_left]; unfold merge_row;
    rewrite ?HA', ?HC; unfold merge_rows; cbn [existsb is_uuid map app];
    unfold row_has_uuid; rewrite ?HA, ?HB, ?HC, ?HA'; cbn [is_uuid];
    rewrite ?String.eqb_refl, ?Hba, ?Hac, ?Hbc, ?Hca'; cbn [orb map app];
    unfold row_has_uuid; rewrite ?HA, ?HB, ?HC, ?HA'; cbn [is_uuid];
    rewrite ?String.eqb_refl, ?Hba, ?Hac, ?Hbc, ?Hca'; reflexivity.
Qed.

Lemma manifest_merge_in_place_witness :
  exists A' C,
    ([foo_bar_entry "T0"; baz_entry "T1"] = [A'; C]
     \/ [foo_bar_entry "T0"; baz_entry "T1"] = [C; A'])
    /\ py_getitem A' "uuid" = Ok (JStr "id1")
    /\ py_getitem C "uuid" = Ok (JStr "id2")
    /\ files (export_userscripts tick_format
                [("id1", foo_bar_script); ("id2", baz_script)] true
                listed_world).2 !! manifest_name
       = Some (json_dumps
                 (JObj (dict_set "last_updated"
                          (JStr (tick_format (clock listed_world + 3)))
                          (dict_set "scripts" (JArr [A'; old_row "id0"; C])
                             [("scripts", JArr [old_row "id1"; old_row "id0"]);
                              ("last_updated", JStr "T")])))).
Proof.
  apply (manifest_merge_in_place tick_format listed_world _
           "id1" "id0" "id2" foo_bar_script baz_script
           (json_dumps (JObj [("scripts", JArr [old_row "id1"; old_row "id0"]);
                              ("last_updated", JStr "T")]))
           (old_row "id1") (old_row "id0")
           [("scripts", JArr [old_row "id1"; old_row "id0"]);
            ("last_updated", JStr "T")]
           [("id1", foo_bar_script); ("id2", baz_script)]
           [foo_bar_entry "T0"; baz_entry "T1"] 1 0 0);
    try discriminate; try (vm_compute; reflexivity); try (now left); lia.
Defined.


(** ** The decoder reads back what the encoder writes *)

Lemma append_assoc (a b c : string) : (a +:+ b) +:+ c = a +:+ (b +:+ c).
Proof. induction a as [|x a IH]; simpl; [reflexivity | now rewrite IH]. Qed.

Lemma append_nil_r (a : string) : a +:+ "" = a.
Proof. induction a as [|x a IH]; simpl; [reflexivity | now rewrite IH]. Qed.


(** More fuel never changes a result. *)
Lemma decoder_mono fuel :
  (forall s r fuel', scan_once fuel s = Some r -> fuel <= fuel' ->
     scan_once fuel' s = Some r)
  /\ (forall s pairs r fuel', object_members fuel s pairs = Some r ->
        fuel <= fuel' -> object_members fuel' s pairs = Some r)
  /\ (forall s values r fuel', array_items fuel s values = Some r ->
        fuel <= fuel' -> array_items fuel' s values = Some r).
Proof.
  induction fuel as [|fuel (IHv & IHo & IHa)]; [repeat split; discriminate|].
  repeat split.
  - intros s r fuel' H Hle. destruct fuel' as [|fuel']; [lia|].
    cbn [scan_once] in *. destruct s as [|c s']; [discriminate|].
    destruct (c =? dquote)%char; [exact H|].
    destruct (c =? "{")%char.
    { destruct (skip_ws s') as [|c1 s1]; [discriminate|].
      destruct (c1 =? dquote)%char; [apply (IHo _ _ _ _ H); lia | exact H]. }
    destruct (c =? "[")%char; [|exact H].
    destruct (skip_ws s') as [|c1 s1]; [discriminate|].
    destruct (c1 =? "]")%char; [exact H|]. apply (IHa _ _ _ _ H); lia.
  - intros s pairs r fuel' H Hle. destruct fuel' as [|fuel']; [lia|].
    cbn [object_members] in *.
    destruct (scanstring s) as [[key s1]|]; [|discriminate].
    destruct (skip_ws s1) as [|c s2]; [discriminate|].
    destruct (c =? ":")%char; [|discriminate].
    destruct (scan_once fuel (skip_ws s2)) as [[value s3]|] eqn:Ev; [|discriminate].
    rewrite (IHv _ _ fuel' Ev) by lia.
    destruct (skip_ws s3) as [|c1 s4]; [discriminate|].
    destruct (c1 =? "}")%char; [exact H|].
    destruct (c1 =? ",")%char; [|discriminate].
    destruct (skip_ws s4) as [|c2 s5]; [discriminate|].
    destruct (c2 =? dquote)%char; [|discriminate].
    apply (IHo _ _ _ _ H); lia.
  - intros s values r fuel' H Hle. destruct fuel' as [|fuel']; [lia|].
    cbn [array_items] in *.
    destruct (scan_once fuel s) as [[value s1]|] eqn:Ev; [|discriminate].
    rewrite (IHv _ _ fuel' Ev) by lia.
    destruct (skip_ws s1) as [|c s2]; [discriminate|].
    destruct (c =? "]")%char; [exact H|].
    destruct (c =? ",")%char; [|discriminate].
    apply (IHa _ _ _ _ H); lia.
Qed.

(** *** Strings *)

Lemma scanstring_escape_char c rest :
  scanstring (escape_char c +:+ rest) = cons_char c (scanstring rest).
Proof.
  destruct c as [[] [] [] [] [] [] [] []]; reflexivity.
Qed.

Lemma scanstring_escape_string s rest :
  scanstring (escape_string s +:+ String dquote rest) = Some (s, rest).
Proof.
  induction s as [|c s IH]; [reflexivity|].
  cbn [escape_string]. rewrite append_assoc, scanstring_escape_char, IH.
  reflexivity.
Qed.

Lemma encode_string_append s rest :
  encode_string s +:+ rest
  = String dquote (escape_string s +:+ String dquote rest).
Proof.
  unfold encode_string. cbn [String.append]. now rewrite append_assoc.
Qed.

(** *** Numbers *)

Lemma length_take_while cls s :
  String.length (take_while cls s) <= String.length s.
Proof.
  induction s as [|c s IH]; cbn [take_while]; [lia|].
  destruct (cls c); cbn [String.length]; lia.
Qed.

Lemma take_while_append cls a rest :
  head_not cls rest = true ->
  take_while cls (a +:+ rest) = take_while cls a.
Proof.
  intros Hrest. induction a as [|c a IH]; cbn [String.append take_while].
  - destruct rest as [|c r]; [reflexivity|]. cbn [take_while head_not] in *.
    now destruct (cls c).
  - destruct (cls c); [now rewrite IH | reflexivity].
Qed.

Lemma str_drop_append_le n a rest :
  n <= String.length a -> str_drop n (a +:+ rest) = str_drop n a +:+ rest.
Proof.
  revert a. induction n as [|n IH]; intros a Hn.
  - now destruct a.
  - destruct a as [|c a]; cbn [String.length] in Hn; [lia|].
    cbn [String.append str_drop]. apply IH. lia.
Qed.

Lemma take_while_split cls s :
  s = take_while cls s +:+ str_drop (String.length (take_while cls s)) s.
Proof.
  induction s as [|c s IH]; [reflexivity|]. cbn [take_while].
  destruct (cls c); [|reflexivity].
  cbn [String.length str_drop String.append]. now rewrite <- IH.
Qed.

Lemma take_while_rest cls s :
  head_not cls (str_drop (String.length (take_while cls s)) s) = true.
Proof.
  induction s as [|c s IH]; [reflexivity|]. cbn [take_while].
  destruct (cls c) eqn:E; [exact IH|]. cbn. now rewrite E.
Qed.

Lemma take_while_idem cls s :
  take_while cls (take_while cls s) = take_while cls s.
Proof.
  induction s as [|c s IH]; [reflexivity|]. cbn [take_while].
  destruct (cls c) eqn:E; [|reflexivity]. cbn [take_while]. now rewrite E, IH.
Qed.

Lemma digits1_append a rest :
  head_not is_digit rest = true ->
  digits1 (a +:+ rest) = followed_by rest <$> digits1 a.
Proof.
  intros Hrest. unfold digits1. rewrite (take_while_append _ _ _ Hrest).
  pose proof (length_take_while is_digit a) as Hlen.
  destruct (take_while is_digit a) as [|d ds] eqn:E; [reflexivity|].
  cbn [fmap option_fmap option_map]. unfold followed_by. cbn [fst snd].
  now rewrite str_drop_append_le.
Qed.

Lemma value_end_head_not cls rest :
  value_end rest = true -> cls ","%char = false -> cls newline = false ->
  head_not cls rest = true.
Proof.
  destruct rest as [|c r]; [reflexivity|]. cbn [value_end head_not].
  intros H H1 H2. apply orb_true_iff in H as [H|H]; apply Ascii.eqb_eq in H;
    subst c; [now rewrite H1 | now rewrite H2].
Qed.

Lemma value_end_cases rest :
  value_end rest = true ->
  rest = EmptyString
  \/ exists r, rest = String ","%char r \/ rest = String newline r.
Proof.
  destruct rest as [|c r]; [now left|]. cbn [value_end]. intros H. right.
  exists r. apply orb_true_iff in H as [H|H]; apply Ascii.eqb_eq in H; subst c;
    [now left | now right].
Qed.

Lemma number_sign_append a rest :
  value_end rest = true ->
  number_sign (a +:+ rest) = followed_by rest (number_sign a).
Proof.
  intros Hrest. destruct a as [|c a].
  - destruct (value_end_cases _ Hrest) as [->|[r [->| ->]]]; reflexivity.
  - cbn [String.append number_sign]. now destruct (c =? "-")%char.
Qed.

Lemma number_int_append a rest :
  value_end rest = true ->
  number_int (a +:+ rest) = followed_by rest <$> number_int a.
Proof.
  intros Hrest. destruct a as [|d a].
  - destruct (value_end_cases _ Hrest) as [->|[r [->| ->]]]; reflexivity.
  - cbn [String.append number_int]. destruct (d =? "0")%char; [reflexivity|].
    destruct (in_range 49 57 d); [|reflexivity].
    cbn [fmap option_fmap option_map]. unfold followed_by. cbn [fst snd].
    rewrite take_while_append
      by (apply value_end_head_not; [exact Hrest | reflexivity | reflexivity]).
    rewrite str_drop_append_le by apply length_take_while. reflexivity.
Qed.

Lemma number_frac_append a rest :
  value_end rest = true ->
  number_frac (a +:+ rest) = followed_by rest (number_frac a).
Proof.
  intros Hrest. destruct a as [|c a].
  - destruct (value_end_cases _ Hrest) as [->|[r [->| ->]]]; reflexivity.
  - cbn [String.append number_frac]. destruct (c =? ".")%char; [|reflexivity].
    rewrite digits1_append
      by (apply value_end_head_not; [exact Hrest | reflexivity | reflexivity]).
    destruct (digits1 a) as [[ds r]|]; reflexivity.
Qed.

Lemma number_exp_append a rest :
  value_end rest = true ->
  number_exp (a +:+ rest) = followed_by rest (number_exp a).
Proof.
  intros Hrest.
  assert (Hd : head_not is_digit rest = true)
    by (apply value_end_head_not; [exact Hrest | reflexivity | reflexivity]).
  destruct a as [|e a].
  - destruct (value_end_cases _ Hrest) as [->|[r [->| ->]]]; reflexivity.
  - cbn [String.append number_exp].
    destruct ((e =? "e")%char || (e =? "E")%char); [|reflexivity].
    destruct a as [|c t].
    + cbn [String.append]. 
      assert (Hd1 : digits1 rest = None).
      { unfold digits1. destruct rest as [|c r]; [reflexivity|].
        cbn [head_not] in Hd. cbn [take_while].
        now destruct (is_digit c). }
      destruct (value_end_cases _ Hrest) as [->|[r [->| ->]]]; reflexivity.
    + cbn [String.append].
      destruct ((c =? "+")%char || (c =? "-")%char); cbn [fst snd].
      * rewrite (digits1_append _ _ Hd).
        destruct (digits1 t) as [[ds r]|]; reflexivity.
      * change (String c (t +:+ rest)) with (String c t +:+ rest).
        rewrite (digits1_append _ _ Hd).
        destruct (digits1 (String c t)) as [[ds r]|]; reflexivity.
Qed.

Lemma match_number_append a rest :
  value_end rest = true ->
  match_number (a +:+ rest) = followed_by rest <$> match_number a.
Proof.
  intros Hrest. unfold match_number.
  rewrite (number_sign_append _ _ Hrest). cbn [followed_by fst snd].
  rewrite (number_int_append _ _ Hrest).
  destruct (number_int (number_sign a).2) as [[i s2]|]; [|reflexivity].
  cbn [fmap option_fmap option_map mbind option_bind followed_by fst snd].
  rewrite (number_frac_append _ _ Hrest). cbn [followed_by fst snd].
  rewrite (number_exp_append _ _ Hrest). reflexivity.
Qed.

Lemma digits1_split s ds r : digits1 s = Some (ds, r) -> s = ds +:+ r.
Proof.
  unfold digits1. pose proof (take_while_split is_digit s) as H.
  destruct (take_while is_digit s) as [|d ds']; [discriminate|].
  intros [= <- <-]. exact H.
Qed.

Lemma number_sign_split s : s = fst (number_sign s) +:+ snd (number_sign s).
Proof.
  destruct s as [|c s]; [reflexivity|]. cbn [number_sign].
  destruct (Ascii.eqb_spec c "-") as [->|]; reflexivity.
Qed.

Lemma number_int_split s i r : number_int s = Some (i, r) -> s = i +:+ r.
Proof.
  destruct s as [|d s]; [discriminate|]. cbn [number_int].
  destruct (Ascii.eqb_spec d "0") as [->|]; [now intros [= <- <-]|].
  destruct (in_range 49 57 d); [|discriminate]. intros [= <- <-].
  cbn [String.append]. f_equal. apply take_while_split.
Qed.

Lemma number_frac_split s : s = fst (number_frac s) +:+ snd (number_frac s).
Proof.
  destruct s as [|c s]; [reflexivity|]. cbn [number_frac].
  destruct (c =? ".")%char; [|reflexivity].
  destruct (digits1 s) as [[ds r]|] eqn:E; [|reflexivity].
  cbn [fst snd String.append]. f_equal. exact (digits1_split _ _ _ E).
Qed.

Lemma number_exp_split s : s = fst (number_exp s) +:+ snd (number_exp s).
Proof.
  destruct s as [|e s]; [reflexivity|]. cbn [number_exp].
  destruct ((e =? "e")%char || (e =? "E")%char); [|reflexivity].
  destruct s as [|c t].
  - reflexivity.
  - destruct ((c =? "+")%char || (c =? "-")%char); cbn [fst snd].
    + destruct (digits1 t) as [[ds r]|] eqn:E; [|reflexivity].
      cbn [fst snd String.append]. do 2 f_equal. exact (digits1_split _ _ _ E).
    + destruct (digits1 (String c t)) as [[ds r]|] eqn:E; [|reflexivity].
      cbn [fst snd String.append]. f_equal. exact (digits1_split _ _ _ E).
Qed.

Lemma match_number_split s lit r : match_number s = Some (lit, r) -> s = lit +:+ r.
Proof.
  unfold match_number.
  destruct (number_int (number_sign s).2) as [[i s2]|] eqn:Ei; [|discriminate].
  cbn [mbind option_bind fst snd]. intros [= <- <-].
  rewrite !append_assoc, <- number_exp_split, <- number_frac_split.
  rewrite <- (number_int_split _ _ _ Ei). apply number_sign_split.
Qed.

Lemma match_number_head s lit r :
  match_number s = Some (lit, r) ->
  exists c s', s = String c s' /\ (c =? "-")%char || is_digit c = true.
Proof.
  unfold match_number. destruct s as [|c s]; [discriminate|].
  intros H. exists c, s. split; [reflexivity|].
  revert H. cbn [number_sign].
  destruct (c =? "-")%char eqn:Ec; [reflexivity|]. cbn [snd number_int].
  destruct (Ascii.eqb_spec c "0") as [->|]; [reflexivity|].
  unfold is_digit, in_range.
  destruct ((49 <=? code c) && (code c <=? 57)) eqn:E; [|discriminate].
  intros _. apply andb_true_iff in E as [E1 E2]. apply Nat.leb_le in E1.
  rewrite E2, andb_true_r. cbn [orb]. apply Nat.leb_le. lia.
Qed.

Lemma number_start_chars c :
  (c =? "-")%char || is_digit c = true ->
  (c =? dquote)%char = false /\ (c =? "{")%char = false
  /\ (c =? "[")%char = false /\ (c =? "n")%char = false
  /\ (c =? "t")%char = false /\ (c =? "f")%char = false
  /\ is_json_ws c = false /\ (c =? "]")%char = false.
Proof.
  destruct c as [[] [] [] [] [] [] [] []]; vm_compute;
    first [discriminate | intros _; repeat split].
Qed.

Lemma scan_once_number fuel lit rest :
  number_literal lit = true -> value_end rest = true ->
  scan_once (S fuel) (lit +:+ rest) = Some (JNum lit, rest).
Proof.
  intros Hlit Hrest. unfold number_literal in Hlit.
  destruct (match_number lit) as [[l r]|] eqn:Em.
  - destruct r as [|c0 r0].
    + pose proof (match_number_split _ _ _ Em) as Hl.
      rewrite append_nil_r in Hl. subst l.
      destruct (match_number_head _ _ _ Em) as (c & s' & -> & Hc).
      destruct (number_start_chars c Hc) as (H1 & H2 & H3 & H4 & H5 & H6 & _).
      cbn [String.append scan_once]. rewrite H1, H2, H3.
      unfold match_literal. cbn [strip_prefix].
      assert (Hn : ("n" =? c)%char = false) by (now rewrite Ascii.eqb_sym).
      assert (Ht : ("t" =? c)%char = false) by (now rewrite Ascii.eqb_sym).
      assert (Hf : ("f" =? c)%char = false) by (now rewrite Ascii.eqb_sym).
      rewrite Hn, Ht, Hf.
      change (String c (s' +:+ rest)) with (String c s' +:+ rest).
      now rewrite (match_number_append _ _ Hrest), Em.
    + apply orb_true_iff in Hlit as [Hlit|Hlit];
        [apply orb_true_iff in Hlit as [Hlit|Hlit]|];
        apply String.eqb_eq in Hlit; subst lit; reflexivity.
  - apply orb_true_iff in Hlit as [Hlit|Hlit];
      [apply orb_true_iff in Hlit as [Hlit|Hlit]|];
      apply String.eqb_eq in Hlit; subst lit; reflexivity.
Qed.

(** *** Layout *)

Lemma skip_ws_spaces n s : skip_ws (spaces n +:+ s) = skip_ws s.
Proof. induction n as [|n IH]; [reflexivity | exact IH]. Qed.

Lemma skip_ws_newline_indent level s :
  skip_ws (newline_indent level +:+ s) = skip_ws s.
Proof. unfold newline_indent. cbn [String.append]. apply skip_ws_spaces. Qed.

Lemma skip_ws_head c s : is_json_ws c = false -> skip_ws (String c s) = String c s.
Proof. intros H. unfold skip_ws. cbn [lstrip]. now rewrite H. Qed.

Lemma value_end_newline_indent level s :
  value_end (newline_indent level +:+ s) = true.
Proof. reflexivity. Qed.

(** The text of a well-formed value starts with a character that is no
    whitespace and closes no array. *)
Lemma json_dump_head v level rest :
  json_wf v = true ->
  exists c s, json_dump level v +:+ rest = String c s
              /\ is_json_ws c = false /\ (c =? "]")%char = false.
Proof.
  intros Hwf. destruct v as [|[]|lit|str|items|members].
  - now exists "n"%char, ("ull" +:+ rest).
  - now exists "t"%char, ("rue" +:+ rest).
  - now exists "f"%char, ("alse" +:+ rest).
  - cbn [json_wf json_dump] in *. unfold number_literal in Hwf.
    assert (Hconst : String.eqb lit "NaN" || String.eqb lit "Infinity"
                     || String.eqb lit "-Infinity" = true ->
                     exists c s, lit +:+ rest = String c s
                       /\ is_json_ws c = false /\ (c =? "]")%char = false).
    { intros H. apply orb_true_iff in H as [H|H];
        [apply orb_true_iff in H as [H|H]|];
        apply String.eqb_eq in H; subst lit; cbn [String.append]; eauto. }
    destruct (match_number lit) as [[l r]|] eqn:Em; [|now apply Hconst].
    destruct (match_number_head _ _ _ Em) as (c & s' & -> & Hc).
    destruct (number_start_chars c Hc) as (_ & _ & _ & _ & _ & _ & H7 & H8).
    exists c, (s' +:+ rest). now repeat split.
  - cbn [json_dump]. rewrite encode_string_append. eauto.
  - destruct items; cbn [json_dump String.append]; eauto.
  - destruct members; cbn [json_dump String.append]; eauto.
Qed.

Lemma skip_ws_json_dump v level rest :
  json_wf v = true ->
  skip_ws (json_dump level v +:+ rest) = json_dump level v +:+ rest.
Proof.
  intros Hwf. destruct (json_dump_head v level rest Hwf) as (c & s & -> & H & _).
  now apply skip_ws_head.
Qed.

(** *** Objects: distinct keys *)

Lemma dict_set_fresh {V : Type} (k : string) (v : V) d :
  existsb (String.eqb k) (map fst d) = false -> dict_set k v d = d ++ [(k, v)].
Proof.
  induction d as [|[k0 v0] d IH]; cbn [map fst existsb dict_set app];
    [reflexivity|].
  intros H. apply orb_false_iff in H as [H1 H2].
  rewrite String.eqb_sym, H1. now rewrite IH.
Qed.

Lemma distinct_keys_middle a k b :
  distinct_keys (a ++ k :: b) = true -> existsb (String.eqb k) a = false.
Proof.
  induction a as [|x a IH]; cbn [app distinct_keys existsb]; [reflexivity|].
  intros H. apply andb_true_iff in H as [H1 H2]. rewrite (IH H2), orb_false_r.
  apply negb_true_iff in H1. rewrite existsb_app in H1.
  apply orb_false_iff in H1 as [_ H1]. cbn [existsb] in H1.
  apply orb_false_iff in H1 as [H1 _]. now rewrite String.eqb_sym.
Qed.

(** *** Arrays and objects *)

Lemma array_items_read_back level rest xs :
  Forall reads_back xs -> forallb json_wf xs = true ->
  forall x acc, reads_back x -> json_wf x = true ->
  exists fuel0, forall fuel, fuel0 <= fuel ->
    array_items fuel
      (String.concat (separator (S level)) (map (json_dump (S level)) (x :: xs))
       +:+ newline_indent level +:+ "]" +:+ rest) acc
    = Some (JArr (acc ++ x :: xs), rest).
Proof.
  intros Hall. induction Hall as [|y ys Hy Hys IH]; intros Hwf x acc Hx Hwx.
  - cbn [map String.concat].
    destruct (Hx (S level) (newline_indent level +:+ "]" +:+ rest) eq_refl)
      as [f0 Hf0].
    exists (S f0). intros fuel Hle. destruct fuel as [|fuel]; [lia|].
    cbn [array_items]. rewrite Hf0 by lia.
    rewrite skip_ws_newline_indent. reflexivity.
  - cbn [forallb] in Hwf. apply andb_true_iff in Hwf as [Hwy Hwys].
    destruct (IH Hwys y (acc ++ [x]) Hy Hwy) as [f1 Hf1].
    change (map (json_dump (S level)) (x :: y :: ys))
      with (json_dump (S level) x :: map (json_dump (S level)) (y :: ys)).
    set (tail := String.concat (separator (S level))
                   (map (json_dump (S level)) (y :: ys))) in *.
    assert (Hcat : String.concat (separator (S level))
                     (json_dump (S level) x :: map (json_dump (S level)) (y :: ys))
                   = json_dump (S level) x +:+ separator (S level) +:+ tail)
      by reflexivity.
    rewrite Hcat, !append_assoc.
    destruct (Hx (S level)
                (separator (S level) +:+ tail +:+ newline_indent level
                 +:+ "]" +:+ rest) eq_refl) as [f0 Hf0].
    exists (S (Nat.max f0 f1)). intros fuel Hle.
    destruct fuel as [|fuel]; [lia|]. cbn [array_items]. rewrite Hf0 by lia.
    unfold separator at 1. cbn [String.append].
    rewrite skip_ws_head by reflexivity.
    replace ("," =? "]")%char with false by reflexivity.
    replace ("," =? ",")%char with true by reflexivity.
    cbv iota. rewrite skip_ws_newline_indent.
    assert (Hhead : skip_ws (tail +:+ newline_indent level +:+ "]" +:+ rest)
                    = tail +:+ newline_indent level +:+ "]" +:+ rest).
    { subst tail. cbn [map]. destruct ys as [|z zs].
      - cbn [map String.concat]. now apply skip_ws_json_dump.
      - change (String.concat (separator (S level))
                  (json_dump (S level) y :: map (json_dump (S level)) (z :: zs)))
          with (json_dump (S level) y +:+ separator (S level)
                +:+ String.concat (separator (S level))
                      (map (json_dump (S level)) (z :: zs))).
        rewrite !append_assoc. now apply skip_ws_json_dump. }
    change (String "]" rest) with ("]" +:+ rest).
    rewrite Hhead, Hf1 by lia. now rewrite <- app_assoc.
Qed.

Lemma object_members_read_back level rest ms :
  Forall (fun kv : string * json => reads_back (snd kv)) ms ->
  forallb (fun kv : string * json => json_wf (snd kv)) ms = true ->
  forall kv acc s,
    reads_back (snd kv) -> json_wf (snd kv) = true ->
    distinct_keys (map fst (acc ++ kv :: ms)) = true ->
    String dquote s
    = String.concat (separator (S level)) (map (member_text (S level)) (kv :: ms))
      +:+ newline_indent level +:+ "}" +:+ rest ->
    exists fuel0, forall fuel, fuel0 <= fuel ->
      object_members fuel s acc = Some (JObj (acc ++ kv :: ms), rest).
Proof.
  intros Hall. induction Hall as [|kv' ms Hkv' Hms IH];
    intros Hwf [k v] acc s Hv Hwv Hkeys Hs; cbn [fst snd] in *.
  - cbn [map String.concat] in Hs. unfold member_text in Hs. cbn [fst snd] in Hs.
    rewrite !append_assoc, encode_string_append in Hs. injection Hs as ->.
    destruct (Hv (S level) (newline_indent level +:+ "}" +:+ rest) eq_refl)
      as [f0 Hf0].
    exists (S f0). intros fuel Hle. destruct fuel as [|fuel]; [lia|].
    cbn [object_members]. rewrite scanstring_escape_string.
    cbn [String.append]. rewrite skip_ws_head by reflexivity.
    replace (":" =? ":")%char with true by reflexivity. cbv iota.
    change (skip_ws (String " " ?x)) with (skip_ws x).
    rewrite (skip_ws_json_dump _ _ _ Hwv), Hf0 by lia.
    rewrite skip_ws_newline_indent. cbn [String.append].
    rewrite skip_ws_head by reflexivity.
    replace ("}" =? "}")%char with true by reflexivity. cbv iota.
    rewrite dict_set_fresh; [reflexivity|].
    rewrite map_app in Hkeys. exact (distinct_keys_middle _ _ _ Hkeys).
  - cbn [forallb] in Hwf. apply andb_true_iff in Hwf as [Hwv' Hwms].
    change (map (member_text (S level)) ((k, v) :: kv' :: ms))
      with (member_text (S level) (k, v)
            :: map (member_text (S level)) (kv' :: ms)) in Hs.
    set (tail := String.concat (separator (S level))
                   (map (member_text (S level)) (kv' :: ms))) in *.
    assert (Hcat : String.concat (separator (S level))
                     (member_text (S level) (k, v)
                      :: map (member_text (S level)) (kv' :: ms))
                   = member_text (S level) (k, v) +:+ separator (S level)
                     +:+ tail) by reflexivity.
    rewrite Hcat in Hs. unfold member_text at 1 in Hs. cbn [fst snd] in Hs.
    rewrite !append_assoc, encode_string_append in Hs. injection Hs as ->.
    assert (Htail : exists s5, tail +:+ newline_indent level +:+ "}" +:+ rest
                               = String dquote s5).
    { subst tail. destruct kv' as [k' v']. destruct ms as [|kv2 ms2].
      - cbn [map String.concat]. unfold member_text. cbn [fst snd].
        rewrite !append_assoc, encode_string_append. eauto.
      - change (String.concat (separator (S level))
                  (map (member_text (S level)) ((k', v') :: kv2 :: ms2)))
          with (member_text (S level) (k', v') +:+ separator (S level)
                +:+ String.concat (separator (S level))
                      (map (member_text (S level)) (kv2 :: ms2))).
        unfold member_text at 1. cbn [fst snd].
        rewrite !append_assoc, encode_string_append. eauto. }
    destruct Htail as [s5 Hs5].
    assert (Hkeys' : distinct_keys (map fst ((acc ++ [(k, v)]) ++ kv' :: ms))
                     = true) by (now rewrite <- app_assoc).
    destruct (IH Hwms kv' (acc ++ [(k, v)]) s5 Hkv' Hwv' Hkeys' (eq_sym Hs5))
      as [f1 Hf1].
    destruct (Hv (S level)
                (separator (S level) +:+ tail +:+ newline_indent level
                 +:+ "}" +:+ rest) eq_refl) as [f0 Hf0].
    exists (S (Nat.max f0 f1)). intros fuel Hle.
    destruct fuel as [|fuel]; [lia|].
    cbn [object_members]. rewrite scanstring_escape_string.
    cbn [String.append]. rewrite skip_ws_head by reflexivity.
    replace (":" =? ":")%char with true by reflexivity. cbv iota.
    change (skip_ws (String " " ?x)) with (skip_ws x).
    rewrite (skip_ws_json_dump _ _ _ Hwv), Hf0 by lia.
    unfold separator at 1. cbn [String.append].
    rewrite skip_ws_head by reflexivity.
    replace ("," =? "}")%char with false by reflexivity.
    replace ("," =? ",")%char with true by reflexivity. cbv iota.
    change (String "}" rest) with ("}" +:+ rest).
    rewrite skip_ws_newline_indent, Hs5, skip_ws_head by reflexivity.
    replace (dquote =? dquote)%char with true by reflexivity. cbv iota.
    rewrite dict_set_fresh
      by (rewrite map_app in Hkeys; exact (distinct_keys_middle _ _ _ Hkeys)).
    rewrite Hf1 by lia. now rewrite <- app_assoc.
Qed.

Lemma json_reads_back v : json_wf v = true -> reads_back v.
Proof.
  induction v as [|b|lit|str|items IH|members IH] using json_induction;
    intros Hwf level rest Hrest.
  - exists 1. intros [|fuel] Hle; [lia | reflexivity].
  - exists 1. intros [|fuel] Hle; [lia | now destruct b].
  - exists 1. intros [|fuel] Hle; [lia|]. now apply scan_once_number.
  - exists 1. intros [|fuel] Hle; [lia|]. cbn [json_dump].
    rewrite encode_string_append. cbn [scan_once].
    replace (dquote =? dquote)%char with true by reflexivity. cbv iota.
    now rewrite scanstring_escape_string.
  - destruct items as [|x xs].
    { exists 1. intros [|fuel] Hle; [lia | reflexivity]. }
    cbn [json_wf forallb] in Hwf. apply andb_true_iff in Hwf as [Hwx Hwxs].
    apply Forall_cons in IH as [Hx Hxs].
    assert (Hall : Forall reads_back xs).
    { apply Forall_forall. intros y Hy. rewrite Forall_forall in Hxs.
      apply (Hxs y Hy). rewrite forallb_forall in Hwxs. apply Hwxs.
      now apply list_elem_of_In. }
    destruct (array_items_read_back level rest xs Hall Hwxs x [] (Hx Hwx) Hwx)
      as [f0 Hf0].
    exists (S f0). intros fuel Hle. destruct fuel as [|fuel]; [lia|].
    change (json_dump level (JArr (x :: xs)))
      with ("[" +:+ newline_indent (S level)
            +:+ String.concat (separator (S level))
                  (map (json_dump (S level)) (x :: xs))
            +:+ newline_indent level +:+ "]").
    rewrite !append_assoc.
    change ("[" +:+ ?t) with (String "[" t). cbn [scan_once].
    replace ("[" =? dquote)%char with false by reflexivity.
    replace ("[" =? "{")%char with false by reflexivity.
    replace ("[" =? "[")%char with true by reflexivity. cbv iota.
    rewrite skip_ws_newline_indent.
    assert (Hhead : exists c s,
               String.concat (separator (S level))
                 (map (json_dump (S level)) (x :: xs))
               +:+ newline_indent level +:+ "]" +:+ rest = String c s
               /\ is_json_ws c = false /\ (c =? "]")%char = false).
    { destruct xs as [|y ys].
      - cbn [map String.concat]. now apply json_dump_head.
      - change (String.concat (separator (S level))
                  (map (json_dump (S level)) (x :: y :: ys)))
          with (json_dump (S level) x +:+ separator (S level)
                +:+ String.concat (separator (S level))
                      (map (json_dump (S level)) (y :: ys))).
        rewrite !append_assoc. now apply json_dump_head. }
    destruct Hhead as (c & s & Hcs & Hws & Hnot).
    specialize (Hf0 fuel). rewrite Hcs in *.
    rewrite skip_ws_head, Hnot by exact Hws. apply Hf0. lia.
  - destruct members as [|[k v] ms].
    { exists 1. intros [|fuel] Hle; [lia | reflexivity]. }
    cbn [json_wf forallb map fst snd] in Hwf.
    apply andb_true_iff in Hwf as [Hkeys Hwf].
    apply andb_true_iff in Hwf as [Hwv Hwms].
    apply Forall_cons in IH as [Hv Hms]. cbn [snd] in Hv.
    assert (Hall : Forall (fun kv : string * json => reads_back (snd kv)) ms).
    { apply Forall_forall. intros y Hy. rewrite Forall_forall in Hms.
      apply (Hms y Hy). rewrite forallb_forall in Hwms. apply Hwms.
      now apply list_elem_of_In. }
    assert (Htext : exists s,
               String.concat (separator (S level))
                 (map (member_text (S level)) ((k, v) :: ms))
               +:+ newline_indent level +:+ "}" +:+ rest = String dquote s).
    { destruct ms as [|kv2 ms2].
      - cbn [map String.concat]. unfold member_text. cbn [fst snd].
        rewrite !append_assoc, encode_string_append. eauto.
      - change (String.concat (separator (S level))
                  (map (member_text (S level)) ((k, v) :: kv2 :: ms2)))
          with (member_text (S level) (k, v) +:+ separator (S level)
                +:+ String.concat (separator (S level))
                      (map (member_text (S level)) (kv2 :: ms2))).
        unfold member_text at 1. cbn [fst snd].
        rewrite !append_assoc, encode_string_append. eauto. }
    destruct Htext as [s Hs].
    destruct (object_members_read_back level rest ms Hall Hwms (k, v) [] s
                (Hv Hwv) Hwv Hkeys (eq_sym Hs)) as [f0 Hf0].
    exists (S f0). intros fuel Hle. destruct fuel as [|fuel]; [lia|].
    change (json_dump level (JObj ((k, v) :: ms)))
      with ("{" +:+ newline_indent (S level)
            +:+ String.concat (separator (S level))
                  (map (member_text (S level)) ((k, v) :: ms))
            +:+ newline_indent level +:+ "}").
    rewrite !append_assoc.
    change ("{" +:+ ?t) with (String "{" t). cbn [scan_once].
    replace ("{" =? dquote)%char with false by reflexivity.
    replace ("{" =? "{")%char with true by reflexivity. cbv iota.
    rewrite skip_ws_newline_indent, Hs, skip_ws_head by reflexivity.
    replace (dquote =? dquote)%char with true by reflexivity. cbv iota.
    apply Hf0. lia.
Qed.

Lemma json_loads_dumps v : json_wf v = true -> json_loads (json_dumps v) = Some v.
Proof.
  intros Hwf. destruct (json_reads_back v Hwf 0 "" eq_refl) as [f0 Hf0].
  pose proof (skip_ws_json_dump v 0 "" Hwf) as Hws.
  rewrite append_nil_r in Hf0, Hws. unfold json_loads, json_dumps.
  rewrite Hws.
  set (n := 2 * String.length (json_dump 0 v) + 2).
  rewrite (proj1 (decoder_fuel n (Nat.max f0 n)) (json_dump 0 v)) by lia.
  rewrite Hf0 by lia. reflexivity.
Qed.

(** *** What the decoder builds is well formed *)

Lemma digits1_stop s ds r t :
  digits1 s = Some (ds, r) -> head_not is_digit t = true ->
  digits1 (ds +:+ t) = Some (ds, t).
Proof.
  unfold digits1. destruct (take_while is_digit s) as [|d ds'] eqn:E;
    [discriminate|].
  intros [= <- _] Ht. rewrite (take_while_append _ _ _ Ht), <- E, take_while_idem.
  rewrite E. f_equal. f_equal. rewrite <- E at 2. rewrite E.
  apply str_drop_append.
Qed.

Lemma number_exp_fst s :
  fst (number_exp s) = EmptyString
  \/ exists e r, fst (number_exp s) = String e r
       /\ (e =? "e")%char || (e =? "E")%char = true
       /\ number_exp (String e r) = (String e r, EmptyString).
Proof.
  destruct s as [|e s]; [now left|]. cbn [number_exp].
  destruct ((e =? "e")%char || (e =? "E")%char) eqn:Ee; [|now left].
  destruct s as [|c t].
  - now left.
  - destruct ((c =? "+")%char || (c =? "-")%char) eqn:Ec; cbn [fst snd].
    + destruct (digits1 t) as [[ds r]|] eqn:Ed; [|now left]. right.
      cbn [fst]. exists e, (String c ds). split; [reflexivity|].
      split; [exact Ee|]. cbn [number_exp]. rewrite Ee, Ec. cbn [fst snd].
      pose proof (digits1_stop _ _ _ "" Ed eq_refl) as H.
      rewrite append_nil_r in H. now rewrite H.
    + destruct (digits1 (String c t)) as [[ds r]|] eqn:Ed; [|now left]. right.
      cbn [fst String.append]. exists e, ds. split; [reflexivity|].
      split; [exact Ee|].
      pose proof (digits1_stop _ _ _ "" Ed eq_refl) as H.
      rewrite append_nil_r in H.
      assert (Hds : exists c' ds', ds = String c' ds' /\ c' = c).
      { unfold digits1 in Ed. cbn [take_while] in Ed.
        destruct (is_digit c); [|discriminate]. injection Ed as <- _. eauto. }
      destruct Hds as (c' & ds' & -> & ->).
      cbn [number_exp]. rewrite Ee, Ec. cbn [fst snd]. now rewrite H.
Qed.

Lemma number_exp_head s :
  head_not is_digit (fst (number_exp s)) = true
  /\ head_not (fun c => (c =? ".")%char) (fst (number_exp s)) = true.
Proof.
  destruct (number_exp_fst s) as [->|(e & r & -> & He & _)]; [now split|].
  cbn [head_not]. apply orb_true_iff in He as [He|He];
    apply Ascii.eqb_eq in He; subst e; now split.
Qed.

Lemma number_frac_stop s t :
  head_not is_digit t = true ->
  head_not (fun c => (c =? ".")%char) t = true ->
  number_frac (fst (number_frac s) +:+ t) = (fst (number_frac s), t).
Proof.
  intros Hd Hdot.
  assert (Hnone : number_frac t = (EmptyString, t)).
  { destruct t as [|c t]; [reflexivity|]. cbn [head_not number_frac] in *.
    now destruct (c =? ".")%char. }
  destruct s as [|c s]; [exact Hnone|]. cbn [number_frac].
  destruct (c =? ".")%char eqn:Ec; [|exact Hnone].
  destruct (digits1 s) as [[ds r]|] eqn:Ed; [|exact Hnone].
  cbn [fst String.append number_frac]. rewrite Ec.
  now rewrite (digits1_stop _ _ _ _ Ed Hd).
Qed.

Lemma number_frac_head s t :
  head_not is_digit t = true ->
  head_not is_digit (fst (number_frac s) +:+ t) = true.
Proof.
  intros Ht. destruct s as [|c s]; [exact Ht|]. cbn [number_frac].
  destruct (Ascii.eqb_spec c ".") as [->|]; [|exact Ht].
  destruct (digits1 s) as [[ds r]|]; [reflexivity | exact Ht].
Qed.

Lemma number_int_stop s i r t :
  number_int s = Some (i, r) -> head_not is_digit t = true ->
  number_int (i +:+ t) = Some (i, t).
Proof.
  destruct s as [|d s]; [discriminate|]. cbn [number_int].
  destruct (Ascii.eqb_spec d "0") as [->|Hd0]; [now intros [= <- _] _|].
  destruct (in_range 49 57 d) eqn:Hd; [|discriminate]. intros [= <- _] Ht.
  cbn [String.append number_int].
  destruct (Ascii.eqb_spec d "0") as [|_]; [contradiction|]. rewrite Hd.
  rewrite (take_while_append _ _ _ Ht), take_while_idem.
  now rewrite str_drop_append.
Qed.

Lemma match_number_literal s lit r :
  match_number s = Some (lit, r) -> match_number lit = Some (lit, EmptyString).
Proof.
  intros H. pose proof (match_number_head _ _ _ H) as (c & s' & -> & Hc).
  revert H. unfold match_number.
  destruct (number_int (number_sign (String c s')).2) as [[i s2]|] eqn:Ei;
    [|discriminate].
  cbn [mbind option_bind fst snd]. intros [= <- _].
  set (f := fst (number_frac s2)).
  set (e := fst (number_exp (snd (number_frac s2)))).
  destruct (number_exp_head (snd (number_frac s2))) as [Hed Hedot].
  fold e in Hed, Hedot.
  assert (Hfe : head_not is_digit (f +:+ e) = true)
    by (now apply number_frac_head).
  assert (Hint : number_int (i +:+ f +:+ e) = Some (i, f +:+ e))
    by exact (number_int_stop _ _ _ _ Ei Hfe).
  assert (Hsign : number_sign (fst (number_sign (String c s')) +:+ i +:+ f +:+ e)
                  = (fst (number_sign (String c s')), i +:+ f +:+ e)).
  { cbn [number_sign] in *. destruct (c =? "-")%char eqn:Ec; [reflexivity|].
    cbn [fst snd String.append] in *.
    destruct i as [|d i'].
    { exfalso. cbn [number_int] in Ei. destruct (c =? "0")%char; [discriminate|].
      destruct (in_range 49 57 c); discriminate. }
    pose proof (number_int_split _ _ _ Ei) as Hsplit. injection Hsplit as <- _.
    cbn [String.append number_sign]. now rewrite Ec. }
  change (if (c =? "-")%char then ("-", s') else (EmptyString, String c s'))
    with (number_sign (String c s')).
  rewrite Hsign. cbn [fst snd]. rewrite Hint. cbn [mbind option_bind fst snd].
  subst f. rewrite (number_frac_stop _ _ Hed Hedot). cbn [fst snd].
  assert (Hexp : number_exp e = (e, EmptyString)).
  { subst e. destruct (number_exp_fst (snd (number_frac s2)))
      as [->|(e' & r' & -> & _ & H')]; [reflexivity | exact H']. }
  rewrite Hexp. reflexivity.
Qed.

Lemma match_literal_wf s v r : match_literal s = Some (v, r) -> json_wf v = true.
Proof.
  unfold match_literal.
  repeat match goal with
         | |- context [strip_prefix ?p s] =>
             destruct (strip_prefix p s); [now intros [= <- _]|]
         | |- context [match_number s] =>
             let E := fresh "E" in
             destruct (match_number s) as [[lit r']|] eqn:E
         end; try discriminate.
  intros [= <- _]. cbn [json_wf]. unfold number_literal.
  now rewrite (match_number_literal _ _ _ E).
Qed.

Lemma existsb_keys_dict_set {V : Type} (x k : string) (v : V) d :
  existsb (String.eqb x) (map fst (dict_set k v d))
  = existsb (String.eqb x) (map fst d) || String.eqb x k.
Proof.
  induction d as [|[k0 v0] d IH]; cbn [dict_set map fst existsb].
  - now rewrite orb_false_r.
  - destruct (String.eqb_spec k0 k) as [->|]; cbn [map fst existsb].
    + destruct (String.eqb x k); [now rewrite orb_true_r|].
      now rewrite orb_false_r.
    + rewrite IH. now rewrite orb_assoc.
Qed.

Lemma distinct_keys_dict_set {V : Type} (k : string) (v : V) d :
  distinct_keys (map fst d) = true ->
  distinct_keys (map fst (dict_set k v d)) = true.
Proof.
  induction d as [|[k0 v0] d IH]; cbn [dict_set map fst distinct_keys];
    [reflexivity|].
  intros H. apply andb_true_iff in H as [H1 H2].
  destruct (String.eqb_spec k0 k) as [->|Hne]; cbn [map fst distinct_keys].
  - now rewrite H1, H2.
  - rewrite (IH H2), andb_true_r, existsb_keys_dict_set.
    apply negb_true_iff in H1. rewrite H1. cbn [orb].
    apply negb_true_iff. now apply String.eqb_neq.
Qed.

Lemma forallb_dict_set {V : Type} (p : V -> bool) (k : string) (v : V) d :
  p v = true -> forallb (fun kv : string * V => p (snd kv)) d = true ->
  forallb (fun kv : string * V => p (snd kv)) (dict_set k v d) = true.
Proof.
  intros Hv. induction d as [|[k0 v0] d IH]; cbn [dict_set forallb snd].
  - now rewrite Hv.
  - intros H. apply andb_true_iff in H as [H1 H2].
    destruct (String.eqb k0 k); cbn [forallb snd].
    + now rewrite Hv, H2.
    + now rewrite H1, IH.
Qed.

(** Every value the decoder returns is well formed. *)
Lemma decoder_wf fuel :
  (forall s v r, scan_once fuel s = Some (v, r) -> json_wf v = true)
  /\ (forall s pairs v r, object_members fuel s pairs = Some (v, r) ->
        json_wf (JObj pairs) = true -> json_wf v = true)
  /\ (forall s values v r, array_items fuel s values = Some (v, r) ->
        json_wf (JArr values) = true -> json_wf v = true).
Proof.
  induction fuel as [|fuel (IHv & IHo & IHa)]; [repeat split; discriminate|].
  repeat split.
  - intros s v r H. cbn [scan_once] in H. destruct s as [|c s']; [discriminate|].
    destruct (c =? dquote)%char.
    { destruct (scanstring s') as [[str r']|]; [|discriminate].
      now injection H as <- _. }
    destruct (c =? "{")%char.
    { destruct (skip_ws s') as [|c1 s1]; [discriminate|].
      destruct (c1 =? dquote)%char; [now apply (IHo _ _ _ _ H)|].
      destruct (c1 =? "}")%char; [now injection H as <- _ | discriminate]. }
    destruct (c =? "[")%char; [|exact (match_literal_wf _ _ _ H)].
    destruct (skip_ws s') as [|c1 s1]; [discriminate|].
    destruct (c1 =? "]")%char; [now injection H as <- _|].
    now apply (IHa _ _ _ _ H).
  - intros s pairs v r H Hacc. cbn [object_members] in H.
    destruct (scanstring s) as [[key s1]|]; [|discriminate].
    destruct (skip_ws s1) as [|c s2]; [discriminate|].
    destruct (c =? ":")%char; [|discriminate].
    destruct (scan_once fuel (skip_ws s2)) as [[value s3]|] eqn:Ev; [|discriminate].
    apply IHv in Ev.
    assert (Hacc' : json_wf (JObj (dict_set key value pairs)) = true).
    { cbn [json_wf] in *. apply andb_true_iff in Hacc as [H1 H2].
      rewrite (distinct_keys_dict_set _ _ _ H1).
      now rewrite (forallb_dict_set json_wf _ _ _ Ev H2). }
    destruct (skip_ws s3) as [|c1 s4]; [discriminate|].
    destruct (c1 =? "}")%char; [now injection H as <- _|].
    destruct (c1 =? ",")%char; [|discriminate].
    destruct (skip_ws s4) as [|c2 s5]; [discriminate|].
    destruct (c2 =? dquote)%char; [|discriminate].
    exact (IHo _ _ _ _ H Hacc').
  - intros s values v r H Hacc. cbn [array_items] in H.
    destruct (scan_once fuel s) as [[value s1]|] eqn:Ev; [|discriminate].
    apply IHv in Ev.
    assert (Hacc' : json_wf (JArr (values ++ [value])) = true).
    { cbn [json_wf] in *. rewrite forallb_app, Hacc. cbn [forallb].
      now rewrite Ev. }
    destruct (skip_ws s1) as [|c s2]; [discriminate|].
    destruct (c =? "]")%char; [now injection H as <- _|].
    destruct (c =? ",")%char; [|discriminate].
    exact (IHa _ _ _ _ H Hacc').
Qed.

Lemma json_loads_wf s v : json_loads s = Some v -> json_wf v = true.
Proof.
  unfold json_loads.
  destruct (scan_once _ (skip_ws s)) as [[v' rest]|] eqn:E; [|discriminate].
  destruct (skip_ws rest); [|discriminate]. intros [= <-].
  exact (proj1 (decoder_wf _) _ _ _ E).
Qed.


(** * Further properties *)

(** ** Slugs *)

Lemma lower_char_idem c : lower_char (lower_char c) = lower_char c.
Proof. destruct c as [[] [] [] [] [] [] [] []]; reflexivity. Qed.

Lemma is_word_lower_char c : is_word (lower_char c) = is_word c.
Proof. destruct c as [[] [] [] [] [] [] [] []]; reflexivity. Qed.

Lemma is_word_not_separator c : is_word c = true -> slug_separator c = false.
Proof. destruct c as [[] [] [] [] [] [] [] []]; vm_compute; congruence. Qed.

Lemma is_hyphen_eq c : is_hyphen c = true -> c = "-"%char.
Proof. unfold is_hyphen. apply Ascii.eqb_eq. Qed.

Lemma str_all_impl (p q : ascii -> bool) s :
  (forall c, p c = true -> q c = true) -> str_all p s = true -> str_all q s = true.
Proof.
  intros Hpq. induction s as [|c s IH]; [reflexivity|]. cbn [str_all].
  intros H. apply andb_true_iff in H as [H1 H2]. now rewrite (Hpq c H1), IH.
Qed.

Lemma str_all_lower s :
  str_all (fun c => (lower_char c =? c)%char) (lower s) = true.
Proof.
  induction s as [|c s IH]; [reflexivity|]. cbn [lower str_map str_all].
  rewrite lower_char_idem, Ascii.eqb_refl. exact IH.
Qed.

Lemma str_all_re_sub_class p cls s :
  str_all p s = true ->
  str_all (fun c => p c && negb (cls c)) (re_sub_class cls "" s) = true.
Proof.
  induction s as [|c s IH]; [reflexivity|]. cbn [str_all re_sub_class].
  intros H. apply andb_true_iff in H as [H1 H2].
  destruct (cls c) eqn:E; cbn [String.append str_all]; [now apply IH|].
  now rewrite H1, E, IH.
Qed.

Lemma no_adjacent_hyphens_cons a b r :
  no_adjacent_hyphens (String a (String b r))
  = negb (is_hyphen a && is_hyphen b) && no_adjacent_hyphens (String b r).
Proof. reflexivity. Qed.

(** After the two substitutions: slug characters, no two hyphens in a row;
    inside a run the output does not start with a hyphen. *)
Lemma re_sub_runs_shape s :
  str_all (fun c => (lower_char c =? c)%char && negb (slug_removed c)) s = true ->
  forall in_run,
    let out := re_sub_runs slug_separator "-" in_run s in
    str_all slug_char out = true /\ no_adjacent_hyphens out = true
    /\ (in_run = true -> is_hyphen_at (str_head out) = false).
Proof.
  induction s as [|c s IH]; intros Hall in_run; [now repeat split|].
  cbn [str_all] in Hall. apply andb_true_iff in Hall as [Hc Hs].
  apply andb_true_iff in Hc as [Hlow Hkept].
  specialize (IH Hs). cbn [re_sub_runs]. cbv zeta.
  destruct (slug_separator c) eqn:Hsep.
  - destruct in_run.
    + exact (IH true).
    + destruct (IH true) as (H1 & H2 & H3). specialize (H3 eq_refl).
      cbn [String.append]. repeat split; [| |discriminate].
      * cbn [str_all]. now rewrite H1.
      * destruct (re_sub_runs slug_separator "-" true s) as [|b r]; [reflexivity|].
        rewrite no_adjacent_hyphens_cons. cbn [str_head is_hyphen_at] in H3.
        now rewrite H3, andb_false_r, H2.
  - destruct (IH false) as (H1 & H2 & _).
    assert (Hw : is_word c = true).
    { unfold slug_removed in Hkept. apply negb_true_iff, negb_false_iff in Hkept.
      unfold slug_separator in Hsep. apply orb_false_iff in Hsep as [Hh Hsp].
      rewrite Hh, Hsp, !orb_false_r in Hkept. exact Hkept. }
    assert (Hh : is_hyphen c = false).
    { unfold slug_separator in Hsep. now apply orb_false_iff in Hsep as [Hh _]. }
    repeat split.
    + cbn [str_all]. unfold slug_char at 1. now rewrite Hw, Hlow, H1.
    + destruct (re_sub_runs slug_separator "-" false s) as [|b r]; [reflexivity|].
      rewrite no_adjacent_hyphens_cons. now rewrite Hh, H2.
    + intros _. exact Hh.
Qed.

Lemma lstrip_shape s :
  str_all slug_char s = true -> no_adjacent_hyphens s = true ->
  let out := lstrip is_hyphen s in
  str_all slug_char out = true /\ no_adjacent_hyphens out = true
  /\ is_hyphen_at (str_head out) = false.
Proof.
  induction s as [|c s IH]; intros Hall Hadj; [now repeat split|].
  cbn [lstrip]. cbv zeta. destruct (is_hyphen c) eqn:Hc.
  - cbn [str_all] in Hall. apply andb_true_iff in Hall as [_ Hall].
    apply IH; [exact Hall|]. destruct s as [|b r]; [reflexivity|].
    rewrite no_adjacent_hyphens_cons in Hadj.
    now apply andb_true_iff in Hadj as [_ Hadj].
  - now repeat split.
Qed.

Lemma no_adjacent_hyphens_tail c s :
  no_adjacent_hyphens (String c s) = true -> no_adjacent_hyphens s = true.
Proof.
  destruct s as [|b r]; [reflexivity|]. rewrite no_adjacent_hyphens_cons.
  intros H. now apply andb_true_iff in H as [_ H].
Qed.

Lemma rstrip_prefix cls s : exists t, s = rstrip cls s +:+ t.
Proof.
  induction s as [|c s [t IH]]; [now exists EmptyString|]. cbn [rstrip].
  destruct (rstrip cls s) as [|b r].
  - cbn [String.append] in IH. subst s. destruct (cls c).
    + now exists (String c t).
    + now exists t.
  - exists t. cbn [String.append]. f_equal. exact IH.
Qed.

Lemma rstrip_last cls s : 
  match str_last (rstrip cls s) with
  | Some c => cls c = false
  | None => True
  end.
Proof.
  induction s as [|c s IH]; [exact I|]. cbn [rstrip].
  destruct (rstrip cls s) as [|b r].
  - destruct (cls c) eqn:E; [exact I | exact E].
  - exact IH.
Qed.

Lemma str_all_append p a t :
  str_all p (a +:+ t) = str_all p a && str_all p t.
Proof.
  induction a as [|c a IH]; [reflexivity|]. cbn [String.append str_all].
  now rewrite IH, andb_assoc.
Qed.

Lemma no_adjacent_hyphens_prefix a t :
  no_adjacent_hyphens (a +:+ t) = true -> no_adjacent_hyphens a = true.
Proof.
  induction a as [|x a IH]; [reflexivity|]. destruct a as [|y a]; [reflexivity|].
  cbn [String.append]. rewrite !no_adjacent_hyphens_cons. intros H.
  apply andb_true_iff in H as [H1 H2]. rewrite H1. now apply IH.
Qed.

Lemma rstrip_shape s :
  str_all slug_char s = true -> no_adjacent_hyphens s = true ->
  is_hyphen_at (str_head s) = false ->
  is_slug (rstrip is_hyphen s) = true.
Proof.
  intros Hall Hadj Hhead. destruct (rstrip_prefix is_hyphen s) as [t Ht].
  pose proof (rstrip_last is_hyphen s) as Hlast.
  unfold is_slug. rewrite Ht in Hall, Hadj, Hhead.
  rewrite str_all_append in Hall. apply andb_true_iff in Hall as [-> _].
  rewrite (no_adjacent_hyphens_prefix _ _ Hadj). cbn [andb].
  destruct (rstrip is_hyphen s) as [|c r]; [reflexivity|].
  cbn [String.append str_head is_hyphen_at] in Hhead |- *. rewrite Hhead.
  cbn [negb andb]. destruct (str_last (String c r)); [|reflexivity].
  cbn [is_hyphen_at]. now rewrite Hlast.
Qed.

Lemma slugify_is_slug text : is_slug (slugify text) = true.
Proof.
  unfold slugify, strip.
  pose proof (str_all_lower text) as H0.
  apply (str_all_re_sub_class _ slug_removed) in H0.
  destruct (re_sub_runs_shape _ H0 false) as (H1 & H2 & _).
  destruct (lstrip_shape _ H1 H2) as (H3 & H4 & H5).
  now apply rstrip_shape.
Qed.

Lemma slug_char_cases c :
  slug_char c = true ->
  (lower_char c =? c)%char = true /\ slug_removed c = false
  /\ (is_hyphen c = false -> slug_separator c = false).
Proof.
  destruct c as [[] [] [] [] [] [] [] []]; vm_compute;
    first [discriminate | intros _; repeat split; congruence].
Qed.

Lemma lower_fixed s : str_all slug_char s = true -> lower s = s.
Proof.
  induction s as [|c s IH]; [reflexivity|]. cbn [str_all lower str_map].
  intros H. apply andb_true_iff in H as [Hc Hs].
  destruct (slug_char_cases c Hc) as (Hl & _). apply Ascii.eqb_eq in Hl.
  rewrite Hl. f_equal. exact (IH Hs).
Qed.

Lemma re_sub_class_fixed s :
  str_all slug_char s = true -> re_sub_class slug_removed "" s = s.
Proof.
  induction s as [|c s IH]; [reflexivity|]. cbn [str_all re_sub_class].
  intros H. apply andb_true_iff in H as [Hc Hs].
  destruct (slug_char_cases c Hc) as (_ & -> & _). f_equal. exact (IH Hs).
Qed.

Lemma re_sub_runs_fixed s :
  str_all slug_char s = true -> no_adjacent_hyphens s = true ->
  re_sub_runs slug_separator "-" false s = s
  /\ (is_hyphen_at (str_head s) = false ->
      re_sub_runs slug_separator "-" true s = s).
Proof.
  induction s as [|c s IH]; [now split|]. intros Hall Hadj.
  cbn [str_all] in Hall. apply andb_true_iff in Hall as [Hc Hs].
  destruct (slug_char_cases c Hc) as (_ & _ & Hsep).
  destruct (IH Hs (no_adjacent_hyphens_tail _ _ Hadj)) as [IH1 IH2].
  cbn [re_sub_runs str_head is_hyphen_at]. destruct (is_hyphen c) eqn:Hh.
  - split; [|discriminate]. apply is_hyphen_eq in Hh. subst c.
    cbn [slug_separator is_hyphen orb]. 
    replace (slug_separator "-") with true by reflexivity.
    cbn [String.append]. f_equal. apply IH2.
    destruct s as [|b r]; [reflexivity|]. rewrite no_adjacent_hyphens_cons in Hadj.
    apply andb_true_iff in Hadj as [Hadj _]. cbn [str_head is_hyphen_at].
    apply negb_true_iff in Hadj. exact Hadj.
  - rewrite (Hsep eq_refl). split; [|intros _]; now rewrite IH1.
Qed.

Lemma lstrip_fixed cls s :
  match str_head s with Some c => cls c = false | None => True end ->
  lstrip cls s = s.
Proof. destruct s as [|c s]; [reflexivity|]. cbn. now intros ->. Qed.

Lemma rstrip_fixed cls s :
  match str_last s with Some c => cls c = false | None => True end ->
  rstrip cls s = s.
Proof.
  induction s as [|c s IH]; [reflexivity|]. cbn [rstrip].
  destruct s as [|b r].
  - cbn. now intros ->.
  - intros H. rewrite (IH H). reflexivity.
Qed.

Lemma is_slug_fixed s : is_slug s = true -> slugify s = s.
Proof.
  unfold is_slug. intros H. apply andb_true_iff in H as [H Hlast].
  apply andb_true_iff in H as [H Hhead]. apply andb_true_iff in H as [Hall Hadj].
  apply negb_true_iff in Hhead, Hlast.
  unfold slugify, strip.
  rewrite (lower_fixed _ Hall), (re_sub_class_fixed _ Hall).
  rewrite (proj1 (re_sub_runs_fixed _ Hall Hadj)).
  rewrite lstrip_fixed.
  - apply rstrip_fixed. now destruct (str_last s).
  - now destruct (str_head s).
Qed.

(** *** The word characters of a slug *)

Lemma is_hyphen_not_word c : is_hyphen c = true -> is_word c = false.
Proof. intros H. apply is_hyphen_eq in H. now subst c. Qed.

Lemma filter_word_drop_hyphens l :
  List.filter is_word (drop_hyphens l) = List.filter is_word l.
Proof.
  induction l as [|c l IH]; [reflexivity|]. cbn [drop_hyphens].
  destruct (is_hyphen c) eqn:E; [|reflexivity].
  cbn [List.filter]. now rewrite (is_hyphen_not_word _ E).
Qed.

Lemma filter_word_squeeze_hyphens l :
  List.filter is_word (squeeze_hyphens l) = List.filter is_word l.
Proof.
  induction l as [|a l IH]; [reflexivity|]. cbn [squeeze_hyphens].
  destruct l as [|b l]; [reflexivity|].
  destruct (is_hyphen a) eqn:Ea; cbn [andb].
  - destruct (is_hyphen b) eqn:Eb.
    + rewrite IH. cbn [List.filter]. now rewrite (is_hyphen_not_word _ Ea).
    + cbn [List.filter] in *. now rewrite IH.
  - cbn [List.filter] in *. now rewrite IH.
Qed.

Lemma filter_word_separator_to_hyphen l :
  List.filter is_word (map separator_to_hyphen l) = List.filter is_word l.
Proof.
  induction l as [|c l IH]; [reflexivity|]. cbn [map List.filter]. rewrite IH.
  unfold separator_to_hyphen. destruct (slug_separator c) eqn:E; [|reflexivity].
  replace (is_word "-") with false by reflexivity.
  destruct (is_word c) eqn:Ew; [|reflexivity].
  now rewrite (is_word_not_separator _ Ew) in E.
Qed.

Lemma filter_word_kept l :
  List.filter is_word (List.filter (fun c => negb (slug_removed c)) l)
  = List.filter is_word l.
Proof.
  induction l as [|c l IH]; [reflexivity|]. cbn [List.filter].
  unfold slug_removed at 1. rewrite negb_involutive.
  destruct (is_word c) eqn:Ew; cbn [orb List.filter].
  - now rewrite Ew, IH.
  - destruct (is_space c || is_hyphen c); cbn [List.filter];
      [now rewrite Ew, IH | exact IH].
Qed.

Lemma filter_word_lower l :
  List.filter is_word (map lower_char l) = map lower_char (List.filter is_word l).
Proof.
  induction l as [|c l IH]; [reflexivity|]. cbn [map List.filter].
  rewrite is_word_lower_char. destruct (is_word c); cbn [map]; now rewrite IH.
Qed.

Lemma slugify_chars text :
  chars (slugify text)
  = rev (drop_hyphens (rev (drop_hyphens (squeeze_hyphens
      (map separator_to_hyphen
         (List.filter (fun c => negb (slug_removed c))
            (map lower_char (chars text)))))))).
Proof.
  unfold slugify, strip, lower.
  rewrite chars_rstrip_hyphen, chars_lstrip_hyphen.
  now rewrite (proj1 (chars_re_sub_runs _)), chars_re_sub_class_empty, chars_str_map.
Qed.

Lemma slugify_words text :
  List.filter is_word (chars (slugify text))
  = map lower_char (List.filter is_word (chars text)).
Proof.
  rewrite slugify_chars, filter_rev, filter_word_drop_hyphens, filter_rev.
  rewrite rev_involutive, filter_word_drop_hyphens, filter_word_squeeze_hyphens.
  now rewrite filter_word_separator_to_hyphen, filter_word_kept, filter_word_lower.
Qed.

Lemma str_all_chars p s : str_all p s = forallb p (chars s).
Proof. induction s as [|c s IH]; [reflexivity|]. cbn. now rewrite IH. Qed.

Lemma filter_none {A : Type} (p : A -> bool) l :
  forallb (fun c => negb (p c)) l = true -> List.filter p l = [].
Proof.
  induction l as [|c l IH]; [reflexivity|]. cbn [forallb List.filter].
  intros H. apply andb_true_iff in H as [H1 H2]. apply negb_true_iff in H1.
  rewrite H1. now apply IH.
Qed.

Lemma slugify_empty text :
  slugify text = EmptyString
  <-> forallb (fun c => negb (is_word c)) (chars text) = true.
Proof.
  pose proof (slugify_words text) as Hw. split.
  - intros H. rewrite H in Hw. cbn in Hw. symmetry in Hw.
    apply map_eq_nil in Hw. apply forallb_forall. intros c Hc.
    destruct (is_word c) eqn:E; [|reflexivity]. exfalso.
    assert (Hin : In c (List.filter is_word (chars text)))
      by (apply filter_In; now split).
    rewrite Hw in Hin. destruct Hin.
  - intros H.
    rewrite (filter_none _ _ H) in Hw. cbn [map] in Hw.
    pose proof (slugify_is_slug text) as Hs. unfold is_slug in Hs.
    apply andb_true_iff in Hs as [Hs _]. apply andb_true_iff in Hs as [Hs Hhead].
    apply andb_true_iff in Hs as [Hall _]. apply negb_true_iff in Hhead.
    destruct (slugify text) as [|c r]; [reflexivity|]. exfalso.
    cbn [str_all str_head is_hyphen_at chars list_ascii_of_string List.filter] in *.
    apply andb_true_iff in Hall as [Hc _]. unfold slug_char in Hc.
    rewrite Hhead, orb_false_r in Hc. apply andb_true_iff in Hc as [Hc _].
    rewrite Hc in Hw. discriminate.
Qed.

Lemma slug_char_safe c :
  slug_char c = true ->
  negb ((c =? "/")%char || (c =? ".")%char || (c =? "000")%char || is_space c)
  = true.
Proof.
  destruct c as [[] [] [] [] [] [] [] []]; vm_compute;
    first [discriminate | reflexivity].
Qed.

(** X1. Whatever the text, its slug is made of lower-case word characters
    and hyphens only, has no hyphen at either end and no two hyphens in a
    row; so it holds no slash, no dot, no NUL and no whitespace, and the
    file name built from it names a file of the output directory itself. *)
Theorem slugify_shape (text : string) :
  is_slug (slugify text) = true
  /\ str_all (fun c => negb ((c =? "/")%char || (c =? ".")%char
                           || (c =? "000")%char || is_space c))
       (slugify text) = true.
Proof.
  pose proof (slugify_is_slug text) as H. split; [exact H|].
  unfold is_slug in H. apply andb_true_iff in H as [H _].
  apply andb_true_iff in H as [H _]. apply andb_true_iff in H as [H _].
  exact (str_all_impl _ _ _ slug_char_safe H).
Qed.

(** X2. The slugs are exactly the texts [slugify] leaves as they are, and
    [slugify] applied twice gives what it gives applied once. *)
Theorem slugify_fixed_points (s : string) :
  (slugify s = s <-> is_slug s = true)
  /\ slugify (slugify s) = slugify s.
Proof.
  split; [split|].
  - intros H. rewrite <- H. apply slugify_is_slug.
  - apply is_slug_fixed.
  - apply is_slug_fixed, slugify_is_slug.
Qed.

(** X3. [slugify] keeps the word characters of the text, all of them, in
    their order and in lower case; the slug is empty exactly when the text
    has no word character. *)
Theorem slugify_keeps_words (text : string) :
  List.filter is_word (chars (slugify text))
  = map lower_char (List.filter is_word (chars text))
  /\ (slugify text = EmptyString
      <-> forallb (fun c => negb (is_word c)) (chars text) = true).
Proof. split; [apply slugify_words | apply slugify_empty]. Qed.


(** ** What the scanner returns *)

Lemma harvest_member_holds found member :
  forallb (fun kv : string * string => str_contains begin_marker (snd kv)) found
    = true ->
  forallb (fun kv : string * string => str_contains begin_marker (snd kv))
    (harvest_member found member) = true.
Proof.
  intros H. unfold harvest_member. destruct (snd member) as [| | |script| |];
    try exact H.
  destruct (str_contains begin_marker script) eqn:E; [|exact H].
  exact (forallb_dict_set (str_contains begin_marker) _ _ _ E H).
Qed.

Lemma harvest_member_distinct found member :
  distinct_keys (map fst found) = true ->
  distinct_keys (map fst (harvest_member found member)) = true.
Proof.
  intros H. unfold harvest_member. destruct (snd member) as [| | |script| |];
    try exact H.
  destruct (str_contains begin_marker script); [|exact H].
  now apply distinct_keys_dict_set.
Qed.

Lemma harvest_holds data found :
  forallb (fun kv : string * string => str_contains begin_marker (snd kv)) found
    = true ->
  distinct_keys (map fst found) = true ->
  forallb (fun kv : string * string => str_contains begin_marker (snd kv))
    (harvest data found) = true
  /\ distinct_keys (map fst (harvest data found)) = true.
Proof.
  unfold harvest. destruct data as [| | | | |members]; try (now split).
  revert found. induction members as [|m ms IH]; intros found H1 H2; [now split|].
  cbn [fold_left]. apply IH;
    [now apply harvest_member_holds | now apply harvest_member_distinct].
Qed.

Lemma scan_loop_holds text fuel :
  forall idx found r log,
    scan_loop fuel text idx found = Some (r, log) ->
    forallb (fun kv : string * string => str_contains begin_marker (snd kv)) found
      = true ->
    distinct_keys (map fst found) = true ->
    forallb (fun kv : string * string => str_contains begin_marker (snd kv)) r
      = true
    /\ distinct_keys (map fst r) = true.
Proof.
  induction fuel as [|fuel IH]; intros idx found r log H H1 H2; [discriminate|].
  cbn [scan_loop] in H.
  destruct (scan_iteration text idx found) as [[[start idx'] found1]|] eqn:E.
  - destruct (scan_loop fuel text idx' found1) as [[r1 log1]|] eqn:E1;
      [|discriminate].
    injection H as <- _. apply (IH _ _ _ _ E1).
    + unfold scan_iteration in E.
      destruct (str_find record_open text idx); [|discriminate].
      destruct (negb _); [now injection E as _ _ <-|].
      destruct (_ <? _); [|now injection E as _ _ <-].
      injection E as _ _ <-. destruct (json_loads _); [|exact H1].
      now apply harvest_holds.
    + unfold scan_iteration in E.
      destruct (str_find record_open text idx); [|discriminate].
      destruct (negb _); [now injection E as _ _ <-|].
      destruct (_ <? _); [|now injection E as _ _ <-].
      injection E as _ _ <-. destruct (json_loads _); [|exact H2].
      now apply harvest_holds.
  - injection H as <- _. now split.
Qed.

(** X4. In every mapping the scanner returns, every script holds the
    header sentinel and no id occurs twice: what a record gives under an
    id it has given before replaces the earlier script, and a member
    whose value is no string, or a string without the sentinel, gives
    nothing. *)
Theorem scanner_results_hold_sentinel (text : string)
    (found : list (string * string)) :
  parse_scripts_from_text text = Some found ->
  forallb (fun kv : string * string => str_contains begin_marker (snd kv))
    found = true
  /\ distinct_keys (map fst found) = true.
Proof.
  unfold parse_scripts_from_text. intros H.
  destruct (scan_loop (scan_fuel text) text 0 []) as [[r log]|] eqn:Hrun;
    [|discriminate].
  cbn in H. injection H as <-.
  exact (scan_loop_holds _ _ _ _ _ _ Hrun eq_refl eq_refl).
Qed.

Lemma scanner_results_hold_sentinel_witness :
  forallb (fun kv : string * string => str_contains begin_marker (snd kv))
    [("u", "==UserScript== 2"); ("w", "x ==UserScript==")] = true
  /\ distinct_keys ["u"; "w"] = true.
Proof.
  apply (scanner_results_hold_sentinel
           (dq "{'u':'==UserScript== 1','v':'plain','n':7}"
            +:+ dq " {'u':'==UserScript== 2','w':'x ==UserScript=='}")).
  vm_compute. reflexivity.
Defined.

Lemma all_candidates_blind_at text start :
  all_candidates_blind text = true ->
  start < String.length text ->
  starts_with record_open (str_drop start text) = true ->
  candidate_blind text start = true.
Proof.
  unfold all_candidates_blind. rewrite forallb_forall. intros Hall Hlt Hs.
  specialize (Hall start). rewrite Hs in Hall. apply Hall.
  apply in_seq. lia.
Qed.

Lemma scan_loop_blind text fuel :
  all_candidates_blind text = true ->
  forall idx found r log,
    scan_loop fuel text idx found = Some (r, log) -> r = found.
Proof.
  intros Hall. induction fuel as [|fuel IH]; intros idx found r log H;
    [discriminate|].
  cbn [scan_loop] in H.
  destruct (scan_iteration text idx found) as [[[start idx'] found1]|] eqn:E.
  - destruct (scan_loop fuel text idx' found1) as [[r1 log1]|] eqn:E1;
      [|discriminate].
    injection H as <- _. apply IH in E1. subst r1.
    unfold scan_iteration in E.
    destruct (str_find record_open text idx) as [s|] eqn:Hf; [|discriminate].
    pose proof (str_find_bounds _ _ _ _ Hf) as [_ Hb].
    cbn [record_open String.length] in Hb.
    pose proof (str_find_starts _ _ _ _ Hf) as Hs.
    assert (Hblind : candidate_blind text s = true)
      by (apply all_candidates_blind_at; [exact Hall | lia | exact Hs]).
    unfold candidate_blind in Hblind. rewrite Hblind in E.
    now injection E as _ _ <-.
  - now injection H as <- _.
Qed.

(** X5. The scanner looks for the sentinel in the 5000 characters from a
    candidate's opening brace and no further: when no candidate of the
    text has the sentinel that near, the result is empty, whatever the
    text holds -- also a record that decodes and whose script holds the
    sentinel further on. *)
Theorem scanner_lookahead_bound (text : string) :
  all_candidates_blind text = true ->
  parse_scripts_from_text text = Some [].
Proof.
  intros Hall. destruct (scanner_terminates_loop text) as (found & log & Hrun).
  unfold parse_scripts_from_text. rewrite Hrun.
  now rewrite (scan_loop_blind _ _ Hall _ _ _ _ Hrun).
Qed.

Lemma scanner_lookahead_bound_witness :
  json_loads (padded_record 5000)
    = Some (JObj [("id", JStr (spaces 5000 +:+ "// ==UserScript=="))])
  /\ parse_scripts_from_text (padded_record 4000)
     = Some [("id", spaces 4000 +:+ "// ==UserScript==")]
  /\ parse_scripts_from_text (padded_record 5000) = Some [].
Proof.
  split; [vm_compute; reflexivity|]. split; [vm_compute; reflexivity|].
  apply (scanner_lookahead_bound (padded_record 5000)). vm_compute. reflexivity.
Defined.


(** ** What a run leaves on disk *)

Lemma export_script_on_disk isoformat acc acc' uuid script w w' :
  export_script isoformat acc (uuid, script) w = (Ok acc', w') ->
  on_disk (files w') (uuid, script).
Proof.
  rewrite export_script_eq. unfold export_script_result.
  destruct acc as [[exported added] updated].
  destruct (slugify_name _) as [[n slug]|e] eqn:Hs; [|discriminate].
  apply script_filename_Ok in Hs. intros H.
  assert (Hw : forall t, on_disk
            (files (World (<[slug +:+ ".user.js" := script]> (files w)) t))
            (uuid, script)).
  { intros t. exists (slug +:+ ".user.js"), script. cbn.
    rewrite lookup_insert_eq. auto. }
  destruct (files w !! (slug +:+ ".user.js")) as [content|] eqn:Hc.
  - destruct (String.eqb_spec (universal_newlines content) script) as [He|He];
      injection H as _ <-; [|apply Hw].
    exists (slug +:+ ".user.js"), content. cbn. auto.
  - injection H as _ <-. apply Hw.
Qed.

Lemma export_script_still_on_disk isoformat acc uuid script w item :
  on_disk (files w) item ->
  (script_filename (fst item) (snd item) = script_filename uuid script ->
   snd item = script) ->
  on_disk (files (export_script isoformat acc (uuid, script) w).2) item.
Proof.
  intros (name & content & Hf & Hc & Hu) Hsame.
  destruct (export_script_files isoformat acc uuid script w name) as [H|[Hf' H]].
  - exists name, content. rewrite H. auto.
  - exists name, script. rewrite H. repeat split; [exact Hf|].
    left. symmetry. apply Hsame. congruence.
Qed.

Lemma export_loop_still_on_disk isoformat scripts acc w item :
  on_disk (files w) item ->
  (forall uuid script, In (uuid, script) scripts ->
     script_filename (fst item) (snd item) = script_filename uuid script ->
     snd item = script) ->
  on_disk (files (foldM (export_script isoformat) scripts acc w).2) item.
Proof.
  revert acc w. induction scripts as [|[uuid script] scripts IH];
    intros acc w Hnow Hsame.
  - exact Hnow.
  - rewrite foldM_cons.
    pose proof (export_script_still_on_disk isoformat acc uuid script w item Hnow
                  (Hsame uuid script (or_introl eq_refl))) as H1.
    destruct (export_script isoformat acc (uuid, script) w) as [[acc'|e] w1];
      cbn [snd] in H1; [|exact H1].
    apply IH; [exact H1|]. intros u s Hin. apply Hsame. now right.
Qed.

Lemma export_loop_on_disk isoformat scripts acc acc' w w' :
  foldM (export_script isoformat) scripts acc w = (Ok acc', w') ->
  (forall u1 s1 u2 s2, In (u1, s1) scripts -> In (u2, s2) scripts ->
     script_filename u1 s1 = script_filename u2 s2 -> s1 = s2) ->
  Forall (on_disk (files w')) scripts.
Proof.
  revert acc w. induction scripts as [|[uuid script] scripts IH];
    intros acc w Hrun Hsame.
  - constructor.
  - rewrite foldM_cons in Hrun.
    destruct (export_script isoformat acc (uuid, script) w) as [[acc1|e] w1] eqn:E;
      [|discriminate].
    constructor.
    + pose proof (export_loop_still_on_disk isoformat scripts acc1 w1 (uuid, script))
        as H. rewrite Hrun in H. apply H.
      * exact (export_script_on_disk _ _ _ _ _ _ _ E).
      * intros u s Hin. apply (Hsame uuid script u s); [now left | now right].
    + apply (IH acc1 w1 Hrun).
      intros u1 s1 u2 s2 H1 H2. apply (Hsame u1 s1 u2 s2); now right.
Qed.

Lemma export_run_on_disk (isoformat : nat -> string)
    (scripts : list (string * string)) (include_manifest : bool) (w w' : world)
    (result : list json * nat * nat * nat) :
  (forall u1 s1 u2 s2, In (u1, s1) scripts -> In (u2, s2) scripts ->
     script_filename u1 s1 = script_filename u2 s2 -> s1 = s2) ->
  export_userscripts isoformat scripts include_manifest w = (Ok result, w') ->
  forall uuid script, In (uuid, script) scripts ->
    exists name content,
      script_filename uuid script = Ok name
      /\ files w' !! name = Some content
      /\ (content = script \/ universal_newlines content = script).
Proof.
  intros Hsame Hrun uuid script Hin. rewrite export_userscripts_eq in Hrun.
  destruct (foldM _ _ _ w) as [[[[exported added] updated]|e] w1] eqn:Hloop;
    [|discriminate].
  pose proof (export_loop_on_disk _ _ _ _ _ _ Hloop Hsame) as Hall.
  rewrite Forall_forall in Hall.
  destruct (Hall (uuid, script)) as (name & content & Hf & Hc & Hu);
    [now apply list_elem_of_In|].
  cbn [fst snd] in *. exists name, content. split; [exact Hf|].
  split; [|exact Hu].
  destruct (include_manifest && _).
  - pose proof (update_manifest_files isoformat exported w1 name
                  (script_filename_not_manifest _ _ _ Hf)) as Hm.
    destruct (update_manifest_result isoformat exported w1) as [[[]|e] w2];
      [|discriminate].
    injection Hrun as _ <-. cbn [snd] in Hm. now rewrite Hm.
  - now injection Hrun as _ <-.
Qed.

(** X6. After a run that returns, every script of the input is on disk
    under the file name its declared name gives: the file holds the
    script's text, or (when it was found unchanged) a text that reads as
    it -- provided scripts that share a file name share their text. *)
Theorem exported_texts_on_disk (isoformat : nat -> string)
    (scripts : list (string * string)) (include_manifest : bool) (w w' : world)
    (result : list json * nat * nat * nat) :
  (forall u1 s1 u2 s2, In (u1, s1) scripts -> In (u2, s2) scripts ->
     script_filename u1 s1 = script_filename u2 s2 -> s1 = s2) ->
  export_userscripts isoformat scripts include_manifest w = (Ok result, w') ->
  forall uuid script, In (uuid, script) scripts ->
    exists name content,
      script_filename uuid script = Ok name
      /\ files w' !! name = Some content
      /\ (content = script \/ universal_newlines content = script).
Proof. apply export_run_on_disk. Qed.

Lemma exported_texts_on_disk_witness :
  exists name content,
    script_filename "id1" foo_bar_script = Ok name
    /\ files (export_userscripts tick_format
                [("id1", foo_bar_script); ("id2", baz_script)] true
                empty_world).2 !! name = Some content
    /\ (content = foo_bar_script \/ universal_newlines content = foo_bar_script).
Proof.
  apply (exported_texts_on_disk tick_format
           [("id1", foo_bar_script); ("id2", baz_script)] true empty_world _
           ([foo_bar_entry "T0"; baz_entry "T1"], 2, 0, 0)).
  - intros u1 s1 u2 s2 [[= <- <-]|[[= <- <-]|[]]] [[= <- <-]|[[= <- <-]|[]]];
      vm_compute; congruence.
  - vm_compute. reflexivity.
  - now left.
Defined.

(** ** How a run counts *)

Lemma export_script_counts isoformat exported added updated item w acc' w' :
  export_script isoformat (exported, added, updated) item w = (Ok acc', w') ->
  exists entry,
    acc' = (exported ++ [entry],
            added + (if is_added (files w) item then 1 else 0),
            updated + (if is_updated (files w) item then 1 else 0))
    /\ forall name, script_filename (fst item) (snd item) <> Ok name ->
         files w' !! name = files w !! name.
Proof.
  rewrite export_script_eq. unfold export_script_result, is_added, is_updated.
  destruct item as [uuid script]. cbn [fst snd].
  destruct (slugify_name _) as [[n slug]|e] eqn:Hs; [|discriminate].
  rewrite (script_filename_Ok _ _ _ _ Hs).
  destruct (files w !! (slug +:+ ".user.js")) as [content|] eqn:Hc.
  - destruct (String.eqb (universal_newlines content) script);
      intros [= <- <-]; eexists; cbn [negb files].
    + split; [now rewrite !Nat.add_0_r | reflexivity].
    + split; [now rewrite Nat.add_0_r|]. intros name Hne.
      apply lookup_insert_ne. congruence.
  - intros [= <- <-]. eexists. cbn [files].
    split; [now rewrite Nat.add_0_r|]. intros name Hne.
    apply lookup_insert_ne. congruence.
Qed.

Lemma is_added_agree fs fs' item :
  (forall name, script_filename (fst item) (snd item) = Ok name ->
     fs' !! name = fs !! name) ->
  is_added fs' item = is_added fs item /\ is_updated fs' item = is_updated fs item.
Proof.
  intros H. unfold is_added, is_updated.
  destruct (script_filename _ _) as [name|e]; [|now split].
  now rewrite (H name eq_refl).
Qed.

Lemma export_loop_counts isoformat scripts :
  forall exported added updated w acc' w',
    foldM (export_script isoformat) scripts (exported, added, updated) w
      = (Ok acc', w') ->
    exists entries added' updated',
      acc' = (exported ++ entries, added', updated')
      /\ length entries = length scripts
      /\ added' + updated' <= added + updated + length scripts
      /\ (NoDup (map (fun item => script_filename (fst item) (snd item)) scripts) ->
          added' = added + length (List.filter (is_added (files w)) scripts)
          /\ updated' = updated + length (List.filter (is_updated (files w)) scripts)).
Proof.
  induction scripts as [|item scripts IH];
    intros exported added updated w acc' w' Hrun.
  - injection Hrun as <- _. exists [], added, updated.
    rewrite app_nil_r. cbn. repeat split; lia.
  - rewrite foldM_cons in Hrun.
    destruct (export_script isoformat (exported, added, updated) item w)
      as [[acc1|e] w1] eqn:E; [|discriminate].
    destruct (export_script_counts _ _ _ _ _ _ _ _ E) as (entry & -> & Hframe).
    destruct (IH _ _ _ _ _ _ Hrun) as (entries & a' & u' & -> & Hlen & Hle & Hcls).
    exists (entry :: entries), a', u'. rewrite <- app_assoc.
    split; [reflexivity|]. split; [cbn; lia|]. split.
    { cbn [length]. destruct (is_added (files w) item) eqn:Ea;
        destruct (is_updated (files w) item) eqn:Eu; try lia.
      exfalso. unfold is_added, is_updated in Ea, Eu.
      destruct (script_filename _ _); [|discriminate].
      destruct (files w !! _); discriminate. }
    intros Hnd. cbn [map] in Hnd. apply NoDup_cons in Hnd as [Hnot Hnd].
    destruct (Hcls Hnd) as [Ha Hu].
    assert (Hagree : forall y, In y scripts ->
              is_added (files w1) y = is_added (files w) y
              /\ is_updated (files w1) y = is_updated (files w) y).
    { intros y Hy. apply is_added_agree. intros name Hname. apply Hframe.
      intros Hitem. apply Hnot. rewrite Hitem, <- Hname.
      apply list_elem_of_In, in_map_iff. now exists y. }
    rewrite (filter_ext_in _ (is_added (files w))) in Ha
      by (intros y Hy; apply (Hagree y Hy)).
    rewrite (filter_ext_in _ (is_updated (files w))) in Hu
      by (intros y Hy; apply (Hagree y Hy)).
    cbn [List.filter].
    destruct (is_added (files w) item); destruct (is_updated (files w) item);
      cbn [length]; lia.
Qed.

(** X7. A run that returns has exported one entry for each script of the
    input, and it has added or updated at most that many files.  When no
    two scripts share a file name, [added] is the number of scripts that
    had no file before the run and [updated] the number of those whose
    file read as another text. *)
Theorem export_counts (isoformat : nat -> string)
    (scripts : list (string * string)) (include_manifest : bool) (w w' : world)
    (exported : list json) (added updated removed : nat) :
  export_userscripts isoformat scripts include_manifest w
    = (Ok (exported, added, updated, removed), w') ->
  length exported = length scripts
  /\ added + updated <= length scripts
  /\ (NoDup (map (fun item => script_filename (fst item) (snd item)) scripts) ->
      added = length (List.filter (is_added (files w)) scripts)
      /\ updated = length (List.filter (is_updated (files w)) scripts)).
Proof.
  intros Hrun. rewrite export_userscripts_eq in Hrun.
  destruct (foldM _ _ _ w) as [[[[exported1 added1] updated1]|e] w1] eqn:Hloop;
    [|discriminate].
  destruct (export_loop_counts _ _ _ _ _ _ _ _ Hloop)
    as (entries & a' & u' & Hacc & Hlen & Hle & Hcls).
  injection Hacc as -> -> ->. cbn [app] in *.
  assert (Hres : exported = entries /\ added = a' /\ updated = u').
  { destruct (include_manifest && _).
    - destruct (update_manifest_result _ _ _) as [[[]|e] w2]; [|discriminate].
      now injection Hrun as <- <- <- _.
    - now injection Hrun as <- <- <- _. }
  destruct Hres as (-> & -> & ->). split; [exact Hlen|]. split; [lia|].
  intros Hnd. destruct (Hcls Hnd) as [Ha Hu]. split; [exact Ha | exact Hu].
Qed.

Lemma export_counts_witness :
  length [foo_bar_entry "T0"; baz_entry "T1"]
    = length [("id1", foo_bar_script'); ("id2", baz_script)]
  /\ 1 + 1 <= length [("id1", foo_bar_script'); ("id2", baz_script)]
  /\ (NoDup (map (fun item : string * string =>
                    script_filename (fst item) (snd item))
               [("id1", foo_bar_script'); ("id2", baz_script)]) ->
      1 = length (List.filter
                    (is_added (files (World {[ "foo-bar.user.js" := foo_bar_script ]} 0)))
                    [("id1", foo_bar_script'); ("id2", baz_script)])
      /\ 1 = length (List.filter
                      (is_updated (files (World {[ "foo-bar.user.js" := foo_bar_script ]} 0)))
                      [("id1", foo_bar_script'); ("id2", baz_script)])).
Proof.
  apply (export_counts tick_format [("id1", foo_bar_script'); ("id2", baz_script)]
           true (World {[ "foo-bar.user.js" := foo_bar_script ]} 0)
           (export_userscripts tick_format
              [("id1", foo_bar_script'); ("id2", baz_script)] true
              (World {[ "foo-bar.user.js" := foo_bar_script ]} 0)).2
           [foo_bar_entry "T0"; baz_entry "T1"] 1 1 0).
  vm_compute. reflexivity.
Defined.

(** ** A name declared twice *)

Lemma foldM_app {A B : Type} (f : B -> A -> M B) l1 l2 acc w :
  foldM f (l1 ++ l2) acc w
  = match foldM f l1 acc w with
    | (Ok acc', w') => foldM f l2 acc' w'
    | (Raise e, w') => (Raise e, w')
    end.
Proof.
  revert acc w. induction l1 as [|x l1 IH]; intros acc w; [reflexivity|].
  cbn [app]. rewrite !foldM_cons. destruct (f acc x w) as [[acc'|e] w'];
    [apply IH | reflexivity].
Qed.

(** X8. A script whose header declares [@name] more than once stops the
    run: its name is a list, [slugify] has no [lower] to call on it, and
    the run ends on [AttributeError].  The scripts before it are exported,
    the script itself and those after it are not, and the manifest is not
    written. *)
Theorem twice_named_script_faults (isoformat : nat -> string)
    (before after : list (string * string)) (uuid script : string)
    (names : list string) (include_manifest : bool) (w w1 : world)
    (acc : list json * nat * nat) :
  dict_get "name" (parse_userscript_metadata script) = Some (MList names) ->
  foldM (export_script isoformat) before ([], 0, 0) w = (Ok acc, w1) ->
  export_userscripts isoformat (before ++ (uuid, script) :: after)
    include_manifest w
  = (Raise AttributeError, w1)
  /\ files w1 !! manifest_name = files w !! manifest_name.
Proof.
  intros Hname Hloop. split.
  - rewrite export_userscripts_eq, foldM_app, Hloop, foldM_cons.
    rewrite export_script_eq. unfold export_script_result.
    destruct acc as [[exported added] updated].
    unfold script_name. rewrite Hname. reflexivity.
  - pose proof (export_loop_manifest isoformat before ([], 0, 0) w) as H.
    now rewrite Hloop in H.
Qed.

Lemma twice_named_script_faults_witness :
  export_userscripts tick_format
    ([("id1", foo_bar_script)] ++ ("id2", twice_named_script)
       :: [("id3", baz_script)]) true empty_world
  = (Raise AttributeError,
     World {[ "foo-bar.user.js" := foo_bar_script ]} 1)
  /\ files (World {[ "foo-bar.user.js" := foo_bar_script ]} 1) !! manifest_name
     = files empty_world !! manifest_name.
Proof.
  apply (twice_named_script_faults tick_format [("id1", foo_bar_script)]
           [("id3", baz_script)] "id2" twice_named_script ["One"; "Two"] true
           empty_world (World {[ "foo-bar.user.js" := foo_bar_script ]} 1)
           ([foo_bar_entry "T0"], 1, 0)).
  - vm_compute. reflexivity.
  - vm_compute. reflexivity.
Defined.


(** ** The encoder writes ASCII *)

Lemma str_all_take_while p s : str_all p (take_while p s) = true.
Proof.
  induction s as [|c s IH]; [reflexivity|]. cbn [take_while].
  destruct (p c) eqn:E; [|reflexivity]. cbn [str_all]. now rewrite E.
Qed.

Lemma is_digit_ascii_text c : is_digit c = true -> is_ascii_text c = true.
Proof. destruct c as [[] [] [] [] [] [] [] []]; vm_compute; congruence. Qed.

Lemma digits1_ascii s ds r :
  digits1 s = Some (ds, r) -> str_all is_ascii_text ds = true.
Proof.
  unfold digits1. pose proof (str_all_take_while is_digit s) as H.
  destruct (take_while is_digit s) as [|d ds']; [discriminate|].
  intros [= <- _]. exact (str_all_impl _ _ _ is_digit_ascii_text H).
Qed.

Lemma match_number_ascii s lit r :
  match_number s = Some (lit, r) -> str_all is_ascii_text lit = true.
Proof.
  unfold match_number.
  destruct (number_int (number_sign s).2) as [[i s2]|] eqn:Ei; [|discriminate].
  cbn [mbind option_bind fst snd]. intros [= <- _].
  rewrite !str_all_append.
  assert (H1 : str_all is_ascii_text (fst (number_sign s)) = true).
  { destruct s as [|c s]; [reflexivity|]. cbn [number_sign].
    now destruct (c =? "-")%char. }
  assert (H2 : str_all is_ascii_text i = true).
  { revert Ei. generalize (snd (number_sign s)). intros s1.
    destruct s1 as [|d s1]; [discriminate|]. cbn [number_int].
    destruct (d =? "0")%char; [now intros [= <- _]|].
    destruct (in_range 49 57 d) eqn:Hd; [|discriminate]. intros [= <- _].
    cbn [str_all].
    rewrite (str_all_impl _ _ _ is_digit_ascii_text (str_all_take_while _ _)).
    rewrite andb_true_r. apply is_digit_ascii_text. unfold is_digit, in_range in *.
    apply andb_true_iff in Hd as [Ha Hb]. apply Nat.leb_le in Ha.
    rewrite Hb, andb_true_r. apply Nat.leb_le. lia. }
  assert (H3 : forall t, str_all is_ascii_text (fst (number_frac t)) = true).
  { intros t. destruct t as [|c t]; [reflexivity|]. cbn [number_frac].
    destruct (Ascii.eqb_spec c ".") as [->|]; [|reflexivity].
    destruct (digits1 t) as [[ds r']|] eqn:Ed; [|reflexivity].
    cbn [fst str_all]. now rewrite (digits1_ascii _ _ _ Ed). }
  assert (H4 : forall t, str_all is_ascii_text (fst (number_exp t)) = true).
  { intros t. destruct t as [|e t]; [reflexivity|]. cbn [number_exp].
    destruct ((e =? "e")%char || (e =? "E")%char) eqn:Ee; [|reflexivity].
    assert (He : is_ascii_text e = true).
    { apply orb_true_iff in Ee as [H|H]; apply Ascii.eqb_eq in H; now subst e. }
    destruct t as [|c t']; [reflexivity|].
    destruct ((c =? "+")%char || (c =? "-")%char) eqn:Ec; cbn [fst snd].
    - destruct (digits1 t') as [[ds r']|] eqn:Ed; [|reflexivity].
      cbn [fst String.append str_all]. rewrite He, (digits1_ascii _ _ _ Ed).
      apply orb_true_iff in Ec as [H|H]; apply Ascii.eqb_eq in H; now subst c.
    - destruct (digits1 (String c t')) as [[ds r']|] eqn:Ed; [|reflexivity].
      cbn [fst String.append str_all]. now rewrite He, (digits1_ascii _ _ _ Ed). }
  now rewrite H1, H2, H3, H4.
Qed.

Lemma number_literal_ascii lit :
  number_literal lit = true -> str_all is_ascii_text lit = true.
Proof.
  unfold number_literal.
  assert (Hconst : String.eqb lit "NaN" || String.eqb lit "Infinity"
                   || String.eqb lit "-Infinity" = true ->
                   str_all is_ascii_text lit = true).
  { intros H. apply orb_true_iff in H as [H|H];
      [apply orb_true_iff in H as [H|H]|];
      apply String.eqb_eq in H; now subst lit. }
  destruct (match_number lit) as [[l r]|] eqn:E; [|exact Hconst].
  destruct r; [|exact Hconst]. intros _.
  pose proof (match_number_split _ _ _ E) as Hl. rewrite append_nil_r in Hl.
  subst l. exact (match_number_ascii _ _ _ E).
Qed.

Lemma escape_char_ascii c : str_all is_ascii_text (escape_char c) = true.
Proof. destruct c as [[] [] [] [] [] [] [] []]; reflexivity. Qed.

Lemma escape_string_ascii s : str_all is_ascii_text (escape_string s) = true.
Proof.
  induction s as [|c s IH]; [reflexivity|]. cbn [escape_string].
  now rewrite str_all_append, escape_char_ascii, IH.
Qed.

Lemma encode_string_ascii s : str_all is_ascii_text (encode_string s) = true.
Proof.
  unfold encode_string. rewrite str_all_append. cbn [str_all].
  now rewrite escape_string_ascii.
Qed.

Lemma newline_indent_ascii level : str_all is_ascii_text (newline_indent level) = true.
Proof.
  unfold newline_indent. cbn [str_all]. generalize (2 * level). intros n.
  induction n as [|n IH]; [reflexivity | exact IH].
Qed.

Lemma concat_ascii sep texts :
  str_all is_ascii_text sep = true ->
  Forall (fun t => str_all is_ascii_text t = true) texts ->
  str_all is_ascii_text (String.concat sep texts) = true.
Proof.
  intros Hsep Hall. induction Hall as [|t ts Ht Hts IH]; [reflexivity|].
  destruct ts as [|t' ts]; [exact Ht|].
  change (String.concat sep (t :: t' :: ts))
    with (t +:+ sep +:+ String.concat sep (t' :: ts)).
  now rewrite !str_all_append, Ht, Hsep, IH.
Qed.

Lemma json_dump_ascii v :
  json_wf v = true -> forall level, str_all is_ascii_text (json_dump level v) = true.
Proof.
  induction v as [|b|lit|str|items IH|members IH] using json_induction;
    intros Hwf level.
  - reflexivity.
  - now destruct b.
  - now apply number_literal_ascii.
  - apply encode_string_ascii.
  - destruct items as [|x xs]; [reflexivity|].
    change (json_dump level (JArr (x :: xs)))
      with ("[" +:+ newline_indent (S level)
            +:+ String.concat (separator (S level))
                  (map (json_dump (S level)) (x :: xs))
            +:+ newline_indent level +:+ "]").
    rewrite !str_all_append, !newline_indent_ascii. cbn [str_all andb].
    change (is_ascii_text "[") with true. change (is_ascii_text "]") with true.
    cbn [andb]. rewrite andb_true_r. apply concat_ascii.
    + unfold separator. cbn [String.append str_all]. apply newline_indent_ascii.
    + apply Forall_map. cbn [json_wf] in Hwf. rewrite forallb_forall in Hwf.
      rewrite Forall_forall in IH |- *. intros y Hy. apply (IH y Hy).
      apply Hwf. now apply list_elem_of_In.
  - destruct members as [|kv ms]; [reflexivity|].
    change (json_dump level (JObj (kv :: ms)))
      with ("{" +:+ newline_indent (S level)
            +:+ String.concat (separator (S level))
                  (map (member_text (S level)) (kv :: ms))
            +:+ newline_indent level +:+ "}").
    rewrite !str_all_append, !newline_indent_ascii. cbn [str_all andb].
    change (is_ascii_text "{") with true. change (is_ascii_text "}") with true.
    cbn [andb]. rewrite andb_true_r. apply concat_ascii.
    + unfold separator. cbn [String.append str_all]. apply newline_indent_ascii.
    + apply Forall_map. cbn [json_wf] in Hwf.
      apply andb_true_iff in Hwf as [_ Hwf]. rewrite forallb_forall in Hwf.
      rewrite Forall_forall in IH |- *. intros y Hy. unfold member_text.
      rewrite !str_all_append, encode_string_ascii. cbn [str_all andb].
      change (is_ascii_text ":") with true. change (is_ascii_text " ") with true.
      cbn [andb]. apply (IH y Hy). apply Hwf. now apply list_elem_of_In.
Qed.

Lemma universal_newlines_ascii s :
  str_all is_ascii_text s = true -> universal_newlines s = s.
Proof.
  induction s as [|c s IH]; [reflexivity|]. cbn [str_all universal_newlines].
  intros H. apply andb_true_iff in H as [Hc Hs].
  destruct (Ascii.eqb_spec c carriage_return) as [->|]; [discriminate Hc|].
  now rewrite IH.
Qed.

(** ** The entries and the merged manifest are well formed *)

Lemma add_meta_distinct key value metadata :
  distinct_keys (map fst metadata) = true ->
  distinct_keys (map fst (add_meta key value metadata)) = true.
Proof.
  intros H. unfold add_meta.
  destruct (dict_get key metadata) as [[v|l]|]; now apply distinct_keys_dict_set.
Qed.

Lemma parse_userscript_metadata_distinct script :
  distinct_keys (map fst (parse_userscript_metadata script)) = true.
Proof.
  unfold parse_userscript_metadata.
  destruct (search_header script) as [header|]; [|reflexivity].
  assert (H : distinct_keys (map fst (@nil (string * meta_value))) = true)
    by reflexivity.
  revert H. generalize (@nil (string * meta_value)).
  induction (split_on newline header) as [|line lines IH]; intros metadata H;
    [exact H|].
  cbn [fold_left]. apply IH. unfold add_line.
  destruct (line_entry line) as [[k v]|]; [now apply add_meta_distinct | exact H].
Qed.

Lemma metadata_json_wf metadata :
  distinct_keys (map fst metadata) = true -> json_wf (metadata_json metadata) = true.
Proof.
  intros H. unfold metadata_json. cbn [json_wf].
  assert (Hk : map fst (map (fun kv : string * meta_value =>
                              (fst kv, meta_json (snd kv))) metadata)
               = map fst metadata).
  { clear H. induction metadata as [|[k v] m IHm]; [reflexivity|].
    cbn [map fst]. now rewrite IHm. }
  rewrite Hk, H. cbn [andb]. rewrite forallb_forall. intros kv Hin.
  apply in_map_iff in Hin as ([k v] & <- & _). cbn [snd].
  destruct v as [s|l]; [reflexivity|]. cbn [meta_json json_wf].
  rewrite forallb_forall. intros x Hx. now apply in_map_iff in Hx as (y & <- & _).
Qed.

Lemma entry_at_wf isoformat t item entry :
  entry_at isoformat t item = Ok entry -> json_wf entry = true.
Proof.
  unfold entry_at. destruct (slugify_name _) as [[n slug]|]; [|discriminate].
  intros [= <-]. unfold exported_entry. cbn [json_wf map fst snd forallb].
  rewrite (metadata_json_wf _ (parse_userscript_metadata_distinct _)).
  reflexivity.
Qed.

Lemma entries_from_wf isoformat t scripts entries :
  entries_from isoformat t scripts = Ok entries -> forallb json_wf entries = true.
Proof.
  revert t entries. induction scripts as [|x scripts IH]; intros t entries H.
  - now injection H as <-.
  - cbn [entries_from] in H.
    destruct (entry_at isoformat t x) as [e|] eqn:He; [|discriminate].
    cbn [mbind outcome_bind] in H.
    destruct (entries_from isoformat (S t) scripts) as [es|] eqn:Hes; [|discriminate].
    injection H as <-. cbn [forallb].
    now rewrite (entry_at_wf _ _ _ _ He), (IH _ _ Hes).
Qed.

Lemma dict_get_wf key members v :
  forallb (fun kv : string * json => json_wf (snd kv)) members = true ->
  dict_get key members = Some v -> json_wf v = true.
Proof.
  induction members as [|[k0 v0] members IH]; [discriminate|].
  cbn [forallb dict_get snd]. intros H. apply andb_true_iff in H as [H1 H2].
  destruct (String.eqb k0 key); [now intros [= <-] | now apply IH].
Qed.

Lemma loaded_manifest_wf created fs : json_wf (loaded_manifest created fs) = true.
Proof.
  unfold loaded_manifest. destruct (fs !! manifest_name) as [content|];
    [|reflexivity].
  destruct (json_loads _) as [loaded|] eqn:E; [|reflexivity].
  exact (json_loads_wf _ _ E).
Qed.

Lemma merge_row_wf existing rows exp :
  json_wf exp = true -> forallb json_wf rows = true ->
  forallb json_wf (merge_row existing rows exp) = true.
Proof.
  intros He Hrows. unfold merge_row.
  destruct (py_getitem exp "uuid") as [[| | |uuid| |]|]; try exact Hrows.
  unfold merge_rows. destruct (existsb _ _).
  - rewrite forallb_forall in Hrows |- *. intros x Hx.
    apply in_map_iff in Hx as (s & <- & Hs).
    destruct (row_has_uuid uuid s); [exact He | now apply Hrows].
  - rewrite forallb_app, Hrows. cbn. now rewrite He.
Qed.

Lemma merge_fold_wf existing exported rows :
  forallb json_wf exported = true -> forallb json_wf rows = true ->
  forallb json_wf (fold_left (merge_row existing) exported rows) = true.
Proof.
  revert rows. induction exported as [|e es IH]; intros rows He Hrows;
    [exact Hrows|].
  cbn [forallb fold_left] in *. apply andb_true_iff in He as [He Hes].
  apply IH; [exact Hes | now apply merge_row_wf].
Qed.

(** ** Rows with a hashable id *)

Lemma map_outcome_row_ok rows :
  (exists existing, map_outcome row_uuid rows = Ok existing)
  <-> forallb row_ok rows = true.
Proof.
  induction rows as [|row rows IH]; [split; [reflexivity | now exists []]|].
  cbn [map_outcome forallb]. unfold row_ok at 1.
  destruct (row_uuid row) as [u|e]; cbn [mbind outcome_bind andb].
  - rewrite <- IH. split.
    + intros [existing H].
      destruct (map_outcome row_uuid rows) as [us|]; [now exists us | discriminate].
    + intros [us ->]. now eexists.
  - split; [now intros [? ?] | discriminate].
Qed.

Lemma has_str_uuid_row_ok row : has_str_uuid row -> row_ok row = true.
Proof. intros [uuid H]. unfold row_ok, row_uuid. now rewrite H. Qed.

Lemma merge_row_ok existing rows exp :
  has_str_uuid exp -> forallb row_ok rows = true ->
  forallb row_ok (merge_row existing rows exp) = true.
Proof.
  intros He Hrows. pose proof (has_str_uuid_row_ok _ He) as Hok.
  unfold merge_row. destruct He as [uuid ->]. unfold merge_rows.
  destruct (existsb _ _).
  - rewrite forallb_forall in Hrows |- *. intros x Hx.
    apply in_map_iff in Hx as (s & <- & Hs).
    destruct (row_has_uuid uuid s); [exact Hok | now apply Hrows].
  - rewrite forallb_app, Hrows. cbn. now rewrite Hok.
Qed.

Lemma merge_fold_ok existing exported rows :
  Forall has_str_uuid exported -> forallb row_ok rows = true ->
  forallb row_ok (fold_left (merge_row existing) exported rows) = true.
Proof.
  intros He. revert rows. induction He as [|e es Hhe _ IH]; intros rows Hrows;
    [exact Hrows|].
  cbn [fold_left]. apply IH. now apply merge_row_ok.
Qed.

(** The update of a manifest the merge can work on, in closed form. *)
Lemma merged_manifest_ok exported members rows :
  dict_get "scripts" members = Some (JArr rows) ->
  forallb row_ok rows = true ->
  Forall has_str_uuid exported ->
  exists existing,
    existing_uuids (JObj members) = Ok existing
    /\ merged_manifest exported (JObj members)
       = Ok (JObj (dict_set "scripts"
                     (JArr (fold_left (merge_row existing) exported rows))
                     members)).
Proof.
  intros Hs Hrows He.
  destruct (proj2 (map_outcome_row_ok rows) Hrows) as [existing Hex].
  exists existing.
  assert (Hexist : existing_uuids (JObj members) = Ok existing).
  { unfold existing_uuids. cbn [py_get]. rewrite Hs.
    cbn [mbind outcome_bind py_iter]. exact Hex. }
  split; [exact Hexist|]. unfold merged_manifest. rewrite Hexist.
  cbn [mbind outcome_bind]. apply merge_fold_eq; [exact He | exact Hs|].
  exact (proj2 (existing_has_uuid _ _ "" (map_outcome_uuids _ _ Hex))).
Qed.

(** What a run that updates the manifest starts from and writes. *)
Lemma export_userscripts_final isoformat scripts w w' exported added updated
    removed :
  export_userscripts isoformat scripts true w
    = (Ok (exported, added, updated, removed), w') ->
  0 < added + updated ->
  exists members rows existing,
    loaded_manifest (isoformat (clock w + length scripts)) (files w)
      = JObj members
    /\ dict_get "scripts" members = Some (JArr rows)
    /\ forallb row_ok rows = true
    /\ Forall has_str_uuid exported
    /\ forallb json_wf exported = true
    /\ files w' !! manifest_name
       = Some (json_dumps
                 (JObj (dict_set "last_updated"
                          (JStr (isoformat (S (clock w + length scripts))))
                          (dict_set "scripts"
                             (JArr (fold_left (merge_row existing) exported rows))
                             members)))).
Proof.
  intros Hrun Hchg.
  destruct (export_userscripts_manifest _ _ _ _ _ _ _ _ _ Hrun) as [Hes Hbranch].
  assert (Hg : true && ((0 <? added) || (0 <? updated)) = true).
  { destruct added; [destruct updated; [lia|]|]; reflexivity. }
  rewrite Hg in Hbranch. destruct Hbranch as (merged & final & Hmg & Hfin & Hfile).
  pose proof (entries_from_str_uuid _ _ _ _ Hes) as Hstr.
  pose proof (entries_from_wf _ _ _ _ Hes) as Hwf.
  destruct exported as [|exp exported].
  { exfalso. destruct scripts as [|x scripts].
    - rewrite export_userscripts_nil in Hrun. injection Hrun as <- <- _. lia.
    - cbn [entries_from] in Hes. destruct (entry_at _ _ _); [|discriminate].
      cbn [mbind outcome_bind] in Hes.
      destruct (entries_from _ _ _); discriminate. }
  destruct (merged_manifest_shape _ _ _ _ Hmg)
    as (members & rows & existing0 & Hman & Hs & Hex & _).
  assert (Hrows : forallb row_ok rows = true).
  { apply map_outcome_row_ok. exists existing0. rewrite Hman in Hex.
    unfold existing_uuids in Hex. cbn [py_get] in Hex. rewrite Hs in Hex.
    exact Hex. }
  destruct (merged_manifest_ok (exp :: exported) members rows Hs Hrows Hstr)
    as (existing & _ & Hclosed).
  rewrite Hman, Hclosed in Hmg. injection Hmg as <-. cbn [py_setitem] in Hfin.
  injection Hfin as <-.
  exists members, rows, existing. repeat split; assumption.
Qed.

Lemma final_manifest_wf members rows existing exported stamp :
  json_wf (JObj members) = true ->
  dict_get "scripts" members = Some (JArr rows) ->
  forallb json_wf exported = true ->
  json_wf (JObj (dict_set "last_updated" (JStr stamp)
                   (dict_set "scripts"
                      (JArr (fold_left (merge_row existing) exported rows))
                      members))) = true.
Proof.
  intros Hwf Hs He. cbn [json_wf] in *. apply andb_true_iff in Hwf as [Hk Hv].
  pose proof (dict_get_wf _ _ _ Hv Hs) as Hrows. cbn [json_wf] in Hrows.
  rewrite distinct_keys_dict_set
    by (apply distinct_keys_dict_set; exact Hk).
  cbn [andb].
  apply (forallb_dict_set json_wf); [reflexivity|].
  apply (forallb_dict_set json_wf); [|exact Hv].
  cbn [json_wf]. now apply merge_fold_wf.
Qed.

Lemma run_returns_of_manifest_ok isoformat scripts w w1 exported added updated :
  foldM (export_script isoformat) scripts ([], 0, 0) w
    = (Ok (exported, added, updated), w1) ->
  manifest_ok (loaded_manifest (isoformat (clock w1)) (files w1)) = true ->
  exists result w',
    export_userscripts isoformat scripts true w = (Ok result, w').
Proof.
  intros Hloop Hok.
  destruct (export_loop_entries _ _ _ _ _ _ _ _ Hloop)
    as (entries & a' & u' & Hent & Hacc & Hclock).
  injection Hacc as -> _ _. cbn [app] in *.
  rewrite export_userscripts_eq, Hloop.
  destruct (true && _); [|eauto].
  unfold update_manifest_result.
  destruct (loaded_manifest _ (files w1)) as [| | | | |members]; try discriminate.
  cbn [manifest_ok] in Hok.
  destruct (dict_get "scripts" members) as [[| | | |rows|]|] eqn:Hs;
    try discriminate.
  destruct (merged_manifest_ok entries members rows Hs Hok
              (entries_from_str_uuid _ _ _ _ Hent)) as (existing & _ & ->).
  cbn [py_setitem]. eauto.
Qed.

Lemma written_manifest isoformat scripts w w' exported added updated removed :
  export_userscripts isoformat scripts true w
    = (Ok (exported, added, updated, removed), w') ->
  0 < added + updated ->
  exists final,
    files w' !! manifest_name = Some (json_dumps final)
    /\ str_all is_ascii_text (json_dumps final) = true
    /\ (forall created, loaded_manifest created (files w') = final)
    /\ manifest_ok final = true.
Proof.
  intros Hrun Hchg.
  destruct (export_userscripts_final _ _ _ _ _ _ _ _ Hrun Hchg)
    as (members & rows & existing & Hman & Hs & Hrows & Hstr & Hwf & Hfile).
  eexists. split; [exact Hfile|].
  assert (Hfinal : json_wf
            (JObj (dict_set "last_updated"
                     (JStr (isoformat (S (clock w + length scripts))))
                     (dict_set "scripts"
                        (JArr (fold_left (merge_row existing) exported rows))
                        members))) = true).
  { apply final_manifest_wf; [|exact Hs | exact Hwf].
    rewrite <- Hman. apply loaded_manifest_wf. }
  pose proof (json_dump_ascii _ Hfinal 0) as Hascii.
  match type of Hascii with
  | str_all _ (json_dump 0 ?v) = true =>
      change (str_all is_ascii_text (json_dumps v) = true) in Hascii
  end.
  split; [exact Hascii|].
  split.
  - intros created. unfold loaded_manifest. rewrite Hfile.
    rewrite (universal_newlines_ascii _ Hascii).
    now rewrite (json_loads_dumps _ Hfinal).
  - cbn [manifest_ok]. rewrite dict_get_set_ne by discriminate.
    rewrite dict_get_set_eq. now apply merge_fold_ok.
Qed.

(** X9. Let the manifest file, when there is one, read as a text within
    the limits of the decoder's model.  A run that has added or updated a
    script and now turns to the manifest returns exactly when the manifest
    it starts from -- the decoded file, or the empty manifest when the
    file is missing or is refused with [json.JSONDecodeError] -- is an
    object whose [scripts] is a list of rows that each have a hashable
    [uuid]. *)
Theorem manifest_update_returns_iff (isoformat : nat -> string)
    (scripts : list (string * string)) (w w1 : world)
    (exported : list json) (added updated : nat) :
  foldM (export_script isoformat) scripts ([], 0, 0) w
    = (Ok (exported, added, updated), w1) ->
  0 < added + updated ->
  file_within_limits (files w1) manifest_name = true ->
  (exists result w',
     export_userscripts isoformat scripts true w = (Ok result, w'))
  <-> manifest_ok (loaded_manifest (isoformat (clock w1)) (files w1)) = true.
Proof.
  intros Hloop Hchg _.
  destruct (export_loop_entries _ _ _ _ _ _ _ _ Hloop)
    as (entries & a' & u' & Hent & Hacc & Hclock).
  injection Hacc as -> _ _. cbn [app] in *.
  pose proof (export_loop_manifest isoformat scripts ([], 0, 0) w) as Hm.
  rewrite Hloop in Hm. cbn [snd] in Hm.
  assert (Hload : loaded_manifest (isoformat (clock w1)) (files w1)
                  = loaded_manifest (isoformat (clock w + length scripts)) (files w)).
  { unfold loaded_manifest. now rewrite Hm, Hclock. }
  rewrite Hload. split.
  - intros ([[[exported' added'] updated'] removed'] & w' & Hrun).
    assert (Hsame : added' = added /\ updated' = updated).
    { rewrite export_userscripts_eq, Hloop in Hrun.
      destruct (true && _).
      - destruct (update_manifest_result _ _ _) as [[[]|e] w2]; [|discriminate].
        now injection Hrun as _ <- <- _.
      - now injection Hrun as _ <- <- _. }
    destruct Hsame as [-> ->].
    destruct (export_userscripts_final _ _ _ _ _ _ _ _ Hrun Hchg)
      as (members & rows & existing & Hman & Hs & Hrows & _).
    rewrite Hman. cbn [manifest_ok]. now rewrite Hs.
  - intros Hok. apply (run_returns_of_manifest_ok _ _ _ _ _ _ _ Hloop).
    now rewrite Hload.
Qed.

Lemma manifest_update_returns_iff_witness :
  let w1 := World (<[ "foo-bar.user.js" := foo_bar_script ]>
                     {[ manifest_name := "{}" ]}) 1 in
  (exists result w',
     export_userscripts tick_format [("id1", foo_bar_script)] true
       (World {[ manifest_name := "{}" ]} 0) = (Ok result, w'))
  <-> manifest_ok (loaded_manifest (tick_format (clock w1)) (files w1)) = true.
Proof.
  exact (manifest_update_returns_iff tick_format [("id1", foo_bar_script)]
           (World {[ manifest_name := "{}" ]} 0)
           (World (<[ "foo-bar.user.js" := foo_bar_script ]>
                     {[ manifest_name := "{}" ]}) 1)
           [foo_bar_entry "T0"] 1 0 eq_refl (Nat.lt_0_succ 0) eq_refl).
Defined.

(** X10. The manifest a run writes is ASCII text that the next run reads
    back as the very value that was written, and that value is a manifest
    the merge can work on. *)
Theorem manifest_written_reads_back (isoformat : nat -> string)
    (scripts : list (string * string)) (w w' : world)
    (exported : list json) (added updated removed : nat) :
  export_userscripts isoformat scripts true w
    = (Ok (exported, added, updated, removed), w') ->
  0 < added + updated ->
  exists final,
    files w' !! manifest_name = Some (json_dumps final)
    /\ str_all is_ascii_text (json_dumps final) = true
    /\ (forall created, loaded_manifest created (files w') = final)
    /\ manifest_ok final = true.
Proof. apply written_manifest. Qed.

Lemma manifest_written_reads_back_witness :
  exists final,
    files (export_userscripts tick_format [("id2", baz_script)] true
             listed_world).2 !! manifest_name = Some (json_dumps final)
    /\ str_all is_ascii_text (json_dumps final) = true
    /\ (forall created,
          loaded_manifest created
            (files (export_userscripts tick_format [("id2", baz_script)]
                      true listed_world).2) = final)
    /\ manifest_ok final = true.
Proof.
  apply (manifest_written_reads_back tick_format [("id2", baz_script)]
           listed_world
           (export_userscripts tick_format [("id2", baz_script)] true
              listed_world).2
           [baz_entry "T0"] 1 0 0).
  - vm_compute. reflexivity.
  - lia.
Defined.

(** X11. Once a run has written the manifest, no later run stops at the
    manifest: whatever its input, a later run on that directory returns
    as soon as its export loop does. *)
Theorem later_run_accepts_manifest (isoformat : nat -> string)
    (scripts scripts2 : list (string * string)) (w w' w2 : world)
    (exported : list json) (added updated removed : nat)
    (acc2 : list json * nat * nat) :
  export_userscripts isoformat scripts true w
    = (Ok (exported, added, updated, removed), w') ->
  0 < added + updated ->
  foldM (export_script isoformat) scripts2 ([], 0, 0) w' = (Ok acc2, w2) ->
  exists result w'',
    export_userscripts isoformat scripts2 true w' = (Ok result, w'').
Proof.
  intros Hrun Hchg Hloop. destruct acc2 as [[exported2 added2] updated2].
  apply (run_returns_of_manifest_ok _ _ _ _ _ _ _ Hloop).
  destruct (written_manifest _ _ _ _ _ _ _ _ Hrun Hchg)
    as (final & _ & _ & Hload & Hok).
  pose proof (export_loop_manifest isoformat scripts2 ([], 0, 0) w') as Hm.
  rewrite Hloop in Hm. cbn [snd] in Hm.
  assert (Hsame : loaded_manifest (isoformat (clock w2)) (files w2)
                  = loaded_manifest (isoformat (clock w2)) (files w')).
  { unfold loaded_manifest. now rewrite Hm. }
  now rewrite Hsame, Hload.
Qed.

Lemma later_run_accepts_manifest_witness :
  exists result w'',
    export_userscripts tick_format [("id1", foo_bar_script')] true
      (export_userscripts tick_format [("id2", baz_script)] true listed_world).2
    = (Ok result, w'').
Proof.
  apply (later_run_accepts_manifest tick_format [("id2", baz_script)]
           [("id1", foo_bar_script')] listed_world
           (export_userscripts tick_format [("id2", baz_script)] true
              listed_world).2
           (foldM (export_script tick_format) [("id1", foo_bar_script')]
              ([], 0, 0)
              (export_userscripts tick_format [("id2", baz_script)] true
                 listed_world).2).2
           [baz_entry "T0"] 1 0 0 ([foo_bar_entry "T3"], 0, 1)).
  - vm_compute. reflexivity.
  - lia.
  - vm_compute. reflexivity.
Defined.


(** ** The copy to the destination *)

Lemma glob_user_js_spec out name source :
  In (name, source) (glob_user_js out)
  <-> out !! name = Some source /\ is_user_js name = true.
Proof.
  unfold glob_user_js. rewrite filter_In. cbn [fst].
  rewrite <- list_elem_of_In, elem_of_map_to_list. reflexivity.
Qed.

Lemma glob_user_js_NoDup out : NoDup (map fst (glob_user_js out)).
Proof.
  unfold glob_user_js. pose proof (NoDup_fst_map_to_list out) as H.
  induction (map_to_list out) as [|[n s] l IH]; [constructor|].
  cbn [map fst] in H. apply NoDup_cons in H as [Hn Hl].
  cbn [List.filter fst]. destruct (is_user_js n); [|now apply IH].
  cbn [map fst]. apply NoDup_cons. split; [|now apply IH].
  intros Hin. apply Hn. apply list_elem_of_In in Hin. apply list_elem_of_In.
  apply in_map_iff in Hin as ([n' s'] & Heq & Hin). cbn [fst] in Heq. subst n'.
  apply filter_In in Hin as [Hin _]. apply in_map_iff. now exists (n, s').
Qed.

Lemma dest_filename_inj n1 n2 : dest_filename n1 = dest_filename n2 -> n1 = n2.
Proof. unfold dest_filename. now intros [= H]. Qed.

Lemma universal_newlines_no_cr s :
  str_all (fun c => negb (c =? carriage_return)%char) (universal_newlines s) = true.
Proof.
  assert (H : forall n s, String.length s <= n ->
            str_all (fun c => negb (c =? carriage_return)%char)
              (universal_newlines s) = true).
  { clear s. induction n as [|n IH]; intros s Hlen.
    - destruct s; [reflexivity | cbn in Hlen; lia].
    - destruct s as [|c s]; [reflexivity|]. cbn [String.length] in Hlen.
      cbn [universal_newlines].
      destruct (c =? carriage_return)%char eqn:Ec.
      + destruct s as [|d s']; [reflexivity|]. cbn [String.length] in Hlen.
        destruct (d =? newline)%char; cbn [str_all];
          replace (negb (newline =? carriage_return)%char) with true
            by reflexivity; cbn [andb]; apply IH; cbn [String.length]; lia.
      + cbn [str_all]. rewrite Ec. cbn [negb andb]. apply IH. lia. }
  exact (H _ s (le_n _)).
Qed.

Lemma universal_newlines_fixed s :
  str_all (fun c => negb (c =? carriage_return)%char) s = true ->
  universal_newlines s = s.
Proof.
  induction s as [|c s IH]; [reflexivity|]. cbn [str_all universal_newlines].
  intros H. apply andb_true_iff in H as [Hc Hs]. apply negb_true_iff in Hc.
  now rewrite Hc, IH.
Qed.

Lemma universal_newlines_idem s :
  universal_newlines (universal_newlines s) = universal_newlines s.
Proof. apply universal_newlines_fixed, universal_newlines_no_cr. Qed.

(** The loop over a listing without repeated names. *)
Lemma copy_loop_spec listing :
  NoDup (map fst listing) ->
  forall dest added skipped overwritten dest' added' skipped' overwritten',
    fold_left copy_script listing (dest, added, skipped, overwritten)
      = (dest', added', skipped', overwritten') ->
    (forall name source, In (name, source) listing ->
       exists content,
         dest' !! dest_filename name = Some content
         /\ universal_newlines content = universal_newlines source
         /\ (content = source \/ dest !! dest_filename name = Some content))
    /\ (forall file,
          (forall name source, In (name, source) listing ->
             file <> dest_filename name) ->
          dest' !! file = dest !! file)
    /\ added' + skipped' + overwritten'
       = added + skipped + overwritten + length listing.
Proof.
  induction listing as [|[n src] listing IH];
    intros Hnd dest added skipped overwritten dest' added' skipped' overwritten' H.
  - injection H as <- <- <- <-.
    split; [intros ? ? [] | split; [reflexivity | cbn; lia]].
  - cbn [map fst] in Hnd. apply NoDup_cons in Hnd as [Hn Hnd].
    cbn [fold_left] in H.
    assert (Hstep : exists dest1 a1 s1 o1,
               copy_script (dest, added, skipped, overwritten) (n, src)
                 = (dest1, a1, s1, o1)
               /\ a1 + s1 + o1 = added + skipped + overwritten + 1
               /\ (forall file, file <> dest_filename n ->
                     dest1 !! file = dest !! file)
               /\ exists content,
                    dest1 !! dest_filename n = Some content
                    /\ universal_newlines content = universal_newlines src
                    /\ (content = src \/ dest !! dest_filename n = Some content)).
    { cbn [copy_script].
      destruct (dest !! dest_filename n) as [dc|] eqn:Hd.
      - destruct (String.eqb_spec (universal_newlines src) (universal_newlines dc)).
        + exists dest, added, (skipped + 1), overwritten.
          split; [reflexivity|]. split; [lia|]. split; [reflexivity|].
          exists dc. auto.
        + eexists _, _, _, _. split; [reflexivity|]. split; [lia|].
          split; [intros file Hf; now apply lookup_insert_ne|].
          exists src. rewrite lookup_insert_eq. auto.
      - eexists _, _, _, _. split; [reflexivity|]. split; [lia|].
        split; [intros file Hf; now apply lookup_insert_ne|].
        exists src. rewrite lookup_insert_eq. auto. }
    destruct Hstep as (dest1 & a1 & s1 & o1 & Hstep & Hsum & Hframe1 & Hn1).
    rewrite Hstep in H.
    destruct (IH Hnd _ _ _ _ _ _ _ _ H) as (Hpost & Hframe & Hcount).
    assert (Hother : forall name source, In (name, source) listing -> name <> n).
    { intros name source Hin ->. apply Hn. apply list_elem_of_In.
      apply in_map_iff. now exists (n, source). }
    split; [|split].
    + intros name source [[= <- <-]|Hin].
      * destruct Hn1 as (content & H1 & H2 & H3). exists content.
        rewrite Hframe; [auto|].
        intros name source Hin Heq. apply dest_filename_inj in Heq.
        exact (Hother _ _ Hin (eq_sym Heq)).
      * destruct (Hpost _ _ Hin) as (content & H1 & H2 & H3).
        exists content. split; [exact H1|]. split; [exact H2|].
        destruct H3 as [H3|H3]; [now left|]. right. rewrite <- H3.
        symmetry. apply Hframe1. intros Heq. apply dest_filename_inj in Heq.
        exact (Hother _ _ Hin Heq).
    + intros file Hfile. rewrite Hframe.
      * apply Hframe1. apply (Hfile n src). now left.
      * intros name source Hin. apply (Hfile name source). now right.
    + cbn [length]. lia.
Qed.

Lemma copy_loop_skip listing :
  forall dest added skipped overwritten,
    (forall name source, In (name, source) listing ->
       exists content,
         dest !! dest_filename name = Some content
         /\ universal_newlines content = universal_newlines source) ->
    fold_left copy_script listing (dest, added, skipped, overwritten)
    = (dest, added, skipped + length listing, overwritten).
Proof.
  induction listing as [|[n src] listing IH];
    intros dest added skipped overwritten Hall.
  - cbn. now rewrite Nat.add_0_r.
  - cbn [fold_left copy_script].
    destruct (Hall n src (or_introl eq_refl)) as (content & -> & Heq).
    rewrite Heq, String.eqb_refl, IH.
    + cbn [length]. do 2 f_equal. lia.
    + intros name source Hin. apply Hall. now right.
Qed.

Lemma copy_to_destination_inv out dest :
  let '(dest', added, skipped, overwritten) := copy_to_destination out dest in
  (forall name source, In (name, source) (glob_user_js out) ->
     exists content,
       dest' !! dest_filename name = Some content
       /\ universal_newlines content = universal_newlines source
       /\ (content = source \/ dest !! dest_filename name = Some content))
  /\ (forall file,
        (forall name source, In (name, source) (glob_user_js out) ->
           file <> dest_filename name) ->
        dest' !! file = dest !! file)
  /\ added + skipped + overwritten = length (glob_user_js out).
Proof.
  unfold copy_to_destination.
  destruct (fold_left copy_script (glob_user_js out) (dest, 0, 0, 0))
    as [[[dest' added] skipped] overwritten] eqn:E.
  exact (copy_loop_spec _ (glob_user_js_NoDup out) _ _ _ _ _ _ _ _ E).
Qed.

(** X12. After the copy every script file of the output directory has its
    copy under the prefixed name, and the copy reads as the script file
    does: it is the file's text, or the text the destination already held
    where that read the same.  No other file of the destination is touched,
    none is deleted, and the three counts add up to the number of script
    files. *)
Theorem copy_to_destination_spec (out dest : gmap string string) :
  let '(dest', added, skipped, overwritten) := copy_to_destination out dest in
  (forall name source, out !! name = Some source -> is_user_js name = true ->
     exists content,
       dest' !! dest_filename name = Some content
       /\ universal_newlines content = universal_newlines source
       /\ (content = source \/ dest !! dest_filename name = Some content))
  /\ (forall file,
        (forall name, is_Some (out !! name) -> is_user_js name = true ->
           file <> dest_filename name) ->
        dest' !! file = dest !! file)
  /\ (forall file, is_Some (dest !! file) -> is_Some (dest' !! file))
  /\ added + skipped + overwritten = length (glob_user_js out).
Proof.
  pose proof (copy_to_destination_inv out dest) as H.
  destruct (copy_to_destination out dest) as [[[dest' added] skipped] overwritten].
  destruct H as (Hpost & Hframe & Hcount).
  split; [|split; [|split; [|exact Hcount]]].
  - intros name source Hn Hu. apply Hpost. now apply glob_user_js_spec.
  - intros file Hfile. apply Hframe. intros name source Hin.
    apply glob_user_js_spec in Hin as [Hn Hu]. apply Hfile; [eauto | exact Hu].
  - intros file Hsome.
    destruct (existsb (fun f : string * string =>
                         String.eqb file (dest_filename (fst f)))
                (glob_user_js out)) eqn:E.
    + apply existsb_exists in E as ([n src] & Hin & Heq).
      apply String.eqb_eq in Heq. cbn [fst] in Heq. subst file.
      destruct (Hpost _ _ Hin) as (content & -> & _). eauto.
    + rewrite Hframe; [exact Hsome|]. intros name source Hin ->.
      assert (Hex : existsb (fun f : string * string =>
                               String.eqb (dest_filename name)
                                 (dest_filename (fst f)))
                      (glob_user_js out) = true).
      { apply existsb_exists. exists (name, source). split; [exact Hin|].
        apply String.eqb_refl. }
      now rewrite Hex in E.
Qed.

(** X13. A second copy of the same output directory finds every script
    file in place: it changes nothing in the destination and counts
    every script file as skipped. *)
Theorem copy_to_destination_twice (out dest : gmap string string) :
  let dest' := (copy_to_destination out dest).1.1.1 in
  copy_to_destination out dest' = (dest', 0, length (glob_user_js out), 0).
Proof.
  pose proof (copy_to_destination_inv out dest) as H.
  destruct (copy_to_destination out dest) as [[[dest' added] skipped] overwritten].
  destruct H as (Hpost & _ & _). cbn [fst]. unfold copy_to_destination.
  rewrite copy_loop_skip; [reflexivity|].
  intros name source Hin. destruct (Hpost _ _ Hin) as (content & H1 & H2 & _).
  eauto.
Qed.

Lemma ends_with_append suffix s : ends_with suffix (s +:+ suffix) = true.
Proof.
  unfold ends_with. rewrite length_append.
  replace (String.length s + String.length suffix - String.length suffix)
    with (String.length s) by lia.
  rewrite str_drop_append, String.eqb_refl, andb_true_r.
  apply Nat.leb_le. lia.
Qed.

Lemma script_filename_user_js uuid script name :
  script_filename uuid script = Ok name -> is_user_js name = true.
Proof.
  intros H. apply script_filename_inv in H as (n & slug & _ & ->).
  apply ends_with_append.
Qed.

(** X14. Export, then copy: after a run that returns and the copy of its
    output directory, every script of the input has a copy in the
    destination, under its file name with the prefix, that reads as the
    script reads -- provided scripts that share a file name share their
    text. *)
Theorem exported_scripts_reach_destination (isoformat : nat -> string)
    (scripts : list (string * string)) (include_manifest : bool) (w w' : world)
    (result : list json * nat * nat * nat) (dest : gmap string string) :
  (forall u1 s1 u2 s2, In (u1, s1) scripts -> In (u2, s2) scripts ->
     script_filename u1 s1 = script_filename u2 s2 -> s1 = s2) ->
  export_userscripts isoformat scripts include_manifest w = (Ok result, w') ->
  forall uuid script, In (uuid, script) scripts ->
    exists name content,
      script_filename uuid script = Ok name
      /\ (copy_to_destination (files w') dest).1.1.1 !! dest_filename name
         = Some content
      /\ universal_newlines content = universal_newlines script.
Proof.
  intros Hsame Hrun uuid script Hin.
  destruct (export_run_on_disk _ _ _ _ _ _ Hsame Hrun _ _ Hin)
    as (name & source & Hf & Hfile & Hsrc).
  pose proof (copy_to_destination_inv (files w') dest) as H.
  destruct (copy_to_destination (files w') dest)
    as [[[dest' added] skipped] overwritten].
  destruct H as (Hpost & _ & _). cbn [fst].
  destruct (Hpost name source) as (content & H1 & H2 & _).
  { apply glob_user_js_spec. split; [exact Hfile|].
    exact (script_filename_user_js _ _ _ Hf). }
  exists name, content. split; [exact Hf|]. split; [exact H1|].
  rewrite H2. destruct Hsrc as [->|<-]; [reflexivity|].
  symmetry. apply universal_newlines_idem.
Qed.

Lemma exported_scripts_reach_destination_witness :
  exists name content,
    script_filename "id1" foo_bar_script = Ok name
    /\ (copy_to_destination
          (files (export_userscripts tick_format
                    [("id1", foo_bar_script); ("id2", baz_script)] true
                    empty_world).2)
          stale_dest).1.1.1 !! dest_filename name = Some content
    /\ universal_newlines content = universal_newlines foo_bar_script.
Proof.
  apply (exported_scripts_reach_destination tick_format
           [("id1", foo_bar_script); ("id2", baz_script)] true empty_world _
           ([foo_bar_entry "T0"; baz_entry "T1"], 2, 0, 0)).
  - intros u1 s1 u2 s2 [[= <- <-]|[[= <- <-]|[]]] [[= <- <-]|[[= <- <-]|[]]];
      vm_compute; congruence.
  - vm_compute. reflexivity.
  - now left.
Defined.

Example copy_to_destination_example :
  let '(dest', added, skipped, overwritten) :=
    copy_to_destination two_scripts_out stale_dest in
  (added, skipped, overwritten) = (1, 0, 1)
  /\ dest' !! "tweeks.foo-bar.user.js" = Some foo_bar_script
  /\ dest' !! "tweeks.baz.user.js" = Some baz_script
  /\ dest' !! "notes.txt" = Some "mine"
  /\ dest' !! "tweeks.manifest.json" = None.
Proof. vm_compute. repeat split. Qed.


(** ** The remembered destination *)

Lemma load_config_eq w : load_config w = (Ok (loaded_config (files w)), w).
Proof.
  unfold load_config, loaded_config. unfold_monad.
  destruct (files w !! config_name) as [content|] eqn:E; cbn; rewrite ?E;
    reflexivity.
Qed.

Lemma loaded_config_wf fs : json_wf (loaded_config fs) = true.
Proof.
  unfold loaded_config. destruct (fs !! config_name) as [content|]; [|reflexivity].
  destruct (json_loads _) as [config|] eqn:E; [|reflexivity].
  exact (json_loads_wf _ _ E).
Qed.

(** What [save_config] writes, [load_config] reads back. *)
Lemma loaded_config_saved config fs :
  json_wf config = true ->
  loaded_config (<[config_name := json_dumps config]> fs) = config.
Proof.
  intros Hwf. unfold loaded_config. rewrite lookup_insert_eq.
  pose proof (json_dump_ascii _ Hwf 0) as Hascii.
  change (str_all is_ascii_text (json_dumps config) = true) in Hascii.
  now rewrite (universal_newlines_ascii _ Hascii), (json_loads_dumps _ Hwf).
Qed.

Lemma get_destination_dir_eq Path expanduser dest_flag response_line w :
  get_destination_dir Path expanduser dest_flag response_line w
  = get_destination_dir_result Path expanduser dest_flag response_line w.
Proof.
  unfold get_destination_dir, get_destination_dir_result, save_destination.
  unfold mbind at 1, M_bind at 1. rewrite load_config_eq.
  generalize (loaded_config (files w)). intros config.
  unfold save_config. unfold_monad. destruct dest_flag as [flag|].
  - destruct (py_setitem config "destination" (JStr flag)); reflexivity.
  - destruct (py_in "destination" config) as [[]|]; [| |reflexivity].
    + destruct (py_getitem config "destination") as [[]|]; reflexivity.
    + cbv zeta. destruct (negb _).
      * destruct (expanduser _) as [dest|]; [|reflexivity].
        destruct (py_setitem config "destination" _); reflexivity.
      * destruct (py_setitem config "destination" JNull); reflexivity.
Qed.

Lemma saved_destination_wf members destination :
  json_wf (JObj members) = true -> json_wf destination = true ->
  json_wf (JObj (dict_set "destination" destination members)) = true.
Proof.
  intros Hwf Hd. cbn [json_wf] in *. apply andb_true_iff in Hwf as [Hk Hv].
  rewrite (distinct_keys_dict_set _ _ _ Hk).
  now rewrite (forallb_dict_set json_wf _ _ _ Hd Hv).
Qed.

(** A later call after the destination was saved. *)
Lemma get_destination_dir_saved Path expanduser members destination w t
    response_line :
  json_wf (JObj members) = true -> json_wf destination = true ->
  get_destination_dir Path expanduser None response_line
    (World (<[config_name :=
                json_dumps (JObj (dict_set "destination" destination members))]>
              (files w)) t)
  = (match destination with
     | JNull => Ok None
     | JStr s => Ok (Some (Path s))
     | _ => Raise TypeError
     end,
     World (<[config_name :=
                json_dumps (JObj (dict_set "destination" destination members))]>
              (files w)) t).
Proof.
  intros Hwf Hd. rewrite get_destination_dir_eq.
  unfold get_destination_dir_result. cbn [files].
  rewrite (loaded_config_saved _ _ (saved_destination_wf _ _ Hwf Hd)).
  cbn [py_in py_getitem]. rewrite dict_get_set_eq.
  destruct destination; reflexivity.
Qed.



(** X16. Let the configuration file, when there is one, read as a text
    within the limits of the decoder's model and give an object without a
    destination.  The first call without the flag asks.  A blank answer is
    saved as no destination and a later call returns none.  Any other
    answer is expanded: when [expanduser] gives a path, the path is saved
    and returned, and a later call returns the path of the saved text;
    when [expanduser] raises [RuntimeError], so does the call, and nothing
    is saved.  After an answer that was saved no later call asks again. *)
Theorem destination_answer_remembered (Path : string -> string)
    (expanduser : string -> option string)
    (response_line : string) (w : world) (members : list (string * json)) :
  file_within_limits (files w) config_name = true ->
  loaded_config (files w) = JObj members ->
  dict_get "destination" members = None ->
  let answer := strip is_space response_line in
  let run := get_destination_dir Path expanduser None response_line w in
  (answer = EmptyString ->
   run.1 = Ok None
   /\ forall later_line,
        get_destination_dir Path expanduser None later_line run.2
        = (Ok None, run.2))
  /\ (answer <> EmptyString ->
      match expanduser (Path answer) with
      | Some dest =>
          run.1 = Ok (Some dest)
          /\ forall later_line,
               get_destination_dir Path expanduser None later_line run.2
               = (Ok (Some (Path dest)), run.2)
      | None => run = (Raise RuntimeError, w)
      end).
Proof.
  intros _ Hconfig Hnone answer run.
  assert (Hwf : json_wf (JObj members) = true)
    by (rewrite <- Hconfig; apply loaded_config_wf).
  assert (Hrun : run = if negb (String.eqb answer "") then
            match expanduser (Path answer) with
            | Some dest => save_destination w (JObj members) (JStr dest) (Some dest)
            | None => (Raise RuntimeError, w)
            end
          else save_destination w (JObj members) JNull None).
  { subst run. rewrite get_destination_dir_eq. unfold get_destination_dir_result.
    rewrite Hconfig. cbn [py_in]. now rewrite Hnone. }
  split.
  - intros Hblank. rewrite Hblank in Hrun. cbn in Hrun. rewrite Hrun. cbn [fst snd].
    split; [reflexivity|]. intros later_line.
    now apply (get_destination_dir_saved Path expanduser members JNull).
  - intros Hanswer. apply String.eqb_neq in Hanswer. rewrite Hanswer in Hrun.
    cbn [negb] in Hrun. destruct (expanduser (Path answer)) as [dest|];
      [|exact Hrun].
    cbn in Hrun. rewrite Hrun. cbn [fst snd]. split; [reflexivity|].
    intros later_line.
    now apply (get_destination_dir_saved Path expanduser members (JStr dest)).
Qed.

Lemma destination_answer_remembered_witness :
  (strip is_space "  ~/scripts/  " = EmptyString ->
   (get_destination_dir posix_path (expanduser_home "/Users/me") None
      "  ~/scripts/  " themed_config).1 = Ok None
   /\ forall later_line,
        get_destination_dir posix_path (expanduser_home "/Users/me") None
          later_line
          (get_destination_dir posix_path (expanduser_home "/Users/me") None
             "  ~/scripts/  " themed_config).2
        = (Ok None,
           (get_destination_dir posix_path (expanduser_home "/Users/me") None
              "  ~/scripts/  " themed_config).2))
  /\ (strip is_space "  ~/scripts/  " <> EmptyString ->
      match expanduser_home "/Users/me"
              (posix_path (strip is_space "  ~/scripts/  ")) with
      | Some dest =>
          (get_destination_dir posix_path (expanduser_home "/Users/me") None
             "  ~/scripts/  " themed_config).1 = Ok (Some dest)
          /\ forall later_line,
               get_destination_dir posix_path (expanduser_home "/Users/me") None
                 later_line
                 (get_destination_dir posix_path (expanduser_home "/Users/me")
                    None "  ~/scripts/  " themed_config).2
               = (Ok (Some (posix_path dest)),
                  (get_destination_dir posix_path (expanduser_home "/Users/me")
                     None "  ~/scripts/  " themed_config).2)
      | None =>
          get_destination_dir posix_path (expanduser_home "/Users/me") None
            "  ~/scripts/  " themed_config
          = (Raise RuntimeError, themed_config)
      end).
Proof.
  apply (destination_answer_remembered posix_path (expanduser_home "/Users/me")
           "  ~/scripts/  " themed_config [("theme", JStr "dark")]).
  - vm_compute. reflexivity.
  - vm_compute. reflexivity.
  - reflexivity.
Defined.

Example destination_answer_example :
  (get_destination_dir posix_path (expanduser_home "/Users/me") None
     "  ~/scripts/  " themed_config).1
  = Ok (Some "/Users/me/scripts").
Proof. vm_compute. reflexivity. Qed.

(** X17. A configuration file that reads as a text within the limits of
    the decoder's model and decodes to anything but an object stops every
    call, and nothing is saved: [load_config] returns the decoded value as
    it is, and on it the test for the key, the reading of the key or the
    assignment raises [TypeError].  The one other fault comes before the
    assignment: without the flag, when the value does not hold the key and
    the answer is not blank, [expanduser] may raise [RuntimeError]. *)
Theorem config_of_wrong_shape_faults (Path : string -> string)
    (expanduser : string -> option string)
    (dest_flag : option string) (response_line : string) (w : world) :
  file_within_limits (files w) config_name = true ->
  is_object (loaded_config (files w)) = false ->
  let run := get_destination_dir Path expanduser dest_flag response_line w in
  run.2 = w
  /\ (run.1 = Raise TypeError
      \/ (run.1 = Raise RuntimeError
          /\ dest_flag = None
          /\ py_in "destination" (loaded_config (files w)) = Ok false
          /\ strip is_space response_line <> EmptyString
          /\ expanduser (Path (strip is_space response_line)) = None)).
Proof.
  intros _ Hshape run. subst run. rewrite get_destination_dir_eq.
  unfold get_destination_dir_result, save_destination.
  destruct (loaded_config (files w)) as [|b|lit|s|items|members];
    try discriminate Hshape; destruct dest_flag as [flag|];
    try (split; [reflexivity | left; reflexivity]);
    cbn [py_in py_setitem py_getitem].
  - destruct (str_contains "destination" s);
      [split; [reflexivity | left; reflexivity]|].
    cbv zeta. destruct (String.eqb_spec (strip is_space response_line) "")
      as [->|Hne]; cbn [negb]; [split; [reflexivity | left; reflexivity]|].
    destruct (expanduser _) as [dest|] eqn:E;
      [split; [reflexivity | left; reflexivity]|].
    split; [reflexivity|]. right. auto.
  - destruct (existsb _ items);
      [split; [reflexivity | left; reflexivity]|].
    cbv zeta. destruct (String.eqb_spec (strip is_space response_line) "")
      as [->|Hne]; cbn [negb]; [split; [reflexivity | left; reflexivity]|].
    destruct (expanduser _) as [dest|] eqn:E;
      [split; [reflexivity | left; reflexivity]|].
    split; [reflexivity|]. right. auto.
Qed.

Lemma config_of_wrong_shape_faults_witness :
  (get_destination_dir posix_path (expanduser_home "/Users/me")
     None "~/scripts" (World {[ config_name := "[]" ]} 0)).2
  = World {[ config_name := "[]" ]} 0
  /\ ((get_destination_dir posix_path (expanduser_home "/Users/me")
         None "~/scripts" (World {[ config_name := "[]" ]} 0)).1
      = Raise TypeError
      \/ ((get_destination_dir posix_path (expanduser_home "/Users/me")
             None "~/scripts" (World {[ config_name := "[]" ]} 0)).1
          = Raise RuntimeError
          /\ @None string = None
          /\ py_in "destination"
               (loaded_config (files (World {[ config_name := "[]" ]} 0)))
             = Ok false
          /\ strip is_space "~/scripts" <> EmptyString
          /\ expanduser_home "/Users/me"
               (posix_path (strip is_space "~/scripts")) = None)).
Proof.
  apply (config_of_wrong_shape_faults posix_path (expanduser_home "/Users/me")
           None "~/scripts" (World {[ config_name := "[]" ]} 0)).
  - vm_compute. reflexivity.
  - vm_compute. reflexivity.
Defined.

(** A list for a configuration: with a path to save the call stops on
    [TypeError] at the assignment; with the name of a user that does not
    exist it stops before, on [RuntimeError]. *)
Example config_of_wrong_shape_example :
  (get_destination_dir posix_path (expanduser_home "/Users/me")
     None "~/scripts" (World {[ config_name := "[]" ]} 0)).1
  = Raise TypeError
  /\ (get_destination_dir posix_path (expanduser_home "/Users/me")
        None "~nobody/scripts" (World {[ config_name := "[]" ]} 0)).1
     = Raise RuntimeError
  /\ (get_destination_dir posix_path (expanduser_home "/Users/me")
        (Some "/Users/me/scripts") "~nobody/scripts"
        (World {[ config_name := "[]" ]} 0)).1
     = Raise TypeError
  /\ (get_destination_dir posix_path (expanduser_home "/Users/me")
        None "~nobody/scripts" themed_config)
     = (Raise RuntimeError, themed_config).
Proof. vm_compute. repeat split. Qed.


(** ** The extension check *)

Lemma verify_versions_cons entry rest :
  verify_versions (entry :: rest)
  = match entry_verdict entry with
    | Ok true => Ok true
    | Ok false => verify_versions rest
    | Raise e => Raise e
    end.
Proof.
  destruct entry as [|[content|]]; cbn [verify_versions entry_verdict];
    try reflexivity.
  destruct (json_loads _) as [manifest|]; [|reflexivity].
  destruct (names_tweeks manifest) as [[]|]; reflexivity.
Qed.

Lemma verify_versions_app before rest :
  Forall (fun entry => entry_verdict entry = Ok false) before ->
  verify_versions (before ++ rest) = verify_versions rest.
Proof.
  induction 1 as [|entry before He _ IH]; [reflexivity|].
  cbn [app]. now rewrite verify_versions_cons, He.
Qed.

Lemma verify_versions_inv entries result :
  verify_versions entries = result ->
  result <> Ok false ->
  exists before entry after,
    entries = before ++ entry :: after
    /\ Forall (fun entry => entry_verdict entry = Ok false) before
    /\ entry_verdict entry = result.
Proof.
  revert result. induction entries as [|entry entries IH]; intros result H Hne.
  - now subst result.
  - rewrite verify_versions_cons in H.
    destruct (entry_verdict entry) as [[]|e] eqn:E.
    + exists [], entry, entries. subst result. now repeat split.
    + destruct (IH _ H Hne) as (before & e' & after & -> & Hb & He').
      exists (entry :: before), e', after. repeat split; [|exact He'].
      now constructor.
    + exists [], entry, entries. subst result. now repeat split.
Qed.

(** X18. The check answers yes exactly when, in the order of the listing,
    the first version directory whose manifest does not simply fail the
    test is one whose manifest names Tweeks; it stops on the fault of the
    first one whose manifest faults the test, as a manifest that decodes to
    no object does ([AttributeError]); entries after that one are never
    read. *)
Theorem verify_tweeks_extension_spec (entries : list dir_entry)
    (result : outcome bool) :
  (verify_tweeks_extension None = Ok false)
  /\ (verify_tweeks_extension (Some entries) = result
      <-> (result = Ok false
           /\ Forall (fun entry => entry_verdict entry = Ok false) entries)
          \/ (exists before entry after,
                entries = before ++ entry :: after
                /\ Forall (fun entry => entry_verdict entry = Ok false) before
                /\ entry_verdict entry = result
                /\ (result = Ok true \/ exists e, result = Raise e)))
  /\ (forall manifest,
        is_object manifest = false -> names_tweeks manifest = Raise AttributeError).
Proof.
  split; [reflexivity|]. split.
  - cbn [verify_tweeks_extension]. split.
    + intros H. destruct result as [[]|e].
      * right. destruct (verify_versions_inv _ _ H) as (b & x & a & H1 & H2 & H3);
          [discriminate|]. exists b, x, a. repeat split; auto.
      * left. split; [reflexivity|].
        induction entries as [|entry entries IH]; [constructor|].
        rewrite verify_versions_cons in H.
        destruct (entry_verdict entry) as [[]|e] eqn:E; try discriminate.
        constructor; [exact E | now apply IH].
      * right. destruct (verify_versions_inv _ _ H) as (b & x & a & H1 & H2 & H3);
          [discriminate|]. exists b, x, a. repeat split; eauto.
    + intros [[-> Hall]|(before & entry & after & -> & Hb & He & Hres)].
      * rewrite <- (app_nil_r entries). now rewrite verify_versions_app.
      * rewrite (verify_versions_app _ _ Hb), verify_versions_cons, He.
        destruct Hres as [->|[e ->]]; reflexivity.
  - intros manifest Hshape. destruct manifest; try reflexivity. discriminate.
Qed.

Example verify_tweeks_extension_example :
  verify_tweeks_extension
    (Some [PlainFile; Directory None; Directory (Some "{oops");
           Directory (Some (dq "{'name': 'Tweeks by NextByte'}"));
           Directory (Some "[]")]) = Ok true
  /\ verify_tweeks_extension
       (Some [Directory (Some "[]");
              Directory (Some (dq "{'name': 'Tweeks by NextByte'}"))])
     = Raise AttributeError
  /\ verify_tweeks_extension
       (Some [Directory (Some (dq "{'name': 7}"))]) = Raise TypeError.
Proof. vm_compute. repeat split. Qed.

(** ** The scripts of a database *)

Lemma dict_update_holds (p : string -> bool) scripts found :
  forallb (fun kv : string * string => p (snd kv)) scripts = true ->
  forallb (fun kv : string * string => p (snd kv)) found = true ->
  forallb (fun kv : string * string => p (snd kv)) (dict_update scripts found)
    = true.
Proof.
  unfold dict_update. revert scripts.
  induction found as [|[k v] found IH]; intros scripts Hs Hf; [exact Hs|].
  cbn [forallb snd fold_left fst] in *. apply andb_true_iff in Hf as [Hv Hf].
  apply IH; [|exact Hf]. exact (forallb_dict_set p _ _ _ Hv Hs).
Qed.

Lemma dict_update_distinct {V : Type} (scripts found : list (string * V)) :
  distinct_keys (map fst scripts) = true ->
  distinct_keys (map fst (dict_update scripts found)) = true.
Proof.
  unfold dict_update. revert scripts.
  induction found as [|[k v] found IH]; intros scripts Hs; [exact Hs|].
  cbn [fold_left fst snd]. apply IH. now apply distinct_keys_dict_set.
Qed.

Lemma dict_get_update {V : Type} key (scripts found : list (string * V)) :
  distinct_keys (map fst found) = true ->
  dict_get key (dict_update scripts found)
  = match dict_get key found with
    | Some v => Some v
    | None => dict_get key scripts
    end.
Proof.
  unfold dict_update. revert scripts.
  induction found as [|[k v] found IH]; intros scripts Hd; [reflexivity|].
  cbn [map fst distinct_keys] in Hd. apply andb_true_iff in Hd as [Hk Hd].
  cbn [fold_left fst snd dict_get]. rewrite (IH _ Hd), dict_get_set.
  destruct (String.eqb_spec k key) as [->|Hne].
  - assert (Hnone : dict_get key found = None).
    { apply negb_true_iff in Hk. clear -Hk.
      induction found as [|[k0 v0] found IH]; [reflexivity|].
      cbn [map fst existsb dict_get] in *. apply orb_false_iff in Hk as [H1 H2].
      rewrite String.eqb_sym, H1. now apply IH. }
    now rewrite Hnone.
  - reflexivity.
Qed.

Lemma scanned_holds text :
  forallb (fun kv : string * string => str_contains begin_marker (snd kv))
    (scanned text) = true
  /\ distinct_keys (map fst (scanned text)) = true.
Proof.
  unfold scanned, parse_scripts_from_text.
  destruct (scan_loop (scan_fuel text) text 0 []) as [[found log]|] eqn:E;
    [|now split].
  exact (scan_loop_holds _ _ _ _ _ _ E eq_refl eq_refl).
Qed.

Lemma read_scripts_holds files :
  forall scripts,
    forallb (fun kv : string * string => str_contains begin_marker (snd kv))
      scripts = true ->
    distinct_keys (map fst scripts) = true ->
    forallb (fun kv : string * string => str_contains begin_marker (snd kv))
      (fold_left read_scripts files scripts) = true
    /\ distinct_keys (map fst (fold_left read_scripts files scripts)) = true.
Proof.
  induction files as [|[text|] files IH]; intros scripts H1 H2; [now split| |].
  - cbn [fold_left read_scripts]. apply IH.
    + apply dict_update_holds; [exact H1 | apply scanned_holds].
    + now apply dict_update_distinct.
  - cbn [fold_left read_scripts]. now apply IH.
Qed.

(** X19. Every script [extract_userscripts] returns holds the header
    sentinel and no id occurs twice.  The files are read in the order of
    the listing and a later file wins: the script of an id is the one of
    the last readable file whose scan has the id.  The [*.ldb] files are
    read only when the [*.log] files gave no script at all. *)
Theorem extract_userscripts_spec (logs ldbs : list (option string)) :
  let scripts := extract_userscripts logs ldbs in
  forallb (fun kv : string * string => str_contains begin_marker (snd kv))
    scripts = true
  /\ distinct_keys (map fst scripts) = true
  /\ (forall files text uuid,
        dict_get uuid (fold_left read_scripts (files ++ [Some text]) [])
        = match dict_get uuid (scanned text) with
          | Some script => Some script
          | None => dict_get uuid (fold_left read_scripts files [])
          end)
  /\ (fold_left read_scripts logs [] <> [] ->
      scripts = fold_left read_scripts logs []).
Proof.
  cbv zeta. unfold extract_userscripts.
  destruct (read_scripts_holds logs [] eq_refl eq_refl) as [H1 H2].
  destruct (read_scripts_holds ldbs [] eq_refl eq_refl) as [H3 H4].
  split; [|split; [|split]].
  - now destruct (fold_left read_scripts logs []).
  - now destruct (fold_left read_scripts logs []).
  - intros files text uuid. rewrite fold_left_app. cbn [fold_left read_scripts].
    apply dict_get_update, scanned_holds.
  - destruct (fold_left read_scripts logs []); [congruence | reflexivity].
Qed.


(** ** The shape of metadata *)

Lemma split_on_no_sep sep s :
  Forall (fun line => str_all (fun c => negb (c =? sep)%char) line = true)
    (split_on sep s).
Proof.
  induction s as [|c s IH]; [repeat constructor|]. cbn [split_on].
  destruct (c =? sep)%char eqn:E; [now constructor|].
  destruct (split_on sep s) as [|l ls]; [repeat constructor; cbn; now rewrite E|].
  apply Forall_cons in IH as [Hl Hls]. constructor; [|exact Hls].
  cbn [str_all]. now rewrite E, Hl.
Qed.

Lemma str_all_lstrip p cls s : str_all p s = true -> str_all p (lstrip cls s) = true.
Proof.
  induction s as [|c s IH]; [reflexivity|]. cbn [lstrip]. intros H.
  destruct (cls c); [|exact H]. cbn [str_all] in H.
  apply andb_true_iff in H as [_ H]. now apply IH.
Qed.

Lemma str_all_rstrip p cls s : str_all p s = true -> str_all p (rstrip cls s) = true.
Proof.
  intros H. destruct (rstrip_prefix cls s) as [t Ht]. rewrite Ht in H.
  rewrite str_all_append in H. now apply andb_true_iff in H as [H _].
Qed.

Lemma str_all_str_drop p n s : str_all p s = true -> str_all p (str_drop n s) = true.
Proof.
  revert s. induction n as [|n IH]; intros s H; [now destruct s|].
  destruct s as [|c s]; [exact H|]. cbn [str_drop]. apply IH.
  cbn [str_all] in H. now apply andb_true_iff in H as [_ H].
Qed.

Lemma str_last_lstrip cls s c :
  str_last s = Some c -> cls c = false -> str_last (lstrip cls s) = Some c.
Proof.
  induction s as [|c0 s IH]; [discriminate|]. intros Hl Hc. cbn [lstrip].
  destruct (cls c0) eqn:E; [|exact Hl]. apply IH; [|exact Hc].
  destruct s as [|c1 s]; [|exact Hl]. cbn in Hl. injection Hl as ->. congruence.
Qed.

Lemma lstrip_head cls s : 
  match str_head (lstrip cls s) with Some c => cls c = false | None => True end.
Proof.
  induction s as [|c s IH]; [exact I|]. cbn [lstrip].
  destruct (cls c) eqn:E; [exact IH | exact E].
Qed.

Lemma take_while_all p s : str_all p s = true -> take_while p s = s.
Proof.
  induction s as [|c s IH]; [reflexivity|]. cbn [str_all take_while].
  intros H. apply andb_true_iff in H as [-> H]. now rewrite IH.
Qed.

Lemma str_last_Some c s : exists z, str_last (String c s) = Some z.
Proof.
  revert c. induction s as [|c0 s IH]; intros c; [now exists c|].
  destruct (IH c0) as [z Hz]. exists z. exact Hz.
Qed.

Lemma match_meta_line_ok line key value :
  str_all (fun c => negb (c =? newline)%char) line = true ->
  match str_last line with Some c => is_space c = false | None => True end ->
  match_meta_line line = Some (key, value) ->
  key_ok key = true /\ value_ok value = true.
Proof.
  intros Hnl Hlast. unfold match_meta_line.
  destruct line as [|a rest0]; [discriminate|].
  destruct (Ascii.eqb_spec a "@") as [->|Hne];
    [|destruct a as [[] [] [] [] [] [] [] []]; try discriminate; now elim Hne].
  set (k := take_while is_word rest0).
  pose proof (str_all_take_while is_word rest0) as Hk. fold k in Hk.
  pose proof (take_while_split is_word rest0) as Hsplit. fold k in Hsplit.
  destruct k as [|k0 k']; [discriminate|].
  destruct (str_drop (String.length (String k0 k')) rest0) as [|c rest] eqn:Ed;
    [discriminate|].
  destruct (is_space c) eqn:Ec; [|discriminate]. intros [= <- <-].
  split; [unfold key_ok; now rewrite Hk|].
  (* the text after the key ends as the line does *)
  assert (Hrl : str_last (String c rest) = str_last (String "@" rest0)).
  { rewrite Hsplit. clear. generalize (String k0 k'). intros k.
    change (String "@" (k +:+ String c rest))
      with (String "@" k +:+ String c rest).
    apply eq_sym, str_last_append. }
  assert (Hrn : str_all (fun c => negb (c =? newline)%char) (String c rest) = true).
  { cbn [str_all] in Hnl. apply andb_true_iff in Hnl as [_ Hnl].
    rewrite Hsplit, str_all_append in Hnl. now apply andb_true_iff in Hnl as [_ H]. }
  destruct (str_last_Some "@" rest0) as [z Hz]. rewrite Hz in Hrl, Hlast.
  pose proof (str_last_lstrip is_space _ _ Hrl Hlast) as Hv.
  pose proof (str_all_lstrip _ is_space _ Hrn) as Hvn.
  change (if is_space c then lstrip is_space rest else String c rest)
    with (lstrip is_space (String c rest)).
  rewrite (take_while_all _ _ Hvn). unfold value_ok.
  pose proof (lstrip_head is_space (String c rest)) as Hh.
  destruct (lstrip is_space (String c rest)) as [|v0 v]; [discriminate|].
  cbn [str_head is_space_at] in *. rewrite Hh, Hv. cbn [is_space_at].
  now rewrite Hlast, Hvn.
Qed.

Lemma line_entry_ok line key value :
  str_all (fun c => negb (c =? newline)%char) line = true ->
  line_entry line = Some (key, value) ->
  key_ok key = true /\ value_ok value = true.
Proof.
  intros Hnl. unfold line_entry. destruct (starts_with "//" _); [|discriminate].
  apply match_meta_line_ok.
  - unfold strip. apply str_all_rstrip, str_all_lstrip, str_all_str_drop.
    apply str_all_rstrip, str_all_lstrip, Hnl.
  - unfold strip at 1. apply rstrip_last.
Qed.

Lemma forallb_dict_set_entry {V : Type} (p : string * V -> bool) k v d :
  p (k, v) = true -> forallb p d = true -> forallb p (dict_set k v d) = true.
Proof.
  intros Hv. induction d as [|[k0 v0] d IH]; cbn [dict_set forallb].
  - now rewrite Hv.
  - intros H. apply andb_true_iff in H as [H1 H2].
    destruct (String.eqb_spec k0 k) as [->|]; cbn [forallb].
    + now rewrite Hv, H2.
    + now rewrite H1, IH.
Qed.

Lemma dict_get_forallb {V : Type} (p : string * V -> bool) k x d :
  forallb p d = true -> dict_get k d = Some x -> p (k, x) = true.
Proof.
  induction d as [|[k0 v0] d IH]; [discriminate|]. cbn [forallb dict_get].
  intros H. apply andb_true_iff in H as [H1 H2].
  destruct (String.eqb_spec k0 k) as [->|]; [now intros [= <-] | now apply IH].
Qed.

Lemma add_meta_ok key value metadata :
  key_ok key = true -> value_ok value = true ->
  forallb meta_ok metadata = true ->
  forallb meta_ok (add_meta key value metadata) = true.
Proof.
  intros Hk Hv Hall. unfold add_meta.
  destruct (dict_get key metadata) as [[v|l]|] eqn:E;
    apply forallb_dict_set_entry; try exact Hall; unfold meta_ok; cbn [fst snd];
    rewrite Hk; cbn [andb].
  - pose proof (dict_get_forallb _ _ _ _ Hall E) as H. unfold meta_ok in H.
    cbn [fst snd] in H. apply andb_true_iff in H as [_ H].
    cbn [length forallb]. now rewrite H, Hv.
  - pose proof (dict_get_forallb _ _ _ _ Hall E) as H. unfold meta_ok in H.
    cbn [fst snd] in H. apply andb_true_iff in H as [_ H].
    apply andb_true_iff in H as [Hlen Hl]. apply Nat.leb_le in Hlen.
    rewrite forallb_app, Hl. cbn [forallb]. rewrite Hv. cbn [andb].
    rewrite andb_true_r. apply Nat.leb_le. rewrite length_app. cbn. lia.
  - exact Hv.
Qed.

(** X20. In the metadata of any script every key is a run of word
    characters, not empty, and occurs once; every value is not empty, has
    no line break and no whitespace at either end; and a list of values
    has two or more. *)
Theorem parse_userscript_metadata_shape (script : string) :
  forallb meta_ok (parse_userscript_metadata script) = true
  /\ distinct_keys (map fst (parse_userscript_metadata script)) = true.
Proof.
  split; [|apply parse_userscript_metadata_distinct].
  unfold parse_userscript_metadata.
  destruct (search_header script) as [header|]; [|reflexivity].
  pose proof (split_on_no_sep newline header) as Hlines.
  assert (H : forallb meta_ok (@nil (string * meta_value)) = true) by reflexivity.
  revert H. generalize (@nil (string * meta_value)).
  induction Hlines as [|line lines Hline _ IH]; intros metadata H; [exact H|].
  cbn [fold_left]. apply IH. unfold add_line.
  destruct (line_entry line) as [[k v]|] eqn:E; [|exact H].
  destruct (line_entry_ok _ _ _ Hline E) as [Hk Hv]. now apply add_meta_ok.
Qed.


(** ** Waiting for Chrome to close *)

Lemma last_probe_S env n q :
  last_probe env {| probes := S n; quits := q |} = pgrep_finds env n.
Proof. unfold last_probe. cbn [probes]. f_equal. lia. Qed.

Lemma wait_closed_spec env n s :
  let '(closed, s') := wait_closed env n s in
  probes s <= probes s' <= probes s + n /\ quits s' = quits s
  /\ (if closed then probes s < probes s' /\ last_probe env s' = false
      else probes s' = probes s + n
           /\ forall k, probes s <= k < probes s' -> pgrep_finds env k = true).
Proof.
  revert s. induction n as [|n IH]; intros s; cbn [wait_closed].
  - split; [lia|]. split; [reflexivity|]. split; [lia|]. intros k Hk. lia.
  - unfold is_chrome_running. destruct (pgrep_finds env (probes s)) eqn:E; cbn [negb].
    + specialize (IH {| probes := S (probes s); quits := quits s |}).
      destruct (wait_closed env n _) as [closed s']. cbn [probes quits] in IH.
      destruct IH as (Hp & Hq & Hc). split; [lia|]. split; [exact Hq|].
      destruct closed.
      * split; [lia | apply Hc].
      * destruct Hc as [Hn Hall]. split; [lia|]. intros k Hk.
        destruct (Nat.eq_dec k (probes s)) as [->|Hne]; [exact E | apply Hall; lia].
    + cbn [probes quits]. split; [lia|]. split; [reflexivity|]. split; [lia|].
      now rewrite last_probe_S.
Qed.

Lemma prompt_loop_ok env lines s0 s :
  probes s0 < probes s -> quits s = quits s0 -> last_probe env s = true ->
  closed_ok env s0 lines (prompt_loop env lines s).
Proof.
  remember (length lines) as n eqn:Hn.
  assert (Hlen : length lines <= n) by lia. clear Hn.
  revert lines s Hlen. induction n as [|n IH]; intros lines s Hlen Hp Hq Hl.
  { destruct lines; [|cbn in Hlen; lia]. unfold closed_ok. cbn [prompt_loop].
    split; [lia|]. split; [lia|]. split; [now exists []|].
    split; [reflexivity | exact Hl]. }
  destruct lines as [|line rest]; cbn [prompt_loop].
  { unfold closed_ok. split; [lia|]. split; [lia|]. split; [now exists []|].
    split; [reflexivity | exact Hl]. }
  cbn [length] in Hlen.
  destruct (existsb _ [EmptyString; "y"; "yes"]).
  { unfold quit_chrome. destruct (osascript_ok env (quits s)).
    - pose proof (wait_closed_spec env 10 {| probes := probes s; quits := S (quits s) |}) as W.
      destruct (wait_closed env 10 _) as [closed s2]. cbn [probes quits] in W.
      destruct W as (Wp & Wq & Wc). unfold closed_ok.
      split; [lia|]. split; [lia|]. split; [now exists [line]|].
      destruct closed; cbn [negb]; [apply Wc|].
      destruct Wc as [Wn Wall]. unfold last_probe. apply Wall. lia.
    - unfold closed_ok. cbn [probes quits]. split; [lia|]. split; [lia|].
      split; [now exists [line]|]. exact Hl. }
  destruct (existsb _ ["n"; "no"]).
  { unfold closed_ok. split; [lia|]. split; [lia|]. split; [now exists [line]|].
    exact Hl. }
  destruct (String.eqb _ "manual").
  - destruct rest as [|enter rest'].
    { unfold closed_ok. split; [lia|]. split; [lia|]. split; [now exists [line]|].
      split; [reflexivity | exact Hl]. }
    unfold is_chrome_running. destruct (pgrep_finds env (probes s)) eqn:E; cbn [negb].
    + cbn [length] in Hlen.
      assert (H : closed_ok env s0 rest'
                    (prompt_loop env rest' {| probes := S (probes s); quits := quits s |})).
      { apply IH; cbn [probes quits]; [lia | lia | exact Hq |].
        now rewrite last_probe_S. }
      unfold closed_ok in *. destruct (prompt_loop env rest' _) as [[r s'] left].
      destruct H as (H1 & H2 & [used H3] & H4).
      split; [exact H1|]. split; [exact H2|]. split; [|exact H4].
      exists (line :: enter :: used). now rewrite H3.
    + unfold closed_ok. cbn [probes quits]. split; [lia|]. split; [lia|].
      split; [now exists [line; enter]|]. now rewrite last_probe_S.
  - assert (H : closed_ok env s0 rest (prompt_loop env rest s)).
    { apply IH; [lia | exact Hp | exact Hq | exact Hl]. }
    unfold closed_ok in *. destruct (prompt_loop env rest s) as [[r s'] left].
    destruct H as (H1 & H2 & [used H3] & H4).
    split; [exact H1|]. split; [exact H2|]. split; [|exact H4].
    exists (line :: used). now rewrite H3.
Qed.

(** X21. [ensure_chrome_closed] runs [pgrep] at least once and [osascript]
    at most once, reads the lines of the standard input from the front,
    and returns the opposite of what its latest run of [pgrep] found: True
    only when Chrome was last seen closed, False only when it was last seen
    open.  When the input runs out it raises [EOFError], with Chrome last
    seen open. *)
Theorem ensure_chrome_closed_spec (env : chrome) (lines : list string) (s0 : calls) :
  let '(r, s, rest) := ensure_chrome_closed env lines s0 in
  probes s0 < probes s
  /\ quits s0 <= quits s <= S (quits s0)
  /\ (exists used, lines = used ++ rest)
  /\ match r with
     | Returns b => last_probe env s = negb b
     | EOFError => rest = [] /\ last_probe env s = true
     end.
Proof.
  change (closed_ok env s0 lines (ensure_chrome_closed env lines s0)).
  unfold ensure_chrome_closed, is_chrome_running.
  destruct (pgrep_finds env (probes s0)) eqn:E; cbn [negb].
  - apply prompt_loop_ok; cbn [probes quits]; [lia | reflexivity |].
    now rewrite last_probe_S.
  - unfold closed_ok. cbn [probes quits]. split; [lia|]. split; [lia|].
    split; [now exists []|]. now rewrite last_probe_S.
Qed.

(** Chrome closes while the function waits after a successful quit: the
    user first answers manual and presses Enter with Chrome still open,
    then answers Y. *)
Example ensure_chrome_closed_example :
  ensure_chrome_closed (chrome_closes_at 3) ["manual"; EmptyString; " Y "; "n"]
    {| probes := 0; quits := 0 |}
  = (Returns true, {| probes := 4; quits := 1 |}, ["n"]).
Proof. reflexivity. Qed.
